(** * PromptCCD training with a Gaussian Mixture Prompt (known K)

    A shallow embedding of [models/promptccd_training_w_gmp.py]:
    the stage lifecycle manager [PromptCCD_Model.__init__], the stage
    trainer [PromptCCD_Model.fit], the supervised contrastive kernel
    [SupConLoss.forward], the InfoNCE pair constructor
    [info_nce_logits], and the selection of the parameters to finetune in
    [get_vit_model].

    Conventions of the embedding.
    - Python [int] is [Z]; [//] and [%] are [Z.div] and [Z.modulo] (both
      floor towards minus infinity, like Python), raising
      [ZeroDivisionError] on a zero divisor.
    - Tensor entries are real numbers ([R]): the embedding idealises
      floating point, so rounding, overflow and underflow are outside it.
      A value that the code would compute as NaN or an infinity (a division
      by zero, the logarithm of zero) is [None] in [xreal := option R].
    - Accuracies returned by the evaluation collaborator are rationals
      ([Q]), so that the best-checkpoint gate runs inside Rocq.
    - A raised Python exception is [Raise e]; effects that survive an
      exception (files written, batches processed) live in the state of
      the trainer monad.
    - The backbone, projection head, mixture prompt, optimiser and k-means
      evaluation are collaborators of the file; they are the fields of the
      class [Collab]. *)

From Stdlib Require Import ZArith List Lia String Ascii QArith Qminmax Reals Lra Bool.
From Stdlib Require Import DecimalString DecimalZ DecimalPos.
From stdpp Require Import base option list gmap strings.
Import ListNotations.

Set Default Proof Using "Type".
Local Open Scope Z_scope.

(** ** Exceptions and results *)

Inductive exn : Type :=
| ValueError
| RuntimeError
| IndexError
| ZeroDivisionError
| FileNotFoundError.

Inductive result (A : Type) : Type :=
| Ok (a : A)
| Raise (e : exn).
Arguments Ok {A} a.
Arguments Raise {A} e.

#[global] Instance result_ret : MRet result := fun A a => Ok a.
#[global] Instance result_bind : MBind result := fun A B f m =>
  match m with
  | Ok a => f a
  | Raise e => Raise e
  end.

(** A guard: [check b e] raises [e] unless [b] holds. *)
Definition check (b : bool) (e : exn) : result unit :=
  if b then Ok tt else Raise e.

(** ** Python helpers *)

(** [a // b] on integers. *)
Definition py_floordiv (a b : Z) : result Z :=
  if b =? 0 then Raise ZeroDivisionError else Ok (a / b).

(** [a % b] on integers. *)
Definition py_mod (a b : Z) : result Z :=
  if b =? 0 then Raise ZeroDivisionError else Ok (a mod b).

(** [l[i]] on a Python list: negative indices count from the end, an index
    out of range raises [IndexError]. *)
Definition py_index {A} (l : list A) (i : Z) : result A :=
  let n := Z.of_nat (length l) in
  let j := if 0 <=? i then i else n + i in
  if (0 <=? j) && (j <? n) then
    match l !! Z.to_nat j with
    | Some x => Ok x
    | None => Raise IndexError
    end
  else Raise IndexError.

(** [range(n)]. *)
Definition py_range (n : Z) : list Z :=
  map Z.of_nat (seq 0 (Z.to_nat n)).

(** [str(i)] / [f'{i}'] for an integer. *)
Definition py_str (i : Z) : string :=
  NilZero.string_of_int (Z.to_int i).

(** A string without underscores. *)
Fixpoint no_underscore (s : string) : Prop :=
  match s with
  | EmptyString => True
  | String c s' => c <> "_"%char /\ no_underscore s'
  end.

(** [sub in s]. *)
Fixpoint py_contains (sub s : string) : bool :=
  String.prefix sub s
  || match s with
     | EmptyString => false
     | String _ s' => py_contains sub s'
     end.

(** [s.split(sep)] for a separator of one character. *)
Fixpoint py_split (sep : ascii) (s : string) : list string :=
  match s with
  | EmptyString => [EmptyString]
  | String c s' =>
      if Ascii.eqb c sep then EmptyString :: py_split sep s'
      else match py_split sep s' with
           | h :: t => String c h :: t
           | [] => [String c EmptyString]
           end
  end.

(** [s.startswith(tuple(prefixes))]. *)
Definition py_startswith (s : string) (prefixes : list string) : bool :=
  existsb (fun p => String.prefix p s) prefixes.

(** [s.startswith('/')] and [s.endswith('/')]. *)
Definition starts_with_sep (s : string) : bool :=
  match s with
  | String "/"%char _ => true
  | _ => false
  end.

Fixpoint ends_with_sep (s : string) : bool :=
  match s with
  | EmptyString => false
  | String c EmptyString => if Ascii.eqb c "/"%char then true else false
  | String _ s' => ends_with_sep s'
  end.

(** One round of the loop of [posixpath.join]. *)
Definition join_step (path b : string) : string :=
  if starts_with_sep b then b
  else if (String.eqb path "" || ends_with_sep path)%bool then (path ++ b)%string
  else (path ++ "/" ++ b)%string.

(** [os.path.join(a, *p)] (POSIX). *)
Definition os_path_join (a : string) (p : list string) : string :=
  fold_left join_step p a.

(** ** Configuration ([args]) *)

Record Args : Type := {
  save_path : string;
  ccd_model : string;
  labelled_data : Z;
  classes : Z;
  n_stage : Z;
  set_k_half : bool;
  epochs : Z;
  fit_gmm_every_n_epoch : Z;
  eval_every_n_epoch : Z;
  contrast_unlabel_only : bool;
  sup_con_weight : list R;
  n_views : nat;
  temperature : R
}.

(** ** Checkpoint file names *)

(** [self.model_path = os.path.join(args.save_path, 'model')] (line 40). *)
Definition model_path (args : Args) : string :=
  os_path_join (save_path args) ["model"%string].

(** The common stem [f'{args.ccd_model}_stage_{i}'] of every file name. *)
Definition stage_stem (args : Args) (i : Z) : string :=
  (ccd_model args ++ "_stage_" ++ py_str i)%string.

(** File names written by [fit] (lines 146, 147, 150, 151). *)
Definition latest_model_name (args : Args) (i : Z) : string :=
  (stage_stem args i ++ "_model.pt")%string.
Definition latest_proj_head_name (args : Args) (i : Z) : string :=
  (stage_stem args i ++ "_model_proj_head.pt")%string.
Definition best_model_name (args : Args) (i : Z) : string :=
  (stage_stem args i ++ "_model_best.pt")%string.
Definition best_proj_head_name (args : Args) (i : Z) : string :=
  (stage_stem args i ++ "_proj_head_best.pt")%string.

(** Paths written by [fit] at stage [i]:
    [os.path.join(self.model_path, name)]. *)
Definition latest_model_path (args : Args) (i : Z) : string :=
  os_path_join (model_path args) [latest_model_name args i].
Definition latest_proj_head_path (args : Args) (i : Z) : string :=
  os_path_join (model_path args) [latest_proj_head_name args i].
Definition best_model_path (args : Args) (i : Z) : string :=
  os_path_join (model_path args) [best_model_name args i].
Definition best_proj_head_path (args : Args) (i : Z) : string :=
  os_path_join (model_path args) [best_proj_head_name args i].

(** Paths read by [__init__] at stage [stage_i] (lines 34, 35):
    [os.path.join(args.save_path, 'model', f'..._stage_{stage_i - 1}_...')]. *)
Definition restore_model_path (args : Args) (stage_i : Z) : string :=
  os_path_join (save_path args)
    ["model"%string;
     (ccd_model args ++ "_stage_" ++ py_str (stage_i - 1) ++ "_model_best.pt")%string].
Definition restore_proj_head_path (args : Args) (stage_i : Z) : string :=
  os_path_join (save_path args)
    ["model"%string;
     (ccd_model args ++ "_stage_" ++ py_str (stage_i - 1) ++ "_proj_head_best.pt")%string].

(** The convention as the specification words it:
    [{save_path}/model/{model_name}_stage_{i}_{model|model_proj_head}[_best].pt]. *)
Inductive ckpt_kind : Type := KModel | KModelProjHead.

Definition kind_str (k : ckpt_kind) : string :=
  match k with
  | KModel => "model"
  | KModelProjHead => "model_proj_head"
  end.

Definition spec_convention_path (args : Args) (i : Z) (k : ckpt_kind) (best : bool) : string :=
  (save_path args ++ "/model/" ++ ccd_model args ++ "_stage_" ++ py_str i ++ "_"
     ++ kind_str k ++ (if best then "_best" else "") ++ ".pt")%string.

(** ** Component count K (lines 36, 37) *)

(** [K = int(labelled_data + stage_i * ((classes - labelled_data) // n_stage))],
    then [K //= 2] when [set_k_half]. *)
Definition compute_K (args : Args) (stage_i : Z) : result Z :=
  per_stage ← py_floordiv (classes args - labelled_data args) (n_stage args);
  let K := labelled_data args + stage_i * per_stage in
  Ok (if set_k_half args then K / 2 else K).

(** The formula as the specification words it: the product
    [stage_index * (total - labelled)] is divided by [n_stage]. *)
Definition spec_K (args : Args) (stage_i : Z) : Z :=
  let K := labelled_data args + (stage_i * (classes args - labelled_data args)) / n_stage args in
  if set_k_half args then K / 2 else K.

(** ** Tensors *)

(** A possibly non-finite float: [None] stands for NaN and the infinities. *)
Definition xreal : Type := option R.

(** A 2-D tensor, as the list of its rows. *)
Definition Mat : Type := list (list R).

(** An n-D tensor: its shape and its entries in row-major order. *)
Record Tensor : Type := { shape : list nat; data : list R }.

Definition xdiv (a b : R) : xreal :=
  if Req_dec_T b 0%R then None else Some (a / b)%R.

Definition xlog (a : R) : xreal :=
  if Rlt_dec 0%R a then Some (ln a) else None.

Definition xadd (a b : xreal) : xreal :=
  x ← a; y ← b; Some (x + y)%R.

Definition xmul (a b : xreal) : xreal :=
  x ← a; y ← b; Some (x * y)%R.

Definition Rsum (l : list R) : R := fold_right Rplus 0%R l.

(** [t.mean()] of a flattened tensor: NaN when it is empty. *)
Definition xmean (l : list R) : xreal := xdiv (Rsum l) (INR (length l)).

Definition dot (u v : list R) : R := Rsum (zip_with Rmult u v).

(** [torch.matmul(a, b.T)]. *)
Definition matmul_T (a b : Mat) : Mat :=
  map (fun u => map (fun v => dot u v) b) a.

(** [torch.max(row)] of a non-empty row. *)
Definition row_max (l : list R) : R :=
  match l with
  | [] => 0%R
  | x :: l' => fold_right Rmax x l'
  end.

(** [F.normalize(v, dim=-1)]: [v / max(||v||_2, 1e-12)]. *)
Definition l2_normalize (v : list R) : list R :=
  let n := Rmax (sqrt (Rsum (map (fun x => x * x)%R v))) (/ 10 ^ 12)%R in
  map (fun x => x / n)%R v.

(** The Euclidean norm of a row. *)
Definition l2_norm (v : list R) : R := sqrt (Rsum (map (fun x => x * x)%R v)).

(** Entries of [l] at the positions where [m] is true. *)
Fixpoint select_by {A} (m : list bool) (l : list A) : list A :=
  match m, l with
  | b :: m', x :: l' => if b then x :: select_by m' l' else select_by m' l'
  | _, _ => []
  end.

(** [t[m]] for a boolean mask over the first dimension. *)
Definition bool_index {A} (m : list bool) (t : list A) : result (list A) :=
  if (length m =? length t)%nat then Ok (select_by m t) else Raise IndexError.

Definition same_shape {A B} (m : list (list A)) (t : list (list B)) : bool :=
  (length m =? length t)%nat
  && forallb (fun p => (length p.1 =? length p.2)%nat) (zip m t).

(** [t[m]] for a 2-D boolean mask of the shape of [t]: the selected entries
    in row-major order. *)
Definition mat_bool_index {A} (m : list (list bool)) (t : list (list A)) : result (list A) :=
  if same_shape m t then Ok (concat (zip_with select_by m t)) else Raise IndexError.

Fixpoint chunks_of {A} (c r : nat) (l : list A) : list (list A) :=
  match r with
  | O => []
  | S r' => take c l :: chunks_of c r' (drop c l)
  end.

(** [flat.view(r, -1)]: the inferred dimension is ambiguous when [r = 0],
    and the element count must be a multiple of [r]. *)
Definition view_rows {A} (r : nat) (l : list A) : result (list (list A)) :=
  if (r =? 0)%nat then Raise RuntimeError
  else if (length l mod r =? 0)%nat then Ok (chunks_of (length l / r) r l)
  else Raise RuntimeError.

(** [torch.cat([a, b], dim=1)]. *)
Definition cat_dim1 {A} (a b : list (list A)) : result (list (list A)) :=
  if (length a =? length b)%nat then Ok (zip_with app a b) else Raise RuntimeError.

(** [t.chunk(2)] along dimension 0, unpacked into two names: an empty
    tensor gives two empty chunks, a single row gives one chunk only and
    the unpacking raises [ValueError]. *)
Definition chunk2 {A} (t : list A) : result (list A * list A) :=
  let n := length t in
  if (n =? 1)%nat then Raise ValueError
  else let c := ((n + 1) / 2)%nat in Ok (take c t, drop c t).

(** [torch.eye(n, dtype=torch.bool)]. *)
Definition eye_bool (n : nat) : list (list bool) :=
  map (fun i => map (fun j => Nat.eqb i j) (seq 0 n)) (seq 0 n).

(** [~m]. *)
Definition mat_not (m : list (list bool)) : list (list bool) := map (map negb) m.

(** ** InfoNCE pair constructor (lines 258-286) *)

(** [torch.arange(0.5 * n)]: the integers below the float bound. *)
Definition arange_half (n : nat) : list nat := seq 0 ((n + 1) / 2).

(** Lines 260-282 on the similarity matrix [similarity_matrix] of a batch of
    [length similarity_matrix] embeddings: the label matrix, the removal of
    the diagonal, the positives and the negatives.  The entries are only
    moved, so their type is left open. *)
Definition info_nce_pairs {A} (n_views : nat) (similarity_matrix : list (list A))
    : result (list (list A)) :=
  let b_ := arange_half (length similarity_matrix) in
  _ ← check (negb (n_views =? 0)%nat) RuntimeError;
  let labels := concat (replicate n_views b_) in
  let labels := map (fun li => map (fun lj => Nat.eqb lj li) labels) labels in
  let mask := eye_bool (length labels) in
  l ← mat_bool_index (mat_not mask) labels;
  labels' ← view_rows (length labels) l;
  s ← mat_bool_index (mat_not mask) similarity_matrix;
  similarity_matrix' ← view_rows (length similarity_matrix) s;
  p ← mat_bool_index labels' similarity_matrix';
  positives ← view_rows (length labels') p;
  n ← mat_bool_index (mat_not labels') similarity_matrix';
  negatives ← view_rows (length similarity_matrix') n;
  cat_dim1 positives negatives.

(** The cosine similarities of line 266 and 268. *)
Definition cosine_similarities (features : Mat) : Mat :=
  let features := map l2_normalize features in
  matmul_T features features.

Definition info_nce_logits (features : Mat) (args : Args) : result (Mat * list Z) :=
  logits ← info_nce_pairs (n_views args) (cosine_similarities features);
  let labels := replicate (length logits) 0 in
  Ok (map (map (fun x => x / temperature args)%R) logits, labels).

(** The row that holds the other view of the sample of row [i], among [2N]
    rows of two views. *)
Definition partner (N i : nat) : nat := ((i + N) mod (2 * N))%nat.

(** The [M x M] matrix with entries [f i j]. *)
Definition tabulate {A} (M : nat) (f : nat -> nat -> A) : list (list A) :=
  map (fun i => map (f i) (seq 0 M)) (seq 0 M).

(** Row [i] of the logits before scaling, on a matrix with entries [f i j]:
    the entry of the partner column, then the entries of the columns other
    than [i] and its partner. *)
Definition info_nce_row {A} (N : nat) (f : nat -> nat -> A) (i : nat) : list A :=
  f i (partner N i)
  :: map (f i)
       (List.filter (fun j => negb (j =? i)%nat && negb (j =? partner N i)%nat)
          (seq 0 (2 * N))).

(** [torch.nn.CrossEntropyLoss()(logits, targets)]: the mean over the rows
    of [log(sum_j exp(logits[i][j])) - logits[i][targets[i]]]; a target
    outside the columns is an error. *)
Definition cross_entropy_row (row : list R) (t : Z) : result R :=
  _ ← check (0 <=? t) IndexError;
  match row !! Z.to_nat t with
  | Some x => Ok (ln (Rsum (map exp row)) - x)%R
  | None => Raise IndexError
  end.

Definition cross_entropy (logits : Mat) (targets : list Z) : result xreal :=
  _ ← check (length logits =? length targets)%nat ValueError;
  rows ← mapM (fun p => cross_entropy_row p.1 p.2) (zip logits targets);
  Ok (xmean rows).

(** ** Supervised contrastive kernel (lines 166-255) *)

(** Default constructor arguments of [SupConLoss] (line 170). *)
Definition default_temperature : R := (7 / 100)%R.
Definition default_contrast_mode : string := "all".

(** [features[b, v]] of a tensor viewed as [[_, V, D]]. *)
Definition feature_at (V D : nat) (dat : list R) (b v : nat) : list R :=
  take D (drop ((b * V + v) * D) dat).

(** [torch.eye(B)] and [torch.eq(labels, labels.T).float()]. *)
Definition eye_mask (B : nat) : Mat :=
  map (fun i => map (fun j => if Nat.eqb i j then 1%R else 0%R) (seq 0 B)) (seq 0 B).

Definition label_mask (labels : list Z) : Mat :=
  map (fun li => map (fun lj => if Z.eqb li lj then 1%R else 0%R) labels) labels.

(** [mask.repeat(anchor_count, contrast_count)]. *)
Definition mat_repeat (m : Mat) (r c : nat) : Mat :=
  concat (replicate r (map (fun row => concat (replicate c row)) m)).

(** [torch.scatter(torch.ones_like(mask), 1, torch.arange(n).view(-1, 1), 0)]
    for a mask of [n] rows: entry [i] of row [i] is set to zero. *)
Definition logits_mask_of (m : Mat) : Mat :=
  imap (fun i row => <[i := 0%R]> (replicate (length row) 1%R)) m.

(** Entry-wise product of two tensors of one shape. *)
Definition mat_mul (a b : Mat) : Mat := zip_with (zip_with Rmult) a b.

(** The positive mask of lines 234-242: the tiled sample-equality mask with
    its diagonal zeroed. *)
Definition positive_mask (m : Mat) (anchor_count contrast_count : nat) : Mat :=
  let mask := mat_repeat m anchor_count contrast_count in
  mat_mul mask (logits_mask_of mask).

(** Lines 245-249 for one anchor row: [logits] is the stabilised row,
    [lmask] the row of [logits_mask], [pmask] the row of the positive mask. *)
Definition mean_log_prob_pos_row (logits lmask pmask : list R) : xreal :=
  let exp_logits := zip_with Rmult (map exp logits) lmask in
  lse ← xlog (Rsum exp_logits);
  let log_prob := map (fun x => x - lse)%R logits in
  xdiv (Rsum (zip_with Rmult pmask log_prob)) (Rsum pmask).

(** The column that holds another view of the sample of row [i]. *)
Definition other_view (B i : nat) : nat :=
  if (i <? B)%nat then (i + B)%nat else (i - B)%nat.

(** The sample-equality mask of lines 201-211. *)
Definition sample_mask (batch_size : nat) (labels : option (list Z)) (mask : option Mat)
    : result Mat :=
  match labels, mask with
  | Some _, Some _ => Raise ValueError
  | None, None => Ok (eye_mask batch_size)
  | Some l, None =>
      if (length l =? batch_size)%nat then Ok (label_mask l) else Raise ValueError
  | None, Some m => Ok m
  end.

(** [features.view(features.shape[0], features.shape[1], -1)] (line 198),
    returning the last dimension: with more than three dimensions the
    inferred size is ambiguous when [B * V = 0]. *)
Definition view_last_dim (features : Tensor) : result nat :=
  let B := nth 0 (shape features) 0%nat in
  let V := nth 1 (shape features) 0%nat in
  if (3 <? length (shape features))%nat then
    if (B * V =? 0)%nat then Raise RuntimeError
    else Ok (length (data features) / (B * V))%nat
  else Ok (nth 2 (shape features) 0%nat).

(** [SupConLoss(temperature, contrast_mode, base_temperature).forward(features, labels, mask)].
    [labels] is the flattened label tensor.  A [mask] is documented to be
    of shape [[bsz, bsz]]; for another shape some tensor operation of lines
    234-249 fails, which is rendered here as one [RuntimeError] at line 234. *)
Definition SupConLoss_forward (temperature : R) (contrast_mode : string)
    (base_temperature : R) (features : Tensor)
    (labels : option (list Z)) (mask : option Mat) : result xreal :=
  _ ← check (3 <=? length (shape features))%nat ValueError;
  D ← view_last_dim features;
  let batch_size := nth 0 (shape features) 0%nat in
  mask ← sample_mask batch_size labels mask;
  let contrast_count := nth 1 (shape features) 0%nat in
  (* torch.cat of the empty tuple that unbind returns for zero views *)
  _ ← check (negb (contrast_count =? 0)%nat) RuntimeError;
  let contrast_feature :=
    flat_map (fun v => map (fun b => feature_at contrast_count D (data features) b v)
                           (seq 0 batch_size))
             (seq 0 contrast_count) in
  '(anchor_feature, anchor_count) ←
    (if String.eqb contrast_mode "one" then
       Ok (map (fun b => feature_at contrast_count D (data features) b 0) (seq 0 batch_size),
           1%nat)
     else if String.eqb contrast_mode "all" then Ok (contrast_feature, contrast_count)
     else Raise ValueError);
  let anchor_dot_contrast : option Mat :=
    if Req_dec_T temperature 0%R then None
    else Some (map (map (fun x => x / temperature)%R)
                   (matmul_T anchor_feature contrast_feature)) in
  (* torch.max over a dimension of size zero *)
  _ ← check (negb (batch_size =? 0)%nat) IndexError;
  let logits : option Mat :=
    (fun adc => map (fun row => map (fun x => x - row_max row)%R row) adc)
      <$> anchor_dot_contrast in
  _ ← check (same_shape mask (replicate batch_size (replicate batch_size 0%R))) RuntimeError;
  let logits_mask := logits_mask_of (mat_repeat mask anchor_count contrast_count) in
  let mask'' := positive_mask mask anchor_count contrast_count in
  let mean_log_prob_pos : option (list R) :=
    lg ← logits;
    mapM (fun p => mean_log_prob_pos_row p.1.1 p.1.2 p.2)
         (zip (zip lg logits_mask) mask'') in
  ratio ← (if Req_dec_T base_temperature 0%R then Raise ZeroDivisionError
           else Ok (temperature / base_temperature)%R);
  let loss : option (list R) :=
    (fun rows => map (fun m => - ratio * m)%R rows) <$> mean_log_prob_pos in
  Ok (loss ≫= xmean).

(** ** Which parameters are finetuned (lines 321-333 of [get_vit_model]) *)

Section Finetune.
(** [int(s)] on a string is a parameter of the embedding. *)
Variable py_int : string -> result Z.

(** The parameters of the backbone are given in the order of
    [named_parameters()], each by its name and its [requires_grad]. *)

(** Lines 324-326, for [args.freeze]. *)
Definition freeze_pass (freeze : list string) (params : list (string * bool))
    : list (string * bool) :=
  map (fun p => (p.1, if py_startswith p.1 freeze then false else p.2)) params.

(** One iteration of the loop of lines 329-333, for [args.grad_from_block]. *)
Definition unfreeze_param (grad_from_block : Z) (p : string * bool)
    : result (string * bool) :=
  if py_contains "block" p.1 then
    s ← py_index (py_split "."%char p.1) 1;
    block_num ← py_int s;
    Ok (p.1, if grad_from_block <=? block_num then true else p.2)
  else Ok p.

(** Lines 324-333. *)
Definition finetune_selection (freeze : list string) (grad_from_block : Z)
    (params : list (string * bool)) : result (list (string * bool)) :=
  mapM (unfreeze_param grad_from_block) (freeze_pass freeze params).

End Finetune.

(** ** Collaborators *)

(** The external collaborators of the trainer, at their interface only:
    the backbone ([self.model]), the projection head, the mixture prompt
    ([GMMPrompt]), the optimiser with its schedule, and the k-means
    evaluation. *)
Class Collab : Type := {
  backbone : Type;
  head : Type;
  gmm : Type;
  ctx : Type;
  image : Type;
  optim : Type;
  dataset : Type;
  get_vit_model : Args -> backbone * head;
  GMMPrompt : Args -> Z -> gmm;
  gmm_fit : gmm -> Args -> backbone -> dataset -> Z -> gmm;
  gmm_predict : gmm -> Mat -> ctx;
  (* [self.model(images, task_id, res)['x'][:, 0]] *)
  model_forward : backbone -> list image -> Z -> option ctx -> Mat;
  head_forward : head -> Mat -> Mat;
  (* [SGD(...)] together with [CosineAnnealingLR(...)] *)
  SGD : Args -> head -> backbone -> optim;
  (* [zero_grad(); loss.backward(); step()] for the loss of one batch *)
  optimizer_step :
    Args -> Z -> optim -> backbone -> head -> list image -> list Z -> list bool ->
    option ctx -> optim * backbone * head;
  scheduler_step : optim -> optim;
  (* the second component of [eval_kmeans(...)] *)
  eval_kmeans : Args -> backbone -> gmm -> dataset -> Z -> Z -> Q
}.

Section Trainer.
Context `{Collab}.

(** A batch of the contrastive loader: the views, the class labels, and
    [mask_lab[:, 0].bool()] (lines 73-76). *)
Record Batch : Type := {
  images : list (list image);
  class_labels : list Z;
  mask_lab : list bool
}.

(** [train_loader]: the ['default'] loader and the batches that the
    ['contrast'] loader yields in each epoch. *)
Record TrainLoader : Type := {
  tl_default : dataset;
  tl_contrast : Z -> list Batch
}.

(** What [torch.save] stores. *)
Inductive blob : Type :=
| BModel (m : backbone)
| BHead (h : head).

(** What one batch step computes (lines 77-117). *)
Record BatchOut : Type := {
  bo_images : list image;
  bo_res : option ctx;
  bo_output : Mat;
  bo_features : Mat;
  bo_con_feats : Mat;
  bo_contrastive_loss : xreal;
  bo_sup_con_loss : xreal;
  bo_loss : xreal
}.

(** The trace of a run.  Every event carries the epoch in which it happens;
    a batch event also carries the backbone, the head and the mixture
    prompt with which the batch is processed. *)
Inductive Event : Type :=
| EvGmmFit (epoch : Z)
| EvBatch (epoch : Z) (model : backbone) (proj : head) (g : gmm) (o : BatchOut)
| EvEval (epoch : Z) (old_acc_test : Q)
| EvSave (epoch : Z) (path : string) (b : blob).

(** [torch.cat(images, dim=0)]. *)
Definition cat_images (views : list (list image)) : result (list image) :=
  _ ← check (negb (length views =? 0)%nat) RuntimeError;
  Ok (concat views).

(** [torch.cat([f1.unsqueeze(1), f2.unsqueeze(1)], dim=1)] for two
    tensors of shape [[L, D]]. *)
Definition stack_views (D : nat) (f1 f2 : Mat) : Tensor :=
  {| shape := [length f1; 2%nat; D]; data := concat (zip_with app f1 f2) |}.

Definition feat_dim (features : Mat) : nat :=
  match features with
  | [] => 0%nat
  | r :: _ => length r
  end.

(** Lines 96-102. *)
Definition select_con_feats (args : Args) (features : Mat) (mask_lab : list bool)
    : result Mat :=
  if contrast_unlabel_only args then
    '(f1, f2) ← chunk2 features;
    f1 ← bool_index (map negb mask_lab) f1;
    f2 ← bool_index (map negb mask_lab) f2;
    Ok (f1 ++ f2)
  else Ok features.

(** Lines 109-112. *)
Definition sup_con_branch (features : Mat) (class_labels : list Z) (mask_lab : list bool)
    : result xreal :=
  '(f1, f2) ← chunk2 features;
  f1 ← bool_index mask_lab f1;
  f2 ← bool_index mask_lab f2;
  let sup_con_feats := stack_views (feat_dim features) f1 f2 in
  sup_con_labels ← bool_index mask_lab class_labels;
  SupConLoss_forward default_temperature default_contrast_mode default_temperature
    sup_con_feats (Some sup_con_labels) None.

(** Lines 77-117 of the batch loop, up to the total loss. *)
Definition batch_forward (args : Args) (stage_i epoch : Z) (model : backbone)
    (proj : head) (g : gmm) (res : option ctx) (batch : Batch) : result BatchOut :=
  imgs ← cat_images (images batch);
  let res :=
    if fit_gmm_every_n_epoch args <=? epoch then
      let batch_feats := model_forward model imgs stage_i None in
      Some (gmm_predict g batch_feats)
    else res in
  let output := model_forward model imgs stage_i res in
  let features := head_forward proj output in
  let features := map l2_normalize features in
  con_feats ← select_con_feats args features (mask_lab batch);
  '(contrastive_logits, contrastive_labels) ← info_nce_logits con_feats args;
  contrastive_loss ← cross_entropy contrastive_logits contrastive_labels;
  w ← py_index (sup_con_weight args) stage_i;
  sup_con_loss ←
    (if Rlt_dec 0%R w then sup_con_branch features (class_labels batch) (mask_lab batch)
     else Ok (Some 0%R));
  let loss := xadd (xmul (Some (1 - w)%R) contrastive_loss) (xmul (Some w) sup_con_loss) in
  Ok {| bo_images := imgs; bo_res := res; bo_output := output; bo_features := features;
        bo_con_feats := con_feats; bo_contrastive_loss := contrastive_loss;
        bo_sup_con_loss := sup_con_loss; bo_loss := loss |}.

(** ** The trainer monad *)

(** The state that [fit] threads: the mutable attributes of [self], the
    locals [res] and [best_test_acc_lab], the files on disk, and the trace
    of what has been done. *)
Record FitState : Type := {
  st_model : backbone;
  st_head : head;
  st_gmm : gmm;
  st_optim : optim;
  st_res : option ctx;
  st_best : Q;
  st_fs : gmap string blob;
  st_trace : list Event
}.

Definition Trainer (A : Type) : Type := FitState -> FitState * result A.

#[global] Instance trainer_ret : MRet Trainer := fun A a st => (st, Ok a).
#[global] Instance trainer_bind : MBind Trainer := fun A B f m st =>
  match m st with
  | (st', Ok a) => f a st'
  | (st', Raise e) => (st', Raise e)
  end.

Definition lift {A} (r : result A) : Trainer A := fun st => (st, r).
Definition get : Trainer FitState := fun st => (st, Ok st).
Definition modify (f : FitState -> FitState) : Trainer unit := fun st => (f st, Ok tt).

Definition emit (e : Event) : Trainer unit :=
  modify (fun st =>
    {| st_model := st_model st; st_head := st_head st; st_gmm := st_gmm st;
       st_optim := st_optim st; st_res := st_res st; st_best := st_best st;
       st_fs := st_fs st; st_trace := st_trace st ++ [e] |}).

(** [torch.save(b, path)], called in epoch [epoch]. *)
Definition torch_save (epoch : Z) (b : blob) (path : string) : Trainer unit :=
  modify (fun st =>
    {| st_model := st_model st; st_head := st_head st; st_gmm := st_gmm st;
       st_optim := st_optim st; st_res := st_res st; st_best := st_best st;
       st_fs := <[path := b]> (st_fs st); st_trace := st_trace st ++ [EvSave epoch path b] |}).

Fixpoint for_each {A} (l : list A) (body : A -> Trainer unit) : Trainer unit :=
  match l with
  | [] => mret tt
  | x :: l' => _ ← body x; for_each l' body
  end.

(** ** The stage trainer: [fit] (lines 42-154) *)

(** One batch of the loop: lines 73-127.  The running meters of lines
    119-124 only feed the progress display and are left out. *)
Definition train_batch (args : Args) (stage_i epoch : Z) (batch : Batch) : Trainer unit :=
  st ← get;
  o ← lift (batch_forward args stage_i epoch (st_model st) (st_head st) (st_gmm st)
              (st_res st) batch);
  let '(opt, model, proj) :=
    optimizer_step args stage_i (st_optim st) (st_model st) (st_head st)
      (bo_images o) (class_labels batch) (mask_lab batch) (bo_res o) in
  modify (fun st =>
    {| st_model := model; st_head := proj; st_gmm := st_gmm st;
       st_optim := opt; st_res := bo_res o; st_best := st_best st;
       st_fs := st_fs st;
       st_trace := st_trace st ++ [EvBatch epoch (st_model st) (st_head st) (st_gmm st) o] |}).

(** The refit gate: lines 68-69. *)
Definition refit_gate (args : Args) (stage_i epoch : Z) (train_loader : TrainLoader)
    : Trainer unit :=
  r ← lift (py_mod epoch (fit_gmm_every_n_epoch args));
  if r =? 0 then
    _ ← modify (fun st =>
      {| st_model := st_model st; st_head := st_head st;
         st_gmm := gmm_fit (st_gmm st) args (st_model st) (tl_default train_loader) stage_i;
         st_optim := st_optim st; st_res := st_res st; st_best := st_best st;
         st_fs := st_fs st; st_trace := st_trace st |});
    emit (EvGmmFit epoch)
  else mret tt.

(** The body of the evaluation gate: lines 133-152. *)
Definition eval_gate (args : Args) (stage_i epoch : Z) (val_loader : dataset)
    : Trainer unit :=
  st ← get;
  let old_acc_test :=
    eval_kmeans args (st_model st) (st_gmm st) val_loader stage_i epoch in
  _ ← emit (EvEval epoch old_acc_test);
  _ ← torch_save epoch (BModel (st_model st)) (latest_model_path args stage_i);
  _ ← torch_save epoch (BHead (st_head st)) (latest_proj_head_path args stage_i);
  if Qlt_le_dec (st_best st) old_acc_test then
    _ ← torch_save epoch (BModel (st_model st)) (best_model_path args stage_i);
    _ ← torch_save epoch (BHead (st_head st)) (best_proj_head_path args stage_i);
    modify (fun st =>
      {| st_model := st_model st; st_head := st_head st; st_gmm := st_gmm st;
         st_optim := st_optim st; st_res := st_res st; st_best := old_acc_test;
         st_fs := st_fs st; st_trace := st_trace st |})
  else mret tt.

(** One iteration of the epoch loop: lines 62-152. *)
Definition fit_epoch (args : Args) (stage_i : Z) (train_loader : TrainLoader)
    (val_loader : dataset) (epoch : Z) : Trainer unit :=
  _ ← refit_gate args stage_i epoch train_loader;
  _ ← for_each (tl_contrast train_loader epoch) (train_batch args stage_i epoch);
  _ ← modify (fun st =>
    {| st_model := st_model st; st_head := st_head st; st_gmm := st_gmm st;
       st_optim := scheduler_step (st_optim st); st_res := st_res st;
       st_best := st_best st; st_fs := st_fs st; st_trace := st_trace st |});
  r ← lift (py_mod epoch (eval_every_n_epoch args));
  if r =? 0 then eval_gate args stage_i epoch val_loader else mret tt.

(** The epoch loop over a list of epochs. *)
Definition fit_loop (args : Args) (stage_i : Z) (train_loader : TrainLoader)
    (val_loader : dataset) (es : list Z) : Trainer unit :=
  for_each es (fit_epoch args stage_i train_loader val_loader).

(** A [PromptCCD_Model] instance. *)
Record PromptCCD_Model : Type := {
  self_args : Args;
  self_stage_i : Z;
  self_model : backbone;
  self_projection_head : head;
  self_gmm_prompt : gmm
}.

(** The state in which the epoch loop starts (lines 43-58), on the disk [fs]. *)
Definition fit_init (self : PromptCCD_Model) (fs : gmap string blob) : FitState :=
  {| st_model := self_model self; st_head := self_projection_head self;
     st_gmm := self_gmm_prompt self;
     st_optim := SGD (self_args self) (self_projection_head self) (self_model self);
     st_res := None; st_best := 0%Q; st_fs := fs; st_trace := [] |}.

(** [self.fit(train_loader, val_loader)] on the disk [fs]: the final state
    and either the returned pair or the exception. *)
Definition fit (self : PromptCCD_Model) (train_loader : TrainLoader) (val_loader : dataset)
    (fs : gmap string blob) : FitState * result (backbone * head) :=
  (_ ← fit_loop (self_args self) (self_stage_i self) train_loader val_loader
         (py_range (epochs (self_args self)));
   st ← get;
   mret (st_model st, st_head st)) (fit_init self fs).

(** ** The stage lifecycle manager: [__init__] (lines 23-40) *)

(** [torch.load(path)]. *)
Definition torch_load (fs : gmap string blob) (path : string) : result blob :=
  match fs !! path with
  | Some b => Ok b
  | None => Raise FileNotFoundError
  end.

(** [m.load_state_dict(b)]: the stored state must be that of a backbone,
    respectively of a projection head. *)
Definition load_model_state (b : blob) : result backbone :=
  match b with
  | BModel m => Ok m
  | BHead _ => Raise RuntimeError
  end.

Definition load_head_state (b : blob) : result head :=
  match b with
  | BHead h => Ok h
  | BModel _ => Raise RuntimeError
  end.

Definition PromptCCD_Model_init (args : Args) (model : option (backbone * head))
    (stage_i : Z) (fs : gmap string blob) : result PromptCCD_Model :=
  match model with
  | None =>
      let '(m, h) := get_vit_model args in
      Ok {| self_args := args; self_stage_i := stage_i; self_model := m;
            self_projection_head := h;
            self_gmm_prompt := GMMPrompt args (labelled_data args) |}
  | Some _ =>
      b ← torch_load fs (restore_model_path args stage_i);
      m ← load_model_state b;
      b ← torch_load fs (restore_proj_head_path args stage_i);
      h ← load_head_state b;
      K ← compute_K args stage_i;
      Ok {| self_args := args; self_stage_i := stage_i; self_model := m;
            self_projection_head := h; self_gmm_prompt := GMMPrompt args K |}
  end.

(** ** Observations on a trace *)

(** The paths of the [torch.save] calls, in order. *)
Definition saved_paths (tr : list Event) : list string :=
  omap (fun e => match e with EvSave _ p _ => Some p | _ => None end) tr.


End Trainer.

(** ** The checkpoint view of a run

    The accuracy tracker, the disk and the evaluation and save events are
    touched by the evaluation gate only.  [gate_step] is what one gate does
    to them, as a function of the epoch, the accuracy returned and the
    parameters saved. *)
Section CheckpointView.
Context `{Collab}.

Record Gate : Type := {
  g_epoch : Z;
  g_acc : Q;
  g_model : backbone;
  g_head : head
}.

Record CkptView : Type := {
  cv_best : Q;
  cv_fs : gmap string blob;
  cv_events : list Event
}.

Definition is_ckpt_event (e : Event) : bool :=
  match e with
  | EvEval _ _ | EvSave _ _ _ => true
  | _ => false
  end.

Definition ckpt_view (st : FitState) : CkptView :=
  {| cv_best := st_best st; cv_fs := st_fs st;
     cv_events := List.filter is_ckpt_event (st_trace st) |}.

Definition gate_step (args : Args) (stage_i : Z) (v : CkptView) (g : Gate) : CkptView :=
  let e := g_epoch g in
  let latest :=
    [EvEval e (g_acc g);
     EvSave e (latest_model_path args stage_i) (BModel (g_model g));
     EvSave e (latest_proj_head_path args stage_i) (BHead (g_head g))] in
  let fs := <[latest_proj_head_path args stage_i := BHead (g_head g)]>
              (<[latest_model_path args stage_i := BModel (g_model g)]> (cv_fs v)) in
  if Qlt_le_dec (cv_best v) (g_acc g) then
    {| cv_best := g_acc g;
       cv_fs := <[best_proj_head_path args stage_i := BHead (g_head g)]>
                  (<[best_model_path args stage_i := BModel (g_model g)]> fs);
       cv_events := cv_events v ++ latest
         ++ [EvSave e (best_model_path args stage_i) (BModel (g_model g));
             EvSave e (best_proj_head_path args stage_i) (BHead (g_head g))] |}
  else
    {| cv_best := cv_best v; cv_fs := fs; cv_events := cv_events v ++ latest |}.

(** Gates in strictly increasing epochs, none before [lo]. *)
Fixpoint ascending_from (lo : Z) (gs : list Gate) : Prop :=
  match gs with
  | [] => True
  | g :: gs' => lo <= g_epoch g /\ ascending_from (g_epoch g + 1) gs'
  end.

(** A batch event of epoch [e] records a batch of the loader of that epoch
    and the result of its batch step, entered with some context [res],
    which is [None] as long as [e] is below [fit_gmm_every_n_epoch]; a refit
    event happens in an epoch that is a multiple of [fit_gmm_every_n_epoch]. *)
Definition batch_event_ok (args : Args) (stage_i : Z) (train_loader : TrainLoader)
    (ev : Event) : Prop :=
  match ev with
  | EvBatch e m h g o =>
      exists res batch,
        batch ∈ tl_contrast train_loader e
        /\ batch_forward args stage_i e m h g res batch = Ok o
        /\ (e < fit_gmm_every_n_epoch args -> res = None)
  | EvGmmFit e =>
      fit_gmm_every_n_epoch args <> 0 /\ e `mod` fit_gmm_every_n_epoch args = 0
  | _ => True
  end.

(** The epoch of an event. *)
Definition event_epoch (e : Event) : Z :=
  match e with
  | EvGmmFit e | EvBatch e _ _ _ _ | EvEval e _ | EvSave e _ _ => e
  end.

(** What holds of a view reached from the disk [fs0] by gates in increasing
    epochs below [lo]. *)
Record gate_inv (args : Args) (stage_i : Z) (fs0 : gmap string blob) (lo : Z)
    (v : CkptView) : Prop := {
  gi_epochs : forall ev, ev ∈ cv_events v -> event_epoch ev < lo;
  gi_upper : forall e a, EvEval e a ∈ cv_events v -> (a <= cv_best v)%Q;
  gi_nonneg : (0 <= cv_best v)%Q;
  gi_attained : cv_best v = 0%Q \/ exists e, EvEval e (cv_best v) ∈ cv_events v;
  gi_best : forall e a p,
    EvEval e a ∈ cv_events v ->
    p = best_model_path args stage_i \/ p = best_proj_head_path args stage_i ->
    ((exists b, EvSave e p b ∈ cv_events v)
     <-> (0 < a)%Q
         /\ forall e' a', EvEval e' a' ∈ cv_events v -> e' < e -> (a' < a)%Q);
  gi_saves : forall e p b,
    EvSave e p b ∈ cv_events v ->
    p ∈ [latest_model_path args stage_i; latest_proj_head_path args stage_i;
         best_model_path args stage_i; best_proj_head_path args stage_i]
    /\ exists a, EvEval e a ∈ cv_events v;
  gi_latest : forall e a,
    EvEval e a ∈ cv_events v ->
    (exists b, EvSave e (latest_model_path args stage_i) b ∈ cv_events v)
    /\ (exists b, EvSave e (latest_proj_head_path args stage_i) b ∈ cv_events v);
  gi_fs : forall p,
    (cv_fs v !! p = fs0 !! p /\ forall e b, EvSave e p b ∉ cv_events v)
    \/ (exists e b, EvSave e p b ∈ cv_events v /\ cv_fs v !! p = Some b)
}.

Definition is_batch_event (ev : Event) : bool :=
  match ev with
  | EvBatch _ _ _ _ _ => true
  | _ => false
  end.

(** The batch events of epoch [e] in a trace. *)
Definition batch_events_of (e : Z) (tr : list Event) : list Event :=
  List.filter (fun ev => is_batch_event ev && (event_epoch ev =? e)) tr.

(** The schedule up to epoch [E]. *)
Definition schedule_upto (args : Args) (train_loader : TrainLoader) (E : Z)
    (tr : list Event) : Prop :=
  (forall ev, ev ∈ tr -> 0 <= event_epoch ev < E)
  /\ forall e, 0 <= e < E ->
       (EvGmmFit e ∈ tr <-> e `mod` fit_gmm_every_n_epoch args = 0)
       /\ ((exists a, EvEval e a ∈ tr) <-> e `mod` eval_every_n_epoch args = 0)
       /\ length (batch_events_of e tr) = length (tl_contrast train_loader e).

(** When the tracker is above 0, the best files hold the parameters that
    were saved at a gate whose accuracy is the tracker. *)
Definition best_content (args : Args) (stage_i : Z) (v : CkptView) : Prop :=
  (0 < cv_best v)%Q ->
  exists e m h,
    EvEval e (cv_best v) ∈ cv_events v
    /\ EvSave e (latest_model_path args stage_i) (BModel m) ∈ cv_events v
    /\ EvSave e (latest_proj_head_path args stage_i) (BHead h) ∈ cv_events v
    /\ EvSave e (best_model_path args stage_i) (BModel m) ∈ cv_events v
    /\ EvSave e (best_proj_head_path args stage_i) (BHead h) ∈ cv_events v
    /\ cv_fs v !! best_model_path args stage_i = Some (BModel m)
    /\ cv_fs v !! best_proj_head_path args stage_i = Some (BHead h).

End CheckpointView.

(** ** A small instance of the collaborators

    Images are numbers, the backbone maps an image to a one-entry feature
    row, the mixture prompt is its component count, and the validation set
    is the list of the accuracies that the evaluation returns epoch by
    epoch.  It serves to run the trainer on concrete inputs. *)
#[local] Instance demo_collab : Collab := {|
  backbone := nat;
  head := nat;
  gmm := Z;
  ctx := nat;
  image := Z;
  optim := nat;
  dataset := list Q;
  get_vit_model := fun _ => (0%nat, 0%nat);
  GMMPrompt := fun _ K => K;
  gmm_fit := fun g _ _ _ _ => g;
  gmm_predict := fun _ feats => length feats;
  model_forward := fun _ imgs _ _ => map (fun z => [IZR z]) imgs;
  head_forward := fun _ x => x;
  SGD := fun _ _ _ => 0%nat;
  optimizer_step := fun _ _ o m h _ _ _ _ => (S o, S m, S h);
  scheduler_step := fun o => o;
  eval_kmeans := fun _ _ _ val _ epoch => nth (Z.to_nat epoch) val 0%Q
|}.

Definition demo_args : Args :=
  {| save_path := "out"; ccd_model := "promptccd"; labelled_data := 50; classes := 100;
     n_stage := 5; set_k_half := false; epochs := 5; fit_gmm_every_n_epoch := 2;
     eval_every_n_epoch := 1; contrast_unlabel_only := true;
     sup_con_weight := [0%R; (35 / 100)%R]; n_views := 2; temperature := 1%R |}.


(** The same configuration with three stages: 50 is not a multiple of 3. *)
Definition demo_args_3 : Args :=
  {| save_path := "out"; ccd_model := "promptccd"; labelled_data := 50; classes := 100;
     n_stage := 3; set_k_half := false; epochs := 5; fit_gmm_every_n_epoch := 2;
     eval_every_n_epoch := 1; contrast_unlabel_only := true;
     sup_con_weight := [0%R; (35 / 100)%R]; n_views := 2; temperature := 1%R |}.

Definition demo_self (args : Args) (stage_i : Z) : PromptCCD_Model :=
  {| self_args := args; self_stage_i := stage_i; self_model := 0%nat;
     self_projection_head := 0%nat; self_gmm_prompt := 50 |}.

(** A training set without batches. *)
Definition demo_loader : TrainLoader :=
  {| tl_default := []; tl_contrast := fun _ => [] |}.

(** A batch of two unlabelled samples in two views, and a training set
    that yields it once in every epoch. *)
Definition demo_batch : Batch :=
  {| images := [[1; 2]; [3; 4]]; class_labels := [0; 1]; mask_lab := [false; false] |}.

Definition demo_batch_loader : TrainLoader :=
  {| tl_default := []; tl_contrast := fun _ => [demo_batch] |}.

(** The sample configuration with other numbers of epochs and other
    periods. *)
Definition demo_args_with (n_epochs refit_period eval_period : Z) : Args :=
  {| save_path := "out"; ccd_model := "promptccd"; labelled_data := 50; classes := 100;
     n_stage := 5; set_k_half := false; epochs := n_epochs;
     fit_gmm_every_n_epoch := refit_period; eval_every_n_epoch := eval_period;
     contrast_unlabel_only := true;
     sup_con_weight := [0%R; (35 / 100)%R]; n_views := 2; temperature := 1%R |}.


(** Four parameters of a backbone, all trainable. *)
Definition demo_params : list (string * bool) :=
  [("cls_token", true); ("blocks.10.attn.qkv.weight", true);
   ("blocks.11.attn.qkv.weight", true); ("norm.weight", true)]%string.

(** [int(s)] on strings of decimal digits with an optional minus sign. *)
Definition demo_int (s : string) : result Z :=
  match NilZero.int_of_string s with
  | Some d => Ok (Z.of_int d)
  | None => Raise ValueError
  end.

(** * Properties *)

(** ** Results and the trainer monad *)

Lemma result_bind_Ok {A B} (m : result A) (f : A -> result B) (b : B) :
  m ≫= f = Ok b -> exists a, m = Ok a /\ f a = Ok b.
Proof. destruct m as [a|e]; simpl; [eauto | discriminate]. Qed.

Lemma check_Ok (b : bool) (e : exn) : check b e = Ok tt -> b = true.
Proof. destruct b; [reflexivity | discriminate]. Qed.

Lemma check_true (b : bool) (e : exn) : b = true -> check b e = Ok tt.
Proof. intros ->. reflexivity. Qed.

(** ** Component count *)

Section ComponentCount.
Context `{Collab}.

Lemma compute_K_eq (args : Args) (stage_i : Z) :
  n_stage args <> 0 ->
  compute_K args stage_i =
  Ok (let K := labelled_data args
               + stage_i * ((classes args - labelled_data args) / n_stage args) in
      if set_k_half args then K / 2 else K).
Proof.
  intros Hn. unfold compute_K, py_floordiv.
  destruct (Z.eqb_spec (n_stage args) 0) as [E|_]; [contradiction | reflexivity].
Qed.

Lemma init_uses_compute_K (args : Args) (prev : backbone * head) (stage_i : Z)
    (fs : gmap string blob) (self : PromptCCD_Model) :
  PromptCCD_Model_init args (Some prev) stage_i fs = Ok self ->
  exists K, compute_K args stage_i = Ok K /\ self_gmm_prompt self = GMMPrompt args K.
Proof.
  unfold PromptCCD_Model_init. intros Hinit.
  do 4 (apply result_bind_Ok in Hinit as (? & _ & Hinit)).
  apply result_bind_Ok in Hinit as (K & HK & Hinit).
  injection Hinit as <-. exists K. split; [exact HK | reflexivity].
Qed.

(** C1 (as the code has it).  When a previous model exists and [n_stage]
    is not zero, the component count is
    [K = labelled_data + stage_i * ((classes - labelled_data) // n_stage)]:
    the floor division is applied to the per-stage increment, before the
    multiplication by the stage index; [K] is halved by floor division when
    [set_k_half] is set, and the mixture prompt of the new stage is built
    with this [K].  The value coincides with the formula of the
    specification whenever [n_stage] divides [classes - labelled_data]; for
    [labelled_data = 50], [classes = 100], [n_stage = 5], [stage_i = 2] it
    is 70, and 35 with [set_k_half]. *)
Theorem C1_component_count (args : Args) (stage_i : Z) :
  n_stage args <> 0 ->
  compute_K args stage_i =
    Ok (let K := labelled_data args
                 + stage_i * ((classes args - labelled_data args) / n_stage args) in
        if set_k_half args then K / 2 else K)
  /\ (forall prev fs self,
        PromptCCD_Model_init args (Some prev) stage_i fs = Ok self ->
        exists K, compute_K args stage_i = Ok K /\ self_gmm_prompt self = GMMPrompt args K)
  /\ ((n_stage args | classes args - labelled_data args) ->
        compute_K args stage_i = Ok (spec_K args stage_i))
  /\ (labelled_data args = 50 -> classes args = 100 -> n_stage args = 5 -> stage_i = 2 ->
        compute_K args stage_i = Ok (if set_k_half args then 35 else 70)).
Proof.
  intros Hn. split; [exact (compute_K_eq args stage_i Hn)|].
  split; [intros prev fs self; apply init_uses_compute_K|].
  split.
  - intros [q Hq]. rewrite (compute_K_eq args stage_i Hn). unfold spec_K. cbv zeta.
    rewrite Hq. rewrite Z.mul_assoc, !Z.div_mul by exact Hn. reflexivity.
  - intros Hl Hc Hs ->. rewrite (compute_K_eq args 2 Hn), Hl, Hc, Hs.
    destruct (set_k_half args); reflexivity.
Qed.

End ComponentCount.

(** C1, witness: the configuration of the specification's example. *)
Lemma C1_component_count_witness :
  n_stage demo_args <> 0 /\ compute_K demo_args 2 = Ok 70.
Proof.
  split; [discriminate|].
  exact (proj1 (C1_component_count demo_args 2 ltac:(discriminate))).
Defined.

(** C1, counterexample: with three stages, stage 2 gets [50 + 2 * 16 = 82]
    components, where the formula of the specification gives
    [50 + 100 / 3 = 83]. *)
Lemma C1_spec_formula_counterexample :
  compute_K demo_args_3 2 = Ok 82 /\ spec_K demo_args_3 2 = 83
  /\ compute_K demo_args_3 2 <> Ok (spec_K demo_args_3 2).
Proof. repeat split; discriminate. Qed.

(** ** The trainer monad *)

Section TrainerLemmas.
Context `{Collab}.

Lemma trainer_bind_eq {A B} (m : Trainer A) (f : A -> Trainer B) (st : FitState) :
  (m ≫= f) st =
  match m st with
  | (st', Ok a) => f a st'
  | (st', Raise e) => (st', Raise e)
  end.
Proof. reflexivity. Qed.

(** A loop whose body maintains an epoch-indexed invariant [Inv], and
    leaves a state satisfying [Post] whenever it raises, ends in a state
    satisfying [Post]. *)
Lemma for_each_range (body : Z -> Trainer unit) (Inv : Z -> FitState -> Prop)
    (Post : FitState -> Prop) :
  (forall e st, Inv e st -> Post st) ->
  (forall e st, 0 <= e -> Inv e st ->
     match body e st with
     | (st', Ok _) => Inv (e + 1) st'
     | (st', Raise _) => Post st'
     end) ->
  forall (n a : nat) (st : FitState),
    Inv (Z.of_nat a) st ->
    Post (for_each (map Z.of_nat (seq a n)) body st).1.
Proof.
  intros Hpost Hstep n. induction n as [|n IH]; intros a st HI; simpl.
  - eapply Hpost, HI.
  - rewrite trainer_bind_eq.
    pose proof (Hstep (Z.of_nat a) st ltac:(lia) HI) as Hb.
    destruct (body (Z.of_nat a) st) as [st' [[]|x]]; simpl.
    + apply IH. replace (Z.of_nat (S a)) with (Z.of_nat a + 1) by lia. exact Hb.
    + exact Hb.
Qed.

(** A loop whose body preserves [I] preserves [I]. *)
Lemma for_each_preserves {A} (body : A -> Trainer unit) (I : FitState -> Prop) :
  (forall x st, I st -> I (body x st).1) ->
  forall l st, I st -> I (for_each l body st).1.
Proof.
  intros Hbody l. induction l as [|x l IH]; intros st HI; simpl; [exact HI|].
  rewrite trainer_bind_eq. specialize (Hbody x st HI).
  destruct (body x st) as [st' [[]|e]]; simpl in *; [apply IH|]; exact Hbody.
Qed.

Lemma for_each_preserves_in {A} (body : A -> Trainer unit) (I : FitState -> Prop)
    (l : list A) :
  (forall x st, x ∈ l -> I st -> I (body x st).1) ->
  forall st, I st -> I (for_each l body st).1.
Proof.
  induction l as [|x l IH]; intros Hbody st HI; simpl; [exact HI|].
  rewrite trainer_bind_eq. pose proof (Hbody x st ltac:(by left) HI) as Hx.
  destruct (body x st) as [st' [[]|e]]; simpl in *; [|exact Hx].
  apply IH; [|exact Hx]. intros y s Hy. apply Hbody. by right.
Qed.

End TrainerLemmas.

(** ** The steps of one epoch *)

Section EpochSteps.
Context `{Collab}.
Variables (args : Args) (stage_i : Z) (train_loader : TrainLoader) (val_loader : dataset).

(** A batch either raises and leaves the state as it is, or appends one
    batch event and leaves the tracker, the disk and the mixture alone. *)
Lemma train_batch_spec (epoch : Z) (batch : Batch) (st : FitState) :
  match train_batch args stage_i epoch batch st with
  | (st', Raise _) =>
      st' = st
      /\ exists x, batch_forward args stage_i epoch (st_model st) (st_head st)
                     (st_gmm st) (st_res st) batch = Raise x
  | (st', Ok _) =>
      exists o,
        batch_forward args stage_i epoch (st_model st) (st_head st) (st_gmm st)
          (st_res st) batch = Ok o
        /\ st_best st' = st_best st /\ st_fs st' = st_fs st /\ st_gmm st' = st_gmm st
        /\ st_res st' = bo_res o
        /\ st_trace st' =
             st_trace st ++ [EvBatch epoch (st_model st) (st_head st) (st_gmm st) o]
  end.
Proof.
  unfold train_batch. rewrite !trainer_bind_eq. unfold get, lift. simpl.
  destruct (batch_forward _ _ _ _ _ _ _ _) as [o|x] eqn:Hb; simpl.
  - rewrite trainer_bind_eq.
    match goal with |- context [optimizer_step ?a ?b ?c ?d ?e ?f ?g ?h ?i] =>
      destruct (optimizer_step a b c d e f g h i) as [[opt m] pr] end. simpl.
    exists o. repeat split.
  - split; [reflexivity | eauto].
Qed.

Lemma refit_gate_spec (epoch : Z) (st : FitState) :
  match refit_gate args stage_i epoch train_loader st with
  | (st', r) =>
      st_best st' = st_best st /\ st_fs st' = st_fs st /\ st_res st' = st_res st
      /\ st_model st' = st_model st /\ st_head st' = st_head st
      /\ (st_trace st' = st_trace st
          \/ (st_trace st' = st_trace st ++ [EvGmmFit epoch]
              /\ fit_gmm_every_n_epoch args <> 0
              /\ epoch `mod` fit_gmm_every_n_epoch args = 0))
  end.
Proof.
  unfold refit_gate, py_mod. rewrite trainer_bind_eq. unfold lift.
  destruct (Z.eqb_spec (fit_gmm_every_n_epoch args) 0); simpl; [tauto|].
  destruct (Z.eqb_spec (epoch `mod` fit_gmm_every_n_epoch args) 0); simpl; tauto.
Qed.

(** The events that are not checkpoint events do not show in the view. *)
Lemma ckpt_view_same (st st' : FitState) (evs : list Event) :
  st_best st' = st_best st -> st_fs st' = st_fs st ->
  st_trace st' = st_trace st ++ evs ->
  forallb (fun e => negb (is_ckpt_event e)) evs = true ->
  ckpt_view st' = ckpt_view st.
Proof.
  intros Hb Hf Ht He. unfold ckpt_view. rewrite Hb, Hf, Ht, List.filter_app.
  replace (List.filter is_ckpt_event evs) with (@nil Event); [by rewrite app_nil_r|].
  clear Ht. induction evs as [|e evs IH]; simpl in *; [reflexivity|].
  destruct (is_ckpt_event e); simpl in He; [discriminate | exact (IH He)].
Qed.

Lemma train_batch_ckpt (epoch : Z) (batch : Batch) (st : FitState) :
  ckpt_view (train_batch args stage_i epoch batch st).1 = ckpt_view st.
Proof.
  pose proof (train_batch_spec epoch batch st) as Hs.
  destruct (train_batch args stage_i epoch batch st) as [st' [[]|x]]; simpl.
  - destruct Hs as (o & _ & Hb & Hf & _ & _ & Ht).
    eapply ckpt_view_same; eauto.
  - destruct Hs as [-> _]. reflexivity.
Qed.

Lemma refit_gate_ckpt (epoch : Z) (st : FitState) :
  ckpt_view (refit_gate args stage_i epoch train_loader st).1 = ckpt_view st.
Proof.
  pose proof (refit_gate_spec epoch st) as Hs.
  destruct (refit_gate args stage_i epoch train_loader st) as [st' r]; simpl.
  destruct Hs as (Hb & Hf & _ & _ & _ & [Ht|[Ht _]]).
  - eapply (ckpt_view_same _ _ []); eauto. by rewrite app_nil_r.
  - eapply ckpt_view_same; eauto.
Qed.

(** The evaluation gate never raises, and acts on the view as [gate_step]. *)
Lemma eval_gate_spec (epoch : Z) (st : FitState) :
  exists st',
    eval_gate args stage_i epoch val_loader st = (st', Ok tt)
    /\ st_res st' = st_res st
    /\ List.filter (fun e => negb (is_ckpt_event e)) (st_trace st')
       = List.filter (fun e => negb (is_ckpt_event e)) (st_trace st)
    /\ ckpt_view st' =
       gate_step args stage_i (ckpt_view st)
         {| g_epoch := epoch;
            g_acc := eval_kmeans args (st_model st) (st_gmm st) val_loader stage_i epoch;
            g_model := st_model st; g_head := st_head st |}.
Proof.
  unfold eval_gate, gate_step, ckpt_view. rewrite !trainer_bind_eq. unfold get. simpl.
  destruct (Qlt_le_dec (st_best st) _) as [Hlt|Hle]; simpl.
  - eexists. split; [reflexivity|]. simpl. split; [reflexivity|].
    rewrite !List.filter_app. simpl. rewrite !app_nil_r.
    split; [reflexivity|]. by rewrite <- !app_assoc.
  - eexists. split; [reflexivity|]. simpl. split; [reflexivity|].
    rewrite !List.filter_app. simpl. rewrite !app_nil_r.
    split; [reflexivity|]. by rewrite <- !app_assoc.
Qed.

(** One epoch leaves the view alone or applies one gate of that epoch. *)
Lemma fit_epoch_ckpt (epoch : Z) (st : FitState) :
  let st' := (fit_epoch args stage_i train_loader val_loader epoch st).1 in
  ckpt_view st' = ckpt_view st
  \/ exists g, g_epoch g = epoch /\ ckpt_view st' = gate_step args stage_i (ckpt_view st) g.
Proof.
  unfold fit_epoch. rewrite trainer_bind_eq.
  pose proof (refit_gate_ckpt epoch st) as H1.
  destruct (refit_gate args stage_i epoch train_loader st) as [st1 [[]|x]];
    cbn [fst] in *; [|by left].
  rewrite trainer_bind_eq.
  pose proof (for_each_preserves (train_batch args stage_i epoch)
                (fun s => ckpt_view s = ckpt_view st)
                ltac:(intros b s Hs; cbv beta; rewrite train_batch_ckpt; exact Hs)
                (tl_contrast train_loader epoch) st1 H1) as H2.
  destruct (for_each _ _ st1) as [st2 [[]|x]]; cbn [fst] in *; [|by left].
  rewrite !trainer_bind_eq. unfold modify, lift, py_mod. cbn iota beta.
  destruct (eval_every_n_epoch args =? 0); cbn [fst]; [by left|].
  rewrite trainer_bind_eq.
  destruct (epoch `mod` eval_every_n_epoch args =? 0); cbn [fst]; [|by left].
  match goal with |- context [eval_gate _ _ _ _ ?s] =>
    destruct (eval_gate_spec epoch s) as (st3 & -> & _ & _ & Hv) end.
  right. eexists. split; [|cbn [fst]; rewrite Hv, <- H2; reflexivity]. reflexivity.
Qed.

End EpochSteps.

(** ** Paths *)

Section Paths.
Local Open Scope string_scope.
#[local] Arguments String.append !_ _ / : simpl nomatch.

Lemma string_app_assoc (a b c : string) : (a ++ b) ++ c = a ++ (b ++ c).
Proof. induction a as [|x a IH]; simpl; [reflexivity | f_equal; exact IH]. Qed.

Lemma string_app_inj_l (q s1 s2 : string) : q ++ s1 = q ++ s2 -> s1 = s2.
Proof. induction q as [|x q IH]; simpl; intros Heq; [exact Heq|]. injection Heq. exact IH. Qed.

Lemma string_app_nonempty_r (a b : string) : b <> "" -> a ++ b <> "".
Proof. destruct a; simpl; [tauto | discriminate]. Qed.

Lemma starts_with_sep_app (a b : string) :
  starts_with_sep (a ++ b) = match a with "" => starts_with_sep b | _ => starts_with_sep a end.
Proof. destruct a; reflexivity. Qed.

Lemma ends_with_sep_app (a b : string) :
  b <> "" -> ends_with_sep (a ++ b) = ends_with_sep b.
Proof.
  intros Hb. induction a as [|x a IH]; simpl; [reflexivity|].
  rewrite IH. destruct (a ++ b) eqn:E; [|reflexivity].
  destruct a; simpl in E; [contradiction | discriminate].
Qed.

(** Joining a directory with two names of one stem gives two paths that
    differ exactly in what follows the stem. *)
Lemma join_step_stem (p stem : string) :
  stem <> "" -> exists q, forall s, join_step p (stem ++ s) = q ++ s.
Proof.
  intros Hstem. unfold join_step.
  assert (Hs : forall s, starts_with_sep (stem ++ s) = starts_with_sep stem).
  { intros s. rewrite starts_with_sep_app. destruct stem; [contradiction | reflexivity]. }
  destruct (starts_with_sep stem) eqn:Hsep.
  - exists stem. intros s. by rewrite Hs.
  - destruct ((p =? "") || ends_with_sep p)%bool.
    + exists (p ++ stem). intros s. by rewrite Hs, string_app_assoc.
    + exists (p ++ "/" ++ stem). intros s. rewrite Hs, !string_app_assoc. reflexivity.
Qed.

Lemma stage_stem_nonempty (args : Args) (i : Z) : stage_stem args i <> "".
Proof. unfold stage_stem. apply string_app_nonempty_r. discriminate. Qed.

(** The four paths of a stage share a prefix and end in four different
    suffixes. *)
Lemma stage_paths (args : Args) (i : Z) :
  exists q,
    latest_model_path args i = q ++ "_model.pt"
    /\ latest_proj_head_path args i = q ++ "_model_proj_head.pt"
    /\ best_model_path args i = q ++ "_model_best.pt"
    /\ best_proj_head_path args i = q ++ "_proj_head_best.pt".
Proof.
  destruct (join_step_stem (model_path args) (stage_stem args i)
              (stage_stem_nonempty args i)) as [q Hq].
  exists q. repeat split; apply Hq.
Qed.

Lemma stage_paths_distinct (args : Args) (i : Z) :
  best_model_path args i <> latest_model_path args i
  /\ best_model_path args i <> latest_proj_head_path args i
  /\ best_proj_head_path args i <> latest_model_path args i
  /\ best_proj_head_path args i <> latest_proj_head_path args i
  /\ best_model_path args i <> best_proj_head_path args i
  /\ latest_model_path args i <> latest_proj_head_path args i.
Proof.
  destruct (stage_paths args i) as (q & -> & -> & -> & ->).
  repeat split; intros Heq%string_app_inj_l; discriminate.
Qed.

(** For a save path that is not empty and does not end in a slash, and a
    model name that does not begin with one, joining is concatenation with
    slashes. *)
Lemma os_path_join_plain (args : Args) (name : string) :
  save_path args <> "" -> ends_with_sep (save_path args) = false ->
  starts_with_sep (ccd_model args) = false ->
  os_path_join (save_path args) ["model"; ccd_model args ++ "_stage_" ++ name]
  = save_path args ++ "/model/" ++ ccd_model args ++ "_stage_" ++ name.
Proof.
  intros Hne Hend Hstart. unfold os_path_join. simpl.
  assert (H1 : join_step (save_path args) "model" = save_path args ++ "/model").
  { unfold join_step. simpl. rewrite Hend.
    destruct (String.eqb_spec (save_path args) ""); [contradiction | reflexivity]. }
  rewrite H1. unfold join_step.
  rewrite starts_with_sep_app. rewrite ends_with_sep_app by discriminate. simpl.
  destruct (String.eqb_spec (save_path args ++ "/model") "") as [E|_].
  { exfalso. revert E. apply string_app_nonempty_r. discriminate. }
  simpl. destruct (ccd_model args) eqn:Hc; simpl in *.
  - by rewrite string_app_assoc.
  - rewrite Hstart, string_app_assoc. reflexivity.
Qed.

End Paths.

(** ** Runs of the evaluation gate *)

(** Case analysis on a membership in a list of events. *)
Ltac cases_mem H := set_unfold in H; destruct_or! H; try done; simplify_eq.

Section GateRuns.
Context `{Collab}.
Variables (args : Args) (stage_i : Z) (fs0 : gmap string blob).

Lemma gate_inv_init (lo : Z) :
  gate_inv args stage_i fs0 lo {| cv_best := 0; cv_fs := fs0; cv_events := [] |}.
Proof.
  split; simpl; try (intros; exfalso; eapply elem_of_nil; eassumption).
  - apply Qle_refl.
  - by left.
  - intros p. left. split; [reflexivity|]. intros e b Hin. by apply elem_of_nil in Hin.
Qed.

Lemma gate_inv_weaken (lo lo' : Z) (v : CkptView) :
  lo <= lo' -> gate_inv args stage_i fs0 lo v -> gate_inv args stage_i fs0 lo' v.
Proof.
  intros Hle [He Hu Hn Ha Hb Hs Hl Hf]. split; try assumption.
  intros ev Hin. specialize (He ev Hin). lia.
Qed.

Lemma gate_step_best_mono (v : CkptView) (g : Gate) :
  (cv_best v <= cv_best (gate_step args stage_i v g))%Q.
Proof.
  unfold gate_step. destruct (Qlt_le_dec (cv_best v) (g_acc g)) as [Hlt|Hle]; simpl.
  - by apply Qlt_le_weak.
  - apply Qle_refl.
Qed.

Lemma gate_step_inv (lo : Z) (v : CkptView) (g : Gate) :
  lo <= g_epoch g ->
  gate_inv args stage_i fs0 lo v ->
  gate_inv args stage_i fs0 (g_epoch g + 1) (gate_step args stage_i v g).
Proof.
  intros Hlo [He Hu Hn Ha Hb Hs Hl Hf].
  destruct (stage_paths_distinct args stage_i) as (D1 & D2 & D3 & D4 & D5 & D6).
  assert (HoldE : forall a, EvEval (g_epoch g) a ∉ cv_events v).
  { intros a Hin. specialize (He _ Hin). simpl in He. lia. }
  assert (HoldS : forall p b, EvSave (g_epoch g) p b ∉ cv_events v).
  { intros p b Hin. specialize (He _ Hin). simpl in He. lia. }
  assert (HltE : forall e a, EvEval e a ∈ cv_events v -> e < g_epoch g).
  { intros e a Hin. specialize (He _ Hin). simpl in He. lia. }
  unfold gate_step.
  destruct (Qlt_le_dec (cv_best v) (g_acc g)) as [Hlt|Hle]; split; simpl.
  (* the accuracy exceeds the running best *)
  - intros ev Hin. cases_mem Hin; simpl; try lia. specialize (He ev Hin). lia.
  - intros e a Hin. cases_mem Hin.
    + eapply Qle_trans; [apply (Hu e a Hin) | by apply Qlt_le_weak].
    + apply Qle_refl.
  - eapply Qle_trans; [exact Hn | by apply Qlt_le_weak].
  - right. exists (g_epoch g). set_unfold. tauto.
  - intros e a p Hin Hp. cases_mem Hin.
    + pose proof (HltE _ _ Hin) as Hne. pose proof (Hb e a p Hin Hp) as Hiff.
      split.
      * intros [b Hin']. cases_mem Hin'; try lia.
        destruct (proj1 Hiff (ex_intro _ b Hin')) as [H0 Hall]. split; [exact H0|].
        intros e' a' Hin'' Hlt'. cases_mem Hin''; [by apply (Hall e' a') | lia].
      * intros [H0 Hall]. destruct (proj2 Hiff) as [b Hb'].
        { split; [exact H0|]. intros e' a' Hin' Hlt'.
          apply (Hall e' a'); [set_unfold; by left | exact Hlt']. }
        exists b. set_unfold. by left.
    + split.
      * intros _. split; [by eapply Qle_lt_trans|].
        intros e' a' Hin' Hlt'. cases_mem Hin'; [|lia].
        eapply Qle_lt_trans; [apply (Hu e' a' Hin') | exact Hlt].
      * intros _.
        destruct Hp as [-> | ->];
          [exists (BModel (g_model g)) | exists (BHead (g_head g))]; set_unfold; tauto.
  - intros e p b Hin. cases_mem Hin.
    + destruct (Hs e p b Hin) as [Hp [a Ha']]. set_unfold. split; [tauto | eauto].
    + set_unfold. split; [tauto | eauto 6].
    + set_unfold. split; [tauto | eauto 6].
    + set_unfold. split; [tauto | eauto 6].
    + set_unfold. split; [tauto | eauto 6].
  - intros e a Hin. cases_mem Hin.
    + destruct (Hl e a Hin) as [[b1 H1] [b2 H2]]. set_unfold. split; eauto.
    + set_unfold. split; eauto 8.
  - intros p.
    destruct (decide (p = best_proj_head_path args stage_i)) as [->|N1].
    { right. exists (g_epoch g), (BHead (g_head g)). split; [|apply lookup_insert_eq].
      set_unfold. tauto. }
    rewrite lookup_insert_ne by done.
    destruct (decide (p = best_model_path args stage_i)) as [->|N2].
    { right. exists (g_epoch g), (BModel (g_model g)). split; [|apply lookup_insert_eq].
      set_unfold. tauto. }
    rewrite lookup_insert_ne by done.
    destruct (decide (p = latest_proj_head_path args stage_i)) as [->|N3].
    { right. exists (g_epoch g), (BHead (g_head g)). split; [|apply lookup_insert_eq].
      set_unfold. tauto. }
    rewrite lookup_insert_ne by done.
    destruct (decide (p = latest_model_path args stage_i)) as [->|N4].
    { right. exists (g_epoch g), (BModel (g_model g)). split; [|apply lookup_insert_eq].
      set_unfold. tauto. }
    rewrite lookup_insert_ne by done.
    destruct (Hf p) as [[Hfs Hno]|(e & b & Hin & Hfs)].
    + left. split; [exact Hfs|]. intros e b Hin. cases_mem Hin. by apply (Hno e b).
    + right. exists e, b. split; [|exact Hfs]. set_unfold. by left.
  (* the accuracy does not exceed the running best *)
  - intros ev Hin. cases_mem Hin; simpl; try lia. specialize (He ev Hin). lia.
  - intros e a Hin. cases_mem Hin; [apply (Hu e a Hin) | exact Hle].
  - exact Hn.
  - destruct Ha as [Ha|[e Ha]]; [by left | right]. exists e. set_unfold. by left.
  - intros e a p Hin Hp. cases_mem Hin.
    + pose proof (HltE _ _ Hin) as Hne. pose proof (Hb e a p Hin Hp) as Hiff.
      split.
      * intros [b Hin']. cases_mem Hin'; try lia.
        destruct (proj1 Hiff (ex_intro _ b Hin')) as [H0 Hall]. split; [exact H0|].
        intros e' a' Hin'' Hlt'. cases_mem Hin''; [by apply (Hall e' a') | lia].
      * intros [H0 Hall]. destruct (proj2 Hiff) as [b Hb'].
        { split; [exact H0|]. intros e' a' Hin' Hlt'.
          apply (Hall e' a'); [set_unfold; by left | exact Hlt']. }
        exists b. set_unfold. by left.
    + split.
      * intros [b Hin']. cases_mem Hin'.
        -- by apply HoldS in Hin'.
        -- destruct Hp; congruence.
        -- destruct Hp; congruence.
      * intros [H0 Hall]. exfalso.
        destruct Ha as [Ha|[e Ha]].
        -- rewrite Ha in Hle. by apply (Qlt_not_le _ _ H0).
        -- apply (Qlt_not_le (cv_best v) (g_acc g)); [|exact Hle].
           apply (Hall e); [set_unfold; by left|]. by apply (HltE _ _ Ha).
  - intros e p b Hin. cases_mem Hin.
    + destruct (Hs e p b Hin) as [Hp [a Ha']]. set_unfold. split; [tauto | eauto].
    + set_unfold. split; [tauto | eauto 6].
    + set_unfold. split; [tauto | eauto 6].
  - intros e a Hin. cases_mem Hin.
    + destruct (Hl e a Hin) as [[b1 H1] [b2 H2]]. set_unfold. split; eauto.
    + set_unfold. split; eauto 8.
  - intros p.
    destruct (decide (p = latest_proj_head_path args stage_i)) as [->|N3].
    { right. exists (g_epoch g), (BHead (g_head g)). split; [|apply lookup_insert_eq].
      set_unfold. tauto. }
    rewrite lookup_insert_ne by done.
    destruct (decide (p = latest_model_path args stage_i)) as [->|N4].
    { right. exists (g_epoch g), (BModel (g_model g)). split; [|apply lookup_insert_eq].
      set_unfold. tauto. }
    rewrite lookup_insert_ne by done.
    destruct (Hf p) as [[Hfs Hno]|(e & b & Hin & Hfs)].
    + left. split; [exact Hfs|]. intros e b Hin. cases_mem Hin. by apply (Hno e b).
    + right. exists e, b. split; [|exact Hfs]. set_unfold. by left.
Qed.
Lemma gate_run_inv (gs : list Gate) (lo : Z) (v : CkptView) :
  ascending_from lo gs ->
  gate_inv args stage_i fs0 lo v ->
  exists hi, gate_inv args stage_i fs0 hi (fold_left (gate_step args stage_i) gs v).
Proof.
  revert lo v. induction gs as [|g gs IH]; intros lo v Hasc Hinv; simpl.
  - by exists lo.
  - destruct Hasc as [Hlo Hasc]. apply (IH (g_epoch g + 1)); [exact Hasc|].
    by apply (gate_step_inv lo).
Qed.

Lemma gate_run_best_mono (gs : list Gate) (v : CkptView) :
  (cv_best v <= cv_best (fold_left (gate_step args stage_i) gs v))%Q.
Proof.
  revert v. induction gs as [|g gs IH]; intros v; simpl; [apply Qle_refl|].
  eapply Qle_trans; [apply (gate_step_best_mono v g) | apply IH].
Qed.

Lemma ascending_from_snoc (lo : Z) (gs : list Gate) (g : Gate) :
  ascending_from lo gs -> lo <= g_epoch g ->
  Forall (fun g' => g_epoch g' < g_epoch g) gs ->
  ascending_from lo (gs ++ [g]).
Proof.
  revert lo. induction gs as [|g' gs IH]; intros lo Hasc Hlo Hall; simpl.
  - split; [exact Hlo | exact I].
  - destruct Hasc as [Hlo' Hasc]. apply Forall_cons in Hall as [Hg' Hall].
    split; [exact Hlo'|]. apply IH; [exact Hasc | lia | exact Hall].
Qed.

End GateRuns.

(** ** The checkpoint view of the epoch loop *)

Section LoopView.
Context `{Collab}.
Variables (args : Args) (stage_i : Z) (train_loader : TrainLoader) (val_loader : dataset).


(** The loop over the epochs [a, a+1, ..., a+n-1] acts on the view as a run
    of gates in increasing epochs from [a]. *)
Lemma fit_range_ckpt (n a : nat) (st : FitState) :
  exists gs,
    ascending_from (Z.of_nat a) gs
    /\ ckpt_view (fit_loop args stage_i train_loader val_loader
                    (map Z.of_nat (seq a n)) st).1
       = fold_left (gate_step args stage_i) gs (ckpt_view st).
Proof.
  unfold fit_loop.
  apply (for_each_range (fit_epoch args stage_i train_loader val_loader)
    (fun e s => exists gs,
       ascending_from (Z.of_nat a) gs
       /\ Forall (fun g => g_epoch g < e) gs /\ Z.of_nat a <= e
       /\ ckpt_view s = fold_left (gate_step args stage_i) gs (ckpt_view st))
    (fun s => exists gs,
       ascending_from (Z.of_nat a) gs
       /\ ckpt_view s = fold_left (gate_step args stage_i) gs (ckpt_view st))).
  - intros e s (gs & Hasc & _ & _ & Hv). eauto.
  - intros e s He (gs & Hasc & Hall & Hae & Hv).
    pose proof (fit_epoch_ckpt args stage_i train_loader val_loader e s) as Hstep.
    destruct (fit_epoch args stage_i train_loader val_loader e s) as [s' r].
    cbn [fst] in Hstep.
    assert (Hpost :
      exists gs',
        ascending_from (Z.of_nat a) gs'
        /\ Forall (fun g => g_epoch g < e + 1) gs' /\ Z.of_nat a <= e + 1
        /\ ckpt_view s' = fold_left (gate_step args stage_i) gs' (ckpt_view st)).
    { destruct Hstep as [Hs'|(g & Hg & Hs')].
      - exists gs. repeat split; [exact Hasc | | lia | congruence].
        eapply Forall_impl; [exact Hall|]. simpl. intros; lia.
      - exists (gs ++ [g]). repeat split.
        + apply ascending_from_snoc; [exact Hasc | lia | by rewrite Hg].
        + apply Forall_app. split.
          * eapply Forall_impl; [exact Hall|]. simpl. intros; lia.
          * apply Forall_singleton. lia.
        + lia.
        + rewrite fold_left_app. simpl. by rewrite <- Hv. }
    destruct r as [[]|x]; [exact Hpost|].
    destruct Hpost as (gs' & ? & _ & _ & ?). eauto.
  - exists []. repeat split; [apply Forall_nil | lia].
    by constructor.
Qed.

(** What holds of the view at the end of [fit], whether it returns or
    raises. *)
Lemma fit_gate_inv (self : PromptCCD_Model) (fs : gmap string blob) :
  self_args self = args -> self_stage_i self = stage_i ->
  exists hi,
    gate_inv args stage_i fs hi (ckpt_view (fit self train_loader val_loader fs).1).
Proof.
  intros Hargs Hstage. unfold fit. rewrite Hargs, Hstage, trainer_bind_eq.
  destruct (fit_range_ckpt (Z.to_nat (epochs args)) 0 (fit_init self fs))
    as (gs & Hasc & Hv).
  unfold py_range.
  destruct (fit_loop _ _ _ _ _ _) as [st [[]|x]]; cbn [fst] in *.
  - rewrite trainer_bind_eq. unfold get.
    change (exists hi, gate_inv args stage_i fs hi (ckpt_view st)).
    rewrite Hv. eapply gate_run_inv; [exact Hasc|]. apply gate_inv_init.
  - rewrite Hv. eapply gate_run_inv; [exact Hasc|]. apply gate_inv_init.
Qed.

End LoopView.

(** ** Checkpoints of a stage *)

Section Checkpoints.
Context `{Collab}.

Lemma ckpt_event_in_view (st : FitState) (ev : Event) :
  is_ckpt_event ev = true ->
  ev ∈ cv_events (ckpt_view st) <-> ev ∈ st_trace st.
Proof.
  intros Hev. unfold ckpt_view. simpl. rewrite !list_elem_of_In, List.filter_In. tauto.
Qed.

Lemma eval_in_view (st : FitState) (e : Z) (a : Q) :
  EvEval e a ∈ cv_events (ckpt_view st) <-> EvEval e a ∈ st_trace st.
Proof. by apply ckpt_event_in_view. Qed.

Lemma save_in_view (st : FitState) (e : Z) (p : string) (b : blob) :
  EvSave e p b ∈ cv_events (ckpt_view st) <-> EvSave e p b ∈ st_trace st.
Proof. by apply ckpt_event_in_view. Qed.

Lemma restore_paths (args : Args) (i : Z) :
  restore_model_path args (i + 1) = best_model_path args i
  /\ restore_proj_head_path args (i + 1) = best_proj_head_path args i.
Proof.
  unfold restore_model_path, restore_proj_head_path, best_model_path, best_proj_head_path,
    model_path, best_model_name, best_proj_head_name, stage_stem.
  rewrite Z.add_simpl_r, !string_app_assoc. split; reflexivity.
Qed.

(** [__init__] looks at the disk through the two restore paths only. *)
Lemma init_reads (args : Args) (model : option (backbone * head)) (stage_i : Z)
    (fs fs' : gmap string blob) :
  fs !! restore_model_path args stage_i = fs' !! restore_model_path args stage_i ->
  fs !! restore_proj_head_path args stage_i = fs' !! restore_proj_head_path args stage_i ->
  PromptCCD_Model_init args model stage_i fs = PromptCCD_Model_init args model stage_i fs'.
Proof.
  intros H1 H2. unfold PromptCCD_Model_init, torch_load.
  destruct model; [|reflexivity]. by rewrite H1, H2.
Qed.

(** C2 (as the code has it).  Every file that [fit] writes at stage [i] is
    one of [os.path.join(save_path, 'model', name)] for the four names
    [{ccd_model}_stage_{i}_model.pt], [{ccd_model}_stage_{i}_model_proj_head.pt]
    (latest) and [{ccd_model}_stage_{i}_model_best.pt],
    [{ccd_model}_stage_{i}_proj_head_best.pt] (best): the best projection
    head drops the [model_] of the latest one.  [__init__] at stage [i + 1]
    reads exactly the two best paths of stage [i].  For a save path that is
    not empty and does not end in a slash, and a model name that does not
    begin with one, the joined paths are
    [{save_path}/model/{ccd_model}_stage_{i}_...], which for the two latest
    files and the best backbone is the convention of the specification. *)
Theorem C2_checkpoint_paths (self : PromptCCD_Model) (train_loader : TrainLoader)
    (val_loader : dataset) (fs : gmap string blob) :
  let args := self_args self in
  let i := self_stage_i self in
  let stem := (ccd_model args ++ "_stage_" ++ py_str i)%string in
  (forall e p b,
     EvSave e p b ∈ st_trace (fit self train_loader val_loader fs).1 ->
     p ∈ [latest_model_path args i; latest_proj_head_path args i;
          best_model_path args i; best_proj_head_path args i])
  /\ (latest_model_path args i
        = os_path_join (save_path args) ["model"; stem ++ "_model.pt"]
      /\ latest_proj_head_path args i
        = os_path_join (save_path args) ["model"; stem ++ "_model_proj_head.pt"]
      /\ best_model_path args i
        = os_path_join (save_path args) ["model"; stem ++ "_model_best.pt"]
      /\ best_proj_head_path args i
        = os_path_join (save_path args) ["model"; stem ++ "_proj_head_best.pt"])%string
  /\ (restore_model_path args (i + 1) = best_model_path args i
      /\ restore_proj_head_path args (i + 1) = best_proj_head_path args i
      /\ forall model fs1 fs2,
           fs1 !! best_model_path args i = fs2 !! best_model_path args i ->
           fs1 !! best_proj_head_path args i = fs2 !! best_proj_head_path args i ->
           PromptCCD_Model_init args model (i + 1) fs1
           = PromptCCD_Model_init args model (i + 1) fs2)
  /\ (save_path args <> ""%string -> ends_with_sep (save_path args) = false ->
      starts_with_sep (ccd_model args) = false ->
      latest_model_path args i = spec_convention_path args i KModel false
      /\ latest_proj_head_path args i = spec_convention_path args i KModelProjHead false
      /\ best_model_path args i = spec_convention_path args i KModel true
      /\ best_proj_head_path args i
         = (save_path args ++ "/model/" ++ stem ++ "_proj_head_best.pt")%string).
Proof.
  intros args i stem. split; [|split; [|split]].
  - intros e p b Hin.
    destruct (fit_gate_inv args i train_loader val_loader self fs eq_refl eq_refl)
      as [hi Hinv].
    apply save_in_view in Hin. exact (proj1 (gi_saves _ _ _ _ _ Hinv e p b Hin)).
  - repeat split.
  - destruct (restore_paths args i) as [H1 H2]. split; [exact H1|]. split; [exact H2|].
    intros model fs1 fs2 Hm Hh. apply init_reads; by rewrite ?H1, ?H2.
  - intros Hne Hend Hstart.
    pose proof (fun name => os_path_join_plain args name Hne Hend Hstart) as Hplain.
    unfold latest_model_path, latest_proj_head_path, best_model_path, best_proj_head_path,
      model_path, latest_model_name, latest_proj_head_name, best_model_name,
      best_proj_head_name, stage_stem, spec_convention_path, stem.
    change (os_path_join (os_path_join ?a [?b]) [?c]) with (os_path_join a [b; c]).
    rewrite !string_app_assoc, !Hplain. repeat split.
Qed.

End Checkpoints.

(** C2, witness: the paths of stage 1 of the sample configuration. *)
Lemma C2_checkpoint_paths_witness :
  best_proj_head_path demo_args 1 = "out/model/promptccd_stage_1_proj_head_best.pt"%string
  /\ restore_proj_head_path demo_args 2 = best_proj_head_path demo_args 1.
Proof.
  pose proof (C2_checkpoint_paths (demo_self demo_args 1) demo_loader [] ∅) as HC.
  cbv zeta in HC. destruct HC as (_ & _ & (_ & Hr & _) & Hplain).
  split; [|exact Hr].
  destruct (Hplain ltac:(discriminate) eq_refl eq_refl) as (_ & _ & _ & Hb).
  exact Hb.
Defined.

(** C2, counterexample: the best projection head of stage 1 is not at the
    path that the convention of the specification gives it. *)
Lemma C2_convention_counterexample :
  best_proj_head_path demo_args 1 = "out/model/promptccd_stage_1_proj_head_best.pt"%string
  /\ spec_convention_path demo_args 1 KModelProjHead true
     = "out/model/promptccd_stage_1_model_proj_head_best.pt"%string
  /\ best_proj_head_path demo_args 1 <> spec_convention_path demo_args 1 KModelProjHead true.
Proof. split; [reflexivity|]. split; [reflexivity|]. discriminate. Qed.

(** ** The best-accuracy tracker *)

Section BestTracker.
Context `{Collab}.



End BestTracker.

(** The run of the sample configuration on the gate accuracies
    0.1, 0.05, 0.3, 0.2, 0.4. *)
Lemma demo_run_trace :
  st_trace (fit (demo_self demo_args 1) demo_loader
              [1 # 10; 5 # 100; 3 # 10; 2 # 10; 4 # 10]%Q ∅).1
  = [EvGmmFit 0;
     EvEval 0 (1 # 10);
     EvSave 0 (latest_model_path demo_args 1) (BModel 0%nat);
     EvSave 0 (latest_proj_head_path demo_args 1) (BHead 0%nat);
     EvSave 0 (best_model_path demo_args 1) (BModel 0%nat);
     EvSave 0 (best_proj_head_path demo_args 1) (BHead 0%nat);
     EvEval 1 (5 # 100);
     EvSave 1 (latest_model_path demo_args 1) (BModel 0%nat);
     EvSave 1 (latest_proj_head_path demo_args 1) (BHead 0%nat);
     EvGmmFit 2;
     EvEval 2 (3 # 10);
     EvSave 2 (latest_model_path demo_args 1) (BModel 0%nat);
     EvSave 2 (latest_proj_head_path demo_args 1) (BHead 0%nat);
     EvSave 2 (best_model_path demo_args 1) (BModel 0%nat);
     EvSave 2 (best_proj_head_path demo_args 1) (BHead 0%nat);
     EvEval 3 (2 # 10);
     EvSave 3 (latest_model_path demo_args 1) (BModel 0%nat);
     EvSave 3 (latest_proj_head_path demo_args 1) (BHead 0%nat);
     EvGmmFit 4;
     EvEval 4 (4 # 10);
     EvSave 4 (latest_model_path demo_args 1) (BModel 0%nat);
     EvSave 4 (latest_proj_head_path demo_args 1) (BHead 0%nat);
     EvSave 4 (best_model_path demo_args 1) (BModel 0%nat);
     EvSave 4 (best_proj_head_path demo_args 1) (BHead 0%nat)].
Proof. vm_compute. reflexivity. Qed.



(** ** The batch step *)

Section BatchStep.
Context `{Collab}.

(** What a batch step that does not raise has computed. *)
Lemma batch_forward_inv (args : Args) (stage_i epoch : Z) (model : backbone)
    (proj : head) (g : gmm) (res : option ctx) (batch : Batch) (o : BatchOut) :
  batch_forward args stage_i epoch model proj g res batch = Ok o ->
  exists logits labels w,
    cat_images (images batch) = Ok (bo_images o)
    /\ bo_res o =
         (if fit_gmm_every_n_epoch args <=? epoch
          then Some (gmm_predict g (model_forward model (bo_images o) stage_i None))
          else res)
    /\ bo_output o = model_forward model (bo_images o) stage_i (bo_res o)
    /\ bo_features o = map l2_normalize (head_forward proj (bo_output o))
    /\ select_con_feats args (bo_features o) (mask_lab batch) = Ok (bo_con_feats o)
    /\ info_nce_logits (bo_con_feats o) args = Ok (logits, labels)
    /\ cross_entropy logits labels = Ok (bo_contrastive_loss o)
    /\ py_index (sup_con_weight args) stage_i = Ok w
    /\ (if Rlt_dec 0%R w
        then sup_con_branch (bo_features o) (class_labels batch) (mask_lab batch)
        else Ok (Some 0%R)) = Ok (bo_sup_con_loss o)
    /\ bo_loss o = xadd (xmul (Some (1 - w)%R) (bo_contrastive_loss o))
                        (xmul (Some w) (bo_sup_con_loss o)).
Proof.
  unfold batch_forward. intros Hb.
  apply result_bind_Ok in Hb as (imgs & Himgs & Hb).
  apply result_bind_Ok in Hb as (con_feats & Hcon & Hb).
  apply result_bind_Ok in Hb as ([logits labels] & Hnce & Hb).
  apply result_bind_Ok in Hb as (unsup & Hce & Hb).
  apply result_bind_Ok in Hb as (w & Hw & Hb).
  apply result_bind_Ok in Hb as (sup & Hsup & Hb).
  injection Hb as <-. simpl. exists logits, labels, w. repeat split; assumption.
Qed.

(** Conversely, a batch step whose parts do not raise does not raise. *)
Lemma batch_forward_intro (args : Args) (stage_i epoch : Z) (model : backbone)
    (proj : head) (g : gmm) (res : option ctx) (batch : Batch)
    (imgs : list image) (con_feats logits : Mat) (labels : list Z)
    (unsup sup : xreal) (w : R) :
  let res' :=
    if fit_gmm_every_n_epoch args <=? epoch
    then Some (gmm_predict g (model_forward model imgs stage_i None))
    else res in
  let output := model_forward model imgs stage_i res' in
  let features := map l2_normalize (head_forward proj output) in
  cat_images (images batch) = Ok imgs ->
  select_con_feats args features (mask_lab batch) = Ok con_feats ->
  info_nce_logits con_feats args = Ok (logits, labels) ->
  cross_entropy logits labels = Ok unsup ->
  py_index (sup_con_weight args) stage_i = Ok w ->
  (if Rlt_dec 0%R w
   then sup_con_branch features (class_labels batch) (mask_lab batch)
   else Ok (Some 0%R)) = Ok sup ->
  batch_forward args stage_i epoch model proj g res batch =
  Ok {| bo_images := imgs; bo_res := res'; bo_output := output; bo_features := features;
        bo_con_feats := con_feats; bo_contrastive_loss := unsup;
        bo_sup_con_loss := sup;
        bo_loss := xadd (xmul (Some (1 - w)%R) unsup) (xmul (Some w) sup) |}.
Proof.
  intros res' output features H1 H2 H3 H4 H5 H6. unfold batch_forward.
  rewrite H1. cbn [mbind result_bind]. fold res'. fold output. fold features.
  rewrite H2. cbn [mbind result_bind]. rewrite H3. cbn [mbind result_bind].
  rewrite H4. cbn [mbind result_bind]. rewrite H5. cbn [mbind result_bind].
  rewrite H6. reflexivity.
Qed.
End BatchStep.

(** ** The batch events of the epoch loop *)

Section BatchEvents.
Context `{Collab}.
Variables (args : Args) (stage_i : Z) (train_loader : TrainLoader) (val_loader : dataset).

#[local] Abbreviation ok := (batch_event_ok args stage_i train_loader).

Lemma batch_events_filter (tr : list Event) :
  Forall ok (List.filter (fun e => negb (is_ckpt_event e)) tr) -> Forall ok tr.
Proof.
  induction tr as [|ev tr IH]; simpl; [constructor|].
  destruct ev; simpl; intros Hall;
    try (apply Forall_cons in Hall as [H1 H2]); constructor; auto; exact I.
Qed.

Lemma batch_events_filter_inv (tr : list Event) :
  Forall ok tr -> Forall ok (List.filter (fun e => negb (is_ckpt_event e)) tr).
Proof.
  intros Hall. apply Forall_forall. intros ev Hin%list_elem_of_In%List.filter_In.
  destruct Hin as [Hin _]. apply list_elem_of_In in Hin.
  by apply (proj1 (Forall_forall _ _) Hall).
Qed.

Lemma train_batch_events (epoch : Z) (batch : Batch) (st : FitState) :
  batch ∈ tl_contrast train_loader epoch ->
  Forall ok (st_trace st) /\ (epoch < fit_gmm_every_n_epoch args -> st_res st = None) ->
  let st' := (train_batch args stage_i epoch batch st).1 in
  Forall ok (st_trace st') /\ (epoch < fit_gmm_every_n_epoch args -> st_res st' = None).
Proof.
  intros Hin [Hall Hres]. pose proof (train_batch_spec args stage_i epoch batch st) as Hs.
  destruct (train_batch args stage_i epoch batch st) as [st' [[]|x]]; cbn [fst].
  - destruct Hs as (o & Hb & _ & _ & _ & Hr & Ht). split.
    + rewrite Ht. apply Forall_app. split; [exact Hall|]. apply Forall_singleton.
      simpl. exists (st_res st), batch. auto.
    + intros Hlt. rewrite Hr.
      destruct (batch_forward_inv _ _ _ _ _ _ _ _ _ Hb) as (? & ? & ? & _ & -> & _).
      destruct (Z.leb_spec (fit_gmm_every_n_epoch args) epoch); [lia | auto].
  - destruct Hs as [-> _]. auto.
Qed.

Lemma fit_epoch_events (epoch : Z) (st : FitState) :
  Forall ok (st_trace st) /\ (epoch <= fit_gmm_every_n_epoch args -> st_res st = None) ->
  let st' := (fit_epoch args stage_i train_loader val_loader epoch st).1 in
  Forall ok (st_trace st')
  /\ (epoch + 1 <= fit_gmm_every_n_epoch args -> st_res st' = None).
Proof.
  intros [Hall Hres]. unfold fit_epoch. rewrite trainer_bind_eq.
  pose proof (refit_gate_spec args stage_i train_loader epoch st) as H1.
  destruct (refit_gate args stage_i epoch train_loader st) as [st1 r1].
  destruct H1 as (_ & _ & Hr1 & _ & _ & Ht1).
  assert (I1 : Forall ok (st_trace st1)
               /\ (epoch < fit_gmm_every_n_epoch args -> st_res st1 = None)).
  { split; [|intros; rewrite Hr1; apply Hres; lia].
    destruct Ht1 as [-> | [-> Hmod]]; [exact Hall|]. apply Forall_app.
    split; [exact Hall|]. apply Forall_singleton. exact Hmod. }
  assert (Hdone : forall s : FitState,
            Forall ok (st_trace s)
            /\ (epoch < fit_gmm_every_n_epoch args -> st_res s = None) ->
            Forall ok (st_trace s)
            /\ (epoch + 1 <= fit_gmm_every_n_epoch args -> st_res s = None)).
  { intros s [? Hs]. split; [assumption | intros; apply Hs; lia]. }
  destruct r1 as [[]|x]; cbn [fst]; [|by apply Hdone].
  rewrite trainer_bind_eq.
  pose proof (for_each_preserves_in (train_batch args stage_i epoch)
                (fun s => Forall ok (st_trace s)
                          /\ (epoch < fit_gmm_every_n_epoch args -> st_res s = None))
                (tl_contrast train_loader epoch)
                ltac:(intros b s Hb Hs; by apply train_batch_events) st1 I1) as I2.
  destruct (for_each _ _ st1) as [st2 [[]|x]]; cbn [fst] in *; [|by apply Hdone].
  rewrite !trainer_bind_eq. unfold modify, lift, py_mod. cbn iota beta.
  destruct (eval_every_n_epoch args =? 0); cbn [fst]; [by apply Hdone|].
  rewrite trainer_bind_eq.
  destruct (epoch `mod` eval_every_n_epoch args =? 0); cbn [fst]; [|by apply Hdone].
  match goal with |- context [eval_gate _ _ _ _ ?s] =>
    destruct (eval_gate_spec args stage_i val_loader epoch s) as (st3 & -> & Hr3 & Hf3 & _)
  end.
  cbn [fst]. apply Hdone. destruct I2 as [I2a I2b]. split.
  - apply batch_events_filter. rewrite Hf3. by apply batch_events_filter_inv.
  - intros Hlt. rewrite Hr3. by apply I2b.
Qed.

(** Every batch event in the trace of [fit] is the result of a batch step. *)
Lemma fit_batch_events (self : PromptCCD_Model) (fs : gmap string blob) :
  self_args self = args -> self_stage_i self = stage_i ->
  Forall ok (st_trace (fit self train_loader val_loader fs).1).
Proof.
  intros Hargs Hstage. unfold fit. rewrite Hargs, Hstage, trainer_bind_eq.
  pose proof (for_each_range (fit_epoch args stage_i train_loader val_loader)
    (fun e s => Forall ok (st_trace s)
                /\ (e <= fit_gmm_every_n_epoch args -> st_res s = None))
    (fun s => Forall ok (st_trace s))
    ltac:(by intros e s [? _])) as Hloop.
  specialize (Hloop
    ltac:(intros e s _ Hs; pose proof (fit_epoch_events e s Hs) as Hs';
          destruct (fit_epoch _ _ _ _ e s) as [s' [[]|x]]; [exact Hs' | exact (proj1 Hs')])
    (Z.to_nat (epochs args)) 0%nat (fit_init self fs)
    ltac:(split; [constructor | reflexivity])).
  unfold fit_loop, py_range.
  destruct (for_each _ _ (fit_init self fs)) as [st [[]|x]]; cbn [fst] in *;
    [|exact Hloop].
  rewrite trainer_bind_eq. exact Hloop.
Qed.

End BatchEvents.

(** ** The trace only grows *)

Section TraceGrows.
Context `{Collab}.
Variables (args : Args) (stage_i : Z) (train_loader : TrainLoader) (val_loader : dataset).







End TraceGrows.

Section FirstBatch.
Context `{Collab}.


End FirstBatch.

(** ** Conditioning context *)

Section Conditioning.
Context `{Collab}.


End Conditioning.

(** The batch step of the sample batch at epoch 0 of stage 0, whose
    supervised weight is 0: it does not raise and passes no context. *)
Lemma demo_batch_forward (g : Z) :
  exists o, batch_forward demo_args 0 0 0%nat 0%nat g None demo_batch = Ok o
            /\ bo_res o = None.
Proof.
  eexists. split.
  - eapply batch_forward_intro.
    + reflexivity.
    + reflexivity.
    + reflexivity.
    + reflexivity.
    + reflexivity.
    + destruct (Rlt_dec 0 0) as [Hlt|_]; [exfalso; lra | reflexivity].
  - reflexivity.
Qed.



(** ** Masked selection *)

Section Selection.
Context {A : Type}.
Implicit Types (m : list bool) (l : list A).

Lemma select_by_lookup m l (x : A) :
  x ∈ select_by m l <-> exists i, m !! i = Some true /\ l !! i = Some x.
Proof.
  revert l. induction m as [|b m IH]; intros [|y l]; simpl.
  - split; [by intros ?%elem_of_nil | by intros (i & ? & _)].
  - split; [by intros ?%elem_of_nil | by intros (i & ? & _)].
  - split; [by intros ?%elem_of_nil | by intros (i & _ & ?)].
  - destruct b.
    + rewrite elem_of_cons, IH. split.
      * intros [-> | (i & Hm & Hl)]; [by exists 0%nat | by exists (S i)].
      * intros ([|i] & Hm & Hl); simpl in *; [left; congruence | right; eauto].
    + rewrite IH. split.
      * intros (i & Hm & Hl). by exists (S i).
      * intros ([|i] & Hm & Hl); simpl in *; [discriminate | eauto].
Qed.

Lemma select_by_length m l :
  length m = length l -> length (select_by m l) = length (List.filter (fun b => b) m).
Proof.
  revert l. induction m as [|b m IH]; intros [|y l] Hlen; simpl in *; try done.
  destruct b; simpl; rewrite IH; lia.
Qed.

Lemma bool_index_Ok m l :
  length m = length l -> bool_index m l = Ok (select_by m l).
Proof. intros Hlen. unfold bool_index. by rewrite Hlen, Nat.eqb_refl. Qed.

Lemma bool_index_inv m l (r : list A) :
  bool_index m l = Ok r -> length m = length l /\ r = select_by m l.
Proof.
  unfold bool_index. destruct (Nat.eqb_spec (length m) (length l)); [|discriminate].
  intros [= <-]. done.
Qed.

Lemma chunk2_even l (N : nat) :
  length l = (2 * N)%nat -> chunk2 l = Ok (take N l, drop N l).
Proof.
  intros Hlen. unfold chunk2. rewrite Hlen.
  destruct (Nat.eqb_spec (2 * N) 1); [lia|].
  replace ((2 * N + 1) / 2)%nat with N; [reflexivity|].
  apply Nat.div_unique with 1%nat; lia.
Qed.

Lemma chunk2_inv l (f1 f2 : list A) :
  chunk2 l = Ok (f1, f2) ->
  f1 = take ((length l + 1) / 2) l /\ f2 = drop ((length l + 1) / 2) l.
Proof.
  unfold chunk2. destruct (length l =? 1)%nat; [discriminate|]. by intros [= <- <-].
Qed.

End Selection.

Section ContrastInput.
Context `{Collab}.

(** C9.  For a batch of [N] samples in two views ([2N] feature rows, the
    rows [i] and [N + i] being the views of sample [i]) and a mask of length
    [N]: when [contrast_unlabel_only] is set, the input of the InfoNCE
    constructor is the unlabelled rows of the first view followed by the
    unlabelled rows of the second view, so it holds exactly the view
    instances of the samples whose mask is false, two for each; otherwise it
    is all [2N] rows.  For the mask [T,F,T,F] it is the four rows 1, 3, 5, 7.
    In [fit], this is the set that every batch step passes to
    [info_nce_logits]. *)
Theorem C9_unsupervised_input_set (args : Args) (features : Mat) (mask : list bool)
    (N : nat) :
  length features = (2 * N)%nat -> length mask = N ->
  let unl := select_by (map negb mask) in
  exists con_feats,
    select_con_feats args features mask = Ok con_feats
    /\ (if contrast_unlabel_only args
        then con_feats = unl (take N features) ++ unl (drop N features)
             /\ (forall x, x ∈ con_feats <->
                   exists i, mask !! i = Some false
                             /\ (features !! i = Some x \/ features !! (N + i)%nat = Some x))
             /\ length con_feats = (2 * length (List.filter negb mask))%nat
        else con_feats = features)
    /\ (forall r0 r1 r2 r3 r4 r5 r6 r7,
          contrast_unlabel_only args = true ->
          select_con_feats args [r0; r1; r2; r3; r4; r5; r6; r7] [true; false; true; false]
          = Ok [r1; r3; r5; r7])
    /\ (forall self train_loader val_loader fs e m h g o,
          self_args self = args ->
          EvBatch e m h g o ∈ st_trace (fit self train_loader val_loader fs).1 ->
          exists batch logits labels,
            batch ∈ tl_contrast train_loader e
            /\ select_con_feats args (bo_features o) (mask_lab batch) = Ok (bo_con_feats o)
            /\ info_nce_logits (bo_con_feats o) args = Ok (logits, labels)).
Proof.
  intros Hf Hm unl.
  assert (Hl1 : length (map negb mask) = length (take N features)).
  { rewrite length_map, length_take. lia. }
  assert (Hl2 : length (map negb mask) = length (drop N features)).
  { rewrite length_map, length_drop. lia. }
  exists (if contrast_unlabel_only args
          then unl (take N features) ++ unl (drop N features) else features).
  split; [|split; [|split]].
  - unfold select_con_feats. destruct (contrast_unlabel_only args); [|reflexivity].
    rewrite (chunk2_even features N Hf). cbn [mbind result_bind].
    rewrite (bool_index_Ok _ _ Hl1). cbn [mbind result_bind].
    rewrite (bool_index_Ok _ _ Hl2). reflexivity.
  - destruct (contrast_unlabel_only args); [|reflexivity].
    split; [reflexivity|]. split.
    + intros x. unfold unl. rewrite elem_of_app, !select_by_lookup. split.
      * intros [(i & Hi & Hx)|(i & Hi & Hx)]; exists i.
        -- rewrite list_lookup_fmap in Hi. destruct (mask !! i) as [[]|] eqn:E; try done.
           split; [done|]. left. by apply lookup_take_Some in Hx as [Hx _].
        -- rewrite list_lookup_fmap in Hi. destruct (mask !! i) as [[]|] eqn:E; try done.
           split; [done|]. right. by rewrite lookup_drop in Hx.
      * intros (i & Hi & [Hx|Hx]).
        -- left. exists i. rewrite list_lookup_fmap, Hi. split; [done|].
           apply lookup_take_Some. split; [done|].
           apply lookup_lt_Some in Hi. lia.
        -- right. exists i. rewrite list_lookup_fmap, Hi. split; [done|].
           by rewrite lookup_drop.
    + unfold unl. rewrite length_app, !select_by_length by done.
      assert (Hid : List.filter (fun b => b) (map negb mask) = map negb (List.filter negb mask)).
      { clear. induction mask as [|[] l IH]; simpl; [done | done | by rewrite IH]. }
      rewrite Hid, length_map. lia.
  - intros r0 r1 r2 r3 r4 r5 r6 r7 Hc. unfold select_con_feats. rewrite Hc. reflexivity.
  - intros self tl vl fs e m h g o Hargs Hin.
    pose proof (fit_batch_events args (self_stage_i self) tl vl self fs Hargs eq_refl)
      as Hall.
    apply (proj1 (Forall_forall _ _) Hall) in Hin as (res & batch & Hb & Hfw & _).
    destruct (batch_forward_inv _ _ _ _ _ _ _ _ _ Hfw)
      as (logits & labels & w & _ & _ & _ & _ & Hsel & Hnce & _).
    exists batch, logits, labels. auto.
Qed.

End ContrastInput.

(** C9, witness: eight rows, mask [T,F,T,F]. *)
Lemma C9_unsupervised_input_set_witness :
  let features : Mat := [[0]; [1]; [2]; [3]; [4]; [5]; [6]; [7]]%R in
  let mask := [true; false; true; false] in
  length features = (2 * 4)%nat /\ length mask = 4%nat
  /\ select_con_feats demo_args features mask = Ok [[1]; [3]; [5]; [7]]%R.
Proof.
  intros features mask. split; [reflexivity|]. split; [reflexivity|].
  destruct (C9_unsupervised_input_set demo_args features mask 4 eq_refl eq_refl)
    as (con_feats & Hsel & Hspec & _).
  cbn [contrast_unlabel_only demo_args] in Hspec. destruct Hspec as [-> _].
  exact Hsel.
Defined.

(** ** Loss composition *)

Section TotalLoss.
Context `{Collab}.

(** The supervised branch, when it does not raise, has run the kernel on
    the labelled rows of the two views, paired sample by sample, against
    their class labels. *)
Lemma sup_con_branch_inv (features : Mat) (class_labels : list Z) (mask : list bool)
    (sup : xreal) :
  sup_con_branch features class_labels mask = Ok sup ->
  let N := length mask in
  length features = (2 * N)%nat /\ length class_labels = N
  /\ SupConLoss_forward default_temperature default_contrast_mode default_temperature
       (stack_views (feat_dim features)
          (select_by mask (take N features)) (select_by mask (drop N features)))
       (Some (select_by mask class_labels)) None = Ok sup.
Proof.
  unfold sup_con_branch. intros Hs.
  apply result_bind_Ok in Hs as ([f1 f2] & Hc & Hs).
  apply result_bind_Ok in Hs as (f1' & H1 & Hs).
  apply result_bind_Ok in Hs as (f2' & H2 & Hs).
  apply result_bind_Ok in Hs as (lab & H3 & Hs).
  apply chunk2_inv in Hc as [-> ->].
  apply bool_index_inv in H1 as [L1 ->].
  apply bool_index_inv in H2 as [L2 ->].
  apply bool_index_inv in H3 as [L3 ->].
  rewrite length_take in L1. rewrite length_drop in L2.
  pose proof (Nat.div_mod_eq (length features + 1) 2) as Hdiv.
  pose proof (Nat.mod_upper_bound (length features + 1) 2 ltac:(lia)) as Hmod.
  assert (Hc : ((length features + 1) / 2)%nat = length mask) by lia.
  rewrite Hc in *. cbv zeta. split; [lia|]. split; [lia|]. exact Hs.
Qed.


End TotalLoss.


(** ** Tensor indexing *)

Section Indexing.
Context {A B : Type}.

Lemma select_by_map {I : Type} (p : I -> bool) (g : I -> A) (l : list I) :
  select_by (map p l) (map g l) = map g (List.filter p l).
Proof.
  induction l as [|i l IH]; simpl; [reflexivity|].
  destruct (p i); simpl; by rewrite IH.
Qed.

Lemma zip_with_map_same {I C : Type} (h : A -> B -> C) (a : I -> A) (b : I -> B)
    (l : list I) :
  zip_with h (map a l) (map b l) = map (fun i => h (a i) (b i)) l.
Proof. induction l as [|i l IH]; simpl; [reflexivity | by rewrite IH]. Qed.

Lemma same_shape_map {I : Type} (a : I -> list A) (b : I -> list B) (l : list I) :
  (forall i, In i l -> length (a i) = length (b i)) ->
  same_shape (map a l) (map b l) = true.
Proof.
  intros Hlen. unfold same_shape. rewrite !length_map, Nat.eqb_refl. simpl.
  induction l as [|i l IH]; simpl; [reflexivity|].
  rewrite (Hlen i (or_introl eq_refl)), Nat.eqb_refl. simpl.
  apply IH. intros j Hj. apply Hlen. by right.
Qed.

Lemma chunks_of_concat (c : nat) (rows : list (list A)) :
  Forall (fun r => length r = c) rows ->
  chunks_of c (length rows) (concat rows) = rows.
Proof.
  induction 1 as [|r rows Hr Hall IH]; simpl; [reflexivity|].
  rewrite take_app_length', drop_app_length' by done. by rewrite IH.
Qed.

Lemma length_concat_uniform (c : nat) (rows : list (list A)) :
  Forall (fun r => length r = c) rows ->
  length (concat rows) = (length rows * c)%nat.
Proof.
  induction 1 as [|r rows Hr Hall IH]; simpl; [reflexivity|].
  rewrite length_app, IH, Hr. lia.
Qed.

(** Reshaping the concatenation of [r > 0] rows of one length back into [r]
    rows gives the rows; this holds for empty rows too. *)
Lemma view_rows_concat (c : nat) (rows : list (list A)) :
  rows <> [] -> Forall (fun r => length r = c) rows ->
  view_rows (length rows) (concat rows) = Ok rows.
Proof.
  intros Hne Hall. unfold view_rows.
  destruct (Nat.eqb_spec (length rows) 0) as [E|E].
  { destruct rows; [contradiction | discriminate]. }
  rewrite (length_concat_uniform c rows Hall).
  rewrite Nat.mul_comm, Nat.Div0.mod_mul, Nat.eqb_refl.
  rewrite Nat.div_mul by exact E.
  by rewrite chunks_of_concat.
Qed.

Lemma view_rows_zero (l : list A) : view_rows 0 l = Raise RuntimeError.
Proof. reflexivity. Qed.

Lemma map_tabulate (g : A -> B) (l : list A) (d : A) :
  map g l = map (fun i => g (nth i l d)) (seq 0 (length l)).
Proof.
  induction l as [|x l IH]; simpl; [reflexivity|]. f_equal.
  rewrite <- seq_shift, map_map. exact IH.
Qed.

End Indexing.

Section Counting.

Lemma filter_unique {I : Type} (p : I -> bool) (l : list I) (x : I) :
  List.NoDup l -> In x l -> p x = true ->
  (forall y, In y l -> p y = true -> y = x) ->
  List.filter p l = [x].
Proof.
  induction l as [|y l IH]; intros Hnd Hin Hpx Huniq; [destruct Hin|].
  apply List.NoDup_cons_iff in Hnd as [Hy Hnd]. simpl.
  destruct (p y) eqn:Hpy.
  - assert (y = x) as -> by (apply Huniq; [by left | exact Hpy]).
    f_equal. clear IH Hin.
    assert (Hnone : forall z, In z l -> p z = false).
    { intros z Hz. destruct (p z) eqn:Hpz; [|reflexivity].
      exfalso. apply Hy. rewrite <- (Huniq z (or_intror Hz) Hpz). exact Hz. }
    clear -Hnone. induction l as [|z l IH]; simpl; [reflexivity|].
    rewrite (Hnone z (or_introl eq_refl)). apply IH. intros w Hw. apply Hnone. by right.
  - destruct Hin as [-> | Hin]; [congruence|].
    apply IH; auto. intros z Hz. apply Huniq. by right.
Qed.

Lemma filter_partition_length {I : Type} (p : I -> bool) (l : list I) :
  (length (List.filter p l) + length (List.filter (fun x => negb (p x)) l))%nat = length l.
Proof. induction l as [|x l IH]; simpl; [reflexivity|]. destruct (p x); simpl; lia. Qed.

Lemma mod_half (N x : nat) :
  (0 < N)%nat -> (x < 2 * N)%nat ->
  (x mod N)%nat = if (x <? N)%nat then x else (x - N)%nat.
Proof.
  intros HN Hx. destruct (Nat.ltb_spec x N) as [Hlt|Hge].
  - by apply Nat.mod_small.
  - replace x with ((x - N) + 1 * N)%nat at 1 by lia.
    rewrite Nat.Div0.mod_add. apply Nat.mod_small. lia.
Qed.

End Counting.

(** ** The InfoNCE pair constructor *)

Section InfoNCE.
Local Open Scope nat_scope.

Lemma partner_eq (N i : nat) :
  0 < N -> i < 2 * N -> partner N i = if i <? N then i + N else i - N.
Proof.
  intros HN Hi. unfold partner. destruct (Nat.ltb_spec i N) as [Hlt|Hge].
  - apply Nat.mod_small. lia.
  - replace (i + N) with ((i - N) + 1 * (2 * N)) by lia.
    rewrite Nat.Div0.mod_add. apply Nat.mod_small. lia.
Qed.

Lemma partner_lt (N i : nat) : 0 < N -> partner N i < 2 * N.
Proof. intros HN. unfold partner. apply Nat.mod_upper_bound. lia. Qed.

(** Two indices below [2N] are congruent modulo [N] exactly when they are
    equal or partners. *)
Lemma same_sample_iff (N i j : nat) :
  0 < N -> i < 2 * N -> j < 2 * N ->
  (j mod N =? i mod N) = (j =? i) || (j =? partner N i).
Proof.
  intros HN Hi Hj. rewrite (partner_eq N i HN Hi), !mod_half by assumption.
  destruct (Nat.ltb_spec i N), (Nat.ltb_spec j N);
    destruct (Nat.eqb_spec j i); simpl;
    repeat match goal with
           | |- context [Nat.eqb ?a ?b] => destruct (Nat.eqb_spec a b)
           end; try reflexivity; lia.
Qed.

Lemma arange_labels (N : nat) :
  0 < N ->
  concat (replicate 2 (arange_half (2 * N))) = map (fun k => k mod N) (seq 0 (2 * N)).
Proof.
  intros HN. unfold arange_half.
  replace ((2 * N + 1) / 2) with N by (apply Nat.div_unique with 1; lia).
  simpl concat. rewrite app_nil_r.
  replace (2 * N) with (N + N) by lia. rewrite seq_app, map_app. f_equal.
  - rewrite <- (map_id (seq 0 N)) at 1. apply map_ext_in.
    intros k Hk%in_seq. symmetry. apply Nat.mod_small. lia.
  - simpl. assert (Hgen : forall n a, a + n <= N ->
                    seq a n = map (fun k => k mod N) (seq (N + a) n)).
    { induction n as [|n IH]; intros a Ha; simpl; [reflexivity|]. f_equal.
      - replace (N + a) with (a + 1 * N) by lia.
        rewrite Nat.Div0.mod_add. symmetry. apply Nat.mod_small. lia.
      - rewrite (IH (S a)) by lia. by replace (N + S a) with (S (N + a)) by lia. }
    rewrite (Hgen N 0) by lia. by rewrite Nat.add_0_r.
Qed.

Lemma mat_not_rows {I : Type} (p : nat -> I -> bool) (J : nat -> list I) (idx : list nat) :
  mat_not (map (fun i => map (p i) (J i)) idx)
  = map (fun i => map (fun j => negb (p i j)) (J i)) idx.
Proof. unfold mat_not. rewrite map_map. apply map_ext. intros i. apply map_map. Qed.

Lemma mat_not_eye (M : nat) :
  mat_not (eye_bool M)
  = map (fun i => map (fun j => negb (i =? j)) (seq 0 M)) (seq 0 M).
Proof. unfold eye_bool. apply (mat_not_rows Nat.eqb (fun _ => seq 0 M)). Qed.

Lemma mat_bool_index_rows {A I : Type} (p : nat -> I -> bool) (g : nat -> I -> A)
    (J : nat -> list I) (idx : list nat) :
  mat_bool_index (map (fun i => map (p i) (J i)) idx) (map (fun i => map (g i) (J i)) idx)
  = Ok (concat (map (fun i => map (g i) (List.filter (p i) (J i))) idx)).
Proof.
  unfold mat_bool_index.
  rewrite (same_shape_map (fun i => map (p i) (J i)) (fun i => map (g i) (J i)))
    by (intros; by rewrite !length_map).
  rewrite zip_with_map_same. do 2 f_equal.
  apply map_ext. intros i. apply select_by_map.
Qed.

Lemma view_rows_map {A : Type} (c : nat) (rowf : nat -> list A) (idx : list nat) :
  idx <> [] -> (forall i, In i idx -> length (rowf i) = c) ->
  view_rows (length idx) (concat (map rowf idx)) = Ok (map rowf idx).
Proof.
  intros Hne Hlen. rewrite <- (length_map rowf idx). apply (view_rows_concat c).
  - by destruct idx.
  - apply Forall_forall. intros r (i & <- & Hi)%list_elem_of_In%in_map_iff. by apply Hlen.
Qed.

Lemma off_diagonal_length (M i : nat) :
  i < M -> length (List.filter (fun j => negb (i =? j)) (seq 0 M)) = M - 1.
Proof.
  intros Hi. pose proof (filter_partition_length (fun j => i =? j) (seq 0 M)) as Hp.
  rewrite (filter_unique (fun j => i =? j) (seq 0 M) i) in Hp.
  - rewrite length_seq in Hp. cbv beta in Hp. cbn [length] in Hp. lia.
  - apply seq_NoDup.
  - apply in_seq. lia.
  - apply Nat.eqb_refl.
  - intros y _ Hy. symmetry. by apply Nat.eqb_eq.
Qed.

Lemma positives_of_row (N i : nat) :
  0 < N -> i < 2 * N ->
  List.filter (fun j => j mod N =? i mod N)
    (List.filter (fun j => negb (i =? j)) (seq 0 (2 * N)))
  = [partner N i].
Proof.
  intros HN Hi.
  assert (Hpart : partner N i <> i).
  { rewrite partner_eq by assumption. destruct (Nat.ltb_spec i N); lia. }
  apply filter_unique.
  - apply List.NoDup_filter, seq_NoDup.
  - apply filter_In. split; [apply in_seq; pose proof (partner_lt N i HN); lia|].
    destruct (Nat.eqb_spec i (partner N i)); [congruence | reflexivity].
  - rewrite same_sample_iff by (auto using partner_lt). by rewrite Nat.eqb_refl, orb_true_r.
  - intros j [Hj Hne]%filter_In Hsame. apply in_seq in Hj.
    rewrite same_sample_iff in Hsame by (assumption || lia).
    destruct (Nat.eqb_spec j i) as [->|_]; [by rewrite Nat.eqb_refl in Hne|].
    simpl in Hsame. by apply Nat.eqb_eq.
Qed.

Lemma filter_filter_and {I : Type} (p q : I -> bool) (l : list I) :
  List.filter p (List.filter q l) = List.filter (fun x => q x && p x) l.
Proof.
  induction l as [|x l IH]; simpl; [reflexivity|].
  destruct (q x); simpl; [destruct (p x)|]; by rewrite IH.
Qed.

Lemma negatives_of_row (N i : nat) :
  0 < N -> i < 2 * N ->
  List.filter (fun j => negb (j mod N =? i mod N))
    (List.filter (fun j => negb (i =? j)) (seq 0 (2 * N)))
  = List.filter (fun j => negb (j =? i) && negb (j =? partner N i)) (seq 0 (2 * N)).
Proof.
  intros HN Hi. rewrite filter_filter_and. apply filter_ext_in.
  intros j Hj%in_seq. rewrite same_sample_iff by (assumption || lia).
  rewrite (Nat.eqb_sym i j). by destruct (j =? i), (j =? partner N i).
Qed.

Lemma negatives_length (N i : nat) :
  0 < N -> i < 2 * N ->
  length (List.filter (fun j => negb (j mod N =? i mod N))
            (List.filter (fun j => negb (i =? j)) (seq 0 (2 * N)))) = 2 * N - 2.
Proof.
  intros HN Hi.
  pose proof (filter_partition_length (fun j => j mod N =? i mod N)
                (List.filter (fun j => negb (i =? j)) (seq 0 (2 * N)))) as Hp.
  rewrite positives_of_row, off_diagonal_length in Hp by assumption.
  cbv beta in Hp. cbn [length] in Hp. lia.
Qed.

(** The pair constructor on a [2N x 2N] matrix with entries [f i j]: row
    [i] of the result is the entry of the partner column followed by the
    entries of the columns other than [i] and its partner, in increasing
    order. *)
Lemma info_nce_pairs_tabulate {A : Type} (N : nat) (f : nat -> nat -> A) :
  0 < N ->
  info_nce_pairs 2 (tabulate (2 * N) f) = Ok (map (info_nce_row N f) (seq 0 (2 * N))).
Proof.
  intros HN. unfold info_nce_pairs, tabulate.
  rewrite length_map, length_seq. cbn [check negb Nat.eqb mbind result_bind].
  rewrite (arange_labels N HN).
  rewrite !map_map, !length_map, !length_seq, mat_not_eye.
  set (M := 2 * N). set (idx := seq 0 M).
  assert (Hidx : idx <> []) by (subst idx M; destruct N; [exfalso; lia | simpl; discriminate]).
  assert (HM : length idx = M) by apply length_seq.
  rewrite (map_ext (fun x => map (fun lj => lj =? x mod N) (map (fun k => k mod N) idx))
                   (fun i => map (fun j => j mod N =? i mod N) idx))
    by (intros; apply map_map).
  (* the diagonal is removed from the labels and from the similarities *)
  rewrite (mat_bool_index_rows (fun i j => negb (i =? j))
             (fun i j => j mod N =? i mod N) (fun _ => idx) idx).
  cbn [mbind result_bind]. rewrite <- HM at 1.
  rewrite (view_rows_map (M - 1)) by
    (try exact Hidx; intros i Hi%in_seq; rewrite length_map; apply off_diagonal_length; lia).
  cbn [mbind result_bind].
  rewrite (mat_bool_index_rows (fun i j => negb (i =? j)) f (fun _ => idx) idx).
  cbn [mbind result_bind]. rewrite <- HM at 1.
  rewrite (view_rows_map (M - 1)) by
    (try exact Hidx; intros i Hi%in_seq; rewrite length_map; apply off_diagonal_length; lia).
  cbn [mbind result_bind].
  (* positives *)
  rewrite (mat_bool_index_rows (fun i j => j mod N =? i mod N) f
             (fun i => List.filter (fun j => negb (i =? j)) idx) idx).
  cbn [mbind result_bind]. rewrite !length_map.
  rewrite (view_rows_map 1) by
    (try exact Hidx; intros i Hi%in_seq; rewrite length_map;
     unfold idx, M; rewrite positives_of_row by lia; reflexivity).
  cbn [mbind result_bind].
  (* negatives *)
  rewrite (mat_not_rows (fun i j => j mod N =? i mod N)
             (fun i => List.filter (fun j => negb (i =? j)) idx) idx).
  rewrite (mat_bool_index_rows (fun i j => negb (j mod N =? i mod N)) f
             (fun i => List.filter (fun j => negb (i =? j)) idx) idx).
  cbn [mbind result_bind]. rewrite ?length_map.
  rewrite (view_rows_map (M - 2)) by
    (try exact Hidx; intros i Hi%in_seq; rewrite length_map;
     unfold idx, M; apply negatives_length; lia).
  cbn [mbind result_bind].
  unfold cat_dim1. rewrite !length_map, Nat.eqb_refl, zip_with_map_same. f_equal.
  apply map_ext_in. intros i Hi%in_seq. unfold info_nce_row, idx, M.
  rewrite positives_of_row, negatives_of_row by lia. reflexivity.
Qed.

End InfoNCE.

Section InfoNCELogits.
Local Open Scope nat_scope.

Lemma cosine_similarities_tabulate (features : Mat) :
  cosine_similarities features
  = tabulate (length features)
      (fun i j => dot (l2_normalize (nth i features [])) (l2_normalize (nth j features []))).
Proof.
  unfold cosine_similarities, matmul_T, tabulate.
  rewrite (map_tabulate _ (map l2_normalize features) (l2_normalize [])), length_map.
  apply map_ext. intros i.
  rewrite (map_tabulate _ (map l2_normalize features) (l2_normalize [])), length_map.
  apply map_ext. intros j. by rewrite !map_nth.
Qed.

Lemma info_nce_row_length {A : Type} (N : nat) (f : nat -> nat -> A) (i : nat) :
  0 < N -> i < 2 * N -> length (info_nce_row N f i) = 2 * N - 1.
Proof.
  intros HN Hi. unfold info_nce_row. cbn [length]. rewrite length_map.
  rewrite <- negatives_of_row, negatives_length by assumption. lia.
Qed.



End InfoNCELogits.


(** ** Errors of the supervised contrastive kernel *)

Section SupConErrors.
Local Open Scope nat_scope.
Variables (temperature : R) (contrast_mode : string) (base_temperature : R).

#[local] Abbreviation forward := (SupConLoss_forward temperature contrast_mode base_temperature).

Lemma check_Raise (b : bool) (e : exn) (x : exn) : check b e = Raise x -> b = false /\ x = e.
Proof. destruct b; [discriminate|]. by intros [= <-]. Qed.

(** Without labels and mask the kernel runs on the identity mask. *)
Lemma forward_simclr (features : Tensor) :
  forward features None None
  = forward features None (Some (eye_mask (nth 0 (shape features) 0))).
Proof. reflexivity. Qed.




End SupConErrors.



(** ** The positive mask of the supervised contrastive kernel *)

Section PositiveMask.
Local Open Scope nat_scope.

Lemma lookup_concat_replicate {A : Type} (r : nat) (l : list A) (i : nat) :
  i < r * length l -> concat (replicate r l) !! i = l !! (i mod length l).
Proof.
  revert i. induction r as [|r IH]; intros i Hi; [lia|].
  cbn [replicate concat]. destruct (Nat.lt_ge_cases i (length l)) as [Hlt|Hge].
  - rewrite lookup_app_l by exact Hlt. by rewrite Nat.mod_small.
  - rewrite lookup_app_r by exact Hge. rewrite IH by lia.
    replace i with ((i - length l) + 1 * length l) at 2 by lia.
    by rewrite Nat.Div0.mod_add.
Qed.

Lemma length_concat_replicate {A : Type} (r : nat) (l : list A) :
  length (concat (replicate r l)) = r * length l.
Proof. induction r as [|r IH]; simpl; [reflexivity|]. rewrite length_app, IH. lia. Qed.

Lemma mat_repeat_length (m : Mat) (r c : nat) :
  length (mat_repeat m r c) = r * length m.
Proof. unfold mat_repeat. by rewrite length_concat_replicate, length_map. Qed.

Lemma mat_repeat_lookup (m : Mat) (r c i : nat) :
  i < r * length m ->
  mat_repeat m r c !! i
  = (fun row => concat (replicate c row)) <$> (m !! (i mod length m)).
Proof.
  intros Hi. unfold mat_repeat, Mat in *.
  rewrite lookup_concat_replicate by (by rewrite length_map).
  by rewrite length_map, list_lookup_fmap.
Qed.

Lemma positive_mask_length (m : Mat) (r c : nat) :
  length (positive_mask m r c) = r * length m.
Proof.
  unfold positive_mask, mat_mul, logits_mask_of.
  rewrite length_zip_with_l_eq; [apply mat_repeat_length|].
  by rewrite length_imap.
Qed.

Lemma logits_mask_lookup (m : Mat) (i : nat) (row : list R) :
  m !! i = Some row ->
  logits_mask_of m !! i = Some (<[i := 0%R]> (replicate (length row) 1%R)).
Proof. intros Hm. unfold logits_mask_of, Mat in *. by rewrite list_lookup_imap, Hm. Qed.

Lemma positive_mask_lookup (m : Mat) (r c i : nat) (row : list R) :
  mat_repeat m r c !! i = Some row ->
  positive_mask m r c !! i
  = Some (zip_with Rmult row (<[i := 0%R]> (replicate (length row) 1%R))).
Proof.
  intros Hrow. pose proof (logits_mask_lookup _ _ _ Hrow) as Hlm.
  unfold positive_mask, mat_mul, Mat in *.
  rewrite lookup_zip_with, Hrow, Hlm. reflexivity.
Qed.

Lemma Rsum_nonneg (l : list R) : Forall (fun y => 0 <= y)%R l -> (0 <= Rsum l)%R.
Proof. induction 1 as [|y l Hy _ IH]; simpl; lra. Qed.

Lemma Rsum_ge_lookup (l : list R) (j : nat) (x : R) :
  Forall (fun y => 0 <= y)%R l -> l !! j = Some x -> (x <= Rsum l)%R.
Proof.
  intros Hall. revert j. induction Hall as [|y l Hy Hall IH]; intros [|j] Hj; try done.
  - injection Hj as ->. simpl. pose proof (Rsum_nonneg l Hall). lra.
  - simpl in *. specialize (IH j Hj). lra.
Qed.

(** A row of non-negative values, multiplied by the row of ones with a zero
    at position [i], sums to at least each of its entries other than the one
    at [i]. *)
Lemma masked_sum_lower (vals : list R) (i j : nat) (x : R) :
  Forall (fun y => 0 <= y)%R vals -> vals !! j = Some x -> j <> i ->
  (x <= Rsum (zip_with Rmult vals (<[i := 0%R]> (replicate (length vals) 1%R))))%R.
Proof.
  intros Hall Hj Hne.
  apply (Rsum_ge_lookup _ j).
  - apply Forall_lookup. intros k z Hk.
    apply lookup_zip_with_Some in Hk as (a & b & -> & Ha & Hb).
    pose proof (Forall_lookup_1 _ _ _ _ Hall Ha) as Hpos. cbv beta in Hpos.
    destruct (decide (i = k)) as [->|Hik].
    + rewrite list_lookup_insert_eq in Hb
        by (rewrite length_replicate; by eapply lookup_lt_Some).
      injection Hb as <-. lra.
    + rewrite list_lookup_insert_ne in Hb by done.
      apply lookup_replicate in Hb as [-> _]. lra.
  - rewrite lookup_zip_with, Hj, list_lookup_insert_ne by done.
    rewrite lookup_replicate_2 by (by eapply lookup_lt_Some). simpl. f_equal. lra.
Qed.

Lemma other_view_spec (B V i : nat) :
  0 < B -> 2 <= V -> i < V * B ->
  other_view B i < V * B /\ other_view B i <> i
  /\ other_view B i mod B = i mod B.
Proof.
  intros HB HV Hi. unfold other_view. destruct (Nat.ltb_spec i B) as [Hlt|Hge].
  - split; [nia|]. split; [lia|].
    replace (i + B) with (i + 1 * B) by lia. apply Nat.Div0.mod_add.
  - split; [lia|]. split; [lia|].
    replace i with ((i - B) + 1 * B) at 2 by lia. by rewrite Nat.Div0.mod_add.
Qed.

Lemma label_mask_lookup (labels : list Z) (a : nat) (la : Z) :
  labels !! a = Some la ->
  label_mask labels !! a = Some (map (fun lj => if Z.eqb la lj then 1%R else 0%R) labels).
Proof. intros Ha. unfold label_mask, Mat. by rewrite list_lookup_fmap, Ha. Qed.

(** The row of the tiled label mask of an anchor: its entries are 0 or 1,
    and it holds a 1 in the column of another view of the same sample. *)
Lemma tiled_label_row (labels : list Z) (V i : nat) :
  let B := length labels in
  0 < B -> 2 <= V -> i < V * B ->
  exists row,
    mat_repeat (label_mask labels) V V !! i = Some row
    /\ length row = V * B
    /\ Forall (fun y => 0 <= y)%R row
    /\ row !! other_view B i = Some 1%R.
Proof.
  intros B HB HV Hi.
  assert (Hlm : length (label_mask labels) = B) by (unfold label_mask; apply length_map).
  assert (Ha : i mod B < B) by (apply Nat.mod_upper_bound; lia).
  destruct (lookup_lt_is_Some_2 labels (i mod B) Ha) as [la Hla].
  set (mrow := map (fun lj => if Z.eqb la lj then 1%R else 0%R) labels).
  assert (Hmlen : length mrow = B) by apply length_map.
  exists (concat (replicate V mrow)).
  destruct (other_view_spec B V i HB HV Hi) as (Ho1 & Ho2 & Ho3).
  split; [|split; [|split]].
  - rewrite mat_repeat_lookup by (rewrite Hlm; exact Hi).
    by rewrite Hlm, (label_mask_lookup labels _ la Hla).
  - by rewrite length_concat_replicate, Hmlen.
  - apply Forall_concat, Forall_replicate. apply Forall_fmap, Forall_forall.
    intros lj _. simpl. destruct (Z.eqb la lj); lra.
  - rewrite lookup_concat_replicate by (rewrite Hmlen; exact Ho1).
    rewrite Hmlen, Ho3. unfold mrow. rewrite list_lookup_fmap, Hla. simpl.
    by rewrite Z.eqb_refl.
Qed.

(** With at least two views, every anchor row of the positive mask built
    from labels sums to at least 1. *)
Lemma positive_count_ge_1 (labels : list Z) (V i : nat) (row : list R) :
  2 <= V ->
  positive_mask (label_mask labels) V V !! i = Some row ->
  (1 <= Rsum row)%R.
Proof.
  intros HV Hrow.
  assert (Hi : i < V * length labels).
  { apply lookup_lt_Some in Hrow. rewrite positive_mask_length in Hrow.
    unfold label_mask in Hrow. by rewrite length_map in Hrow. }
  assert (HB : 0 < length labels) by (destruct (length labels); lia).
  destruct (tiled_label_row labels V i HB HV Hi) as (trow & Ht & Hlen & Hnn & Hone).
  rewrite (positive_mask_lookup _ _ _ _ _ Ht) in Hrow. injection Hrow as <-.
  destruct (other_view_spec (length labels) V i HB HV Hi) as (_ & Hne & _).
  by apply (masked_sum_lower trow i (other_view (length labels) i)).
Qed.

End PositiveMask.

Section SupConFinite.
Local Open Scope nat_scope.

Lemma length_flat_map_uniform {A C : Type} (f : A -> list C) (l : list A) (n : nat) :
  (forall x, length (f x) = n) -> length (flat_map f l) = length l * n.
Proof.
  intros Hf. induction l as [|x l IH]; simpl; [reflexivity|].
  rewrite length_app, Hf, IH. lia.
Qed.

Lemma same_shape_label_mask (labels : list Z) :
  same_shape (label_mask labels)
    (replicate (length labels) (replicate (length labels) 0%R)) = true.
Proof.
  unfold same_shape, label_mask.
  rewrite length_map, length_replicate, Nat.eqb_refl. simpl.
  apply forallb_forall. intros [r1 r2] Hin%list_elem_of_In%elem_of_zip_with.
  destruct Hin as (x & y & [= -> ->] & Hx & Hy).
  apply list_elem_of_fmap in Hx as (la & -> & _).
  apply elem_of_replicate in Hy as [-> _].
  simpl. rewrite length_map, length_replicate. apply Nat.eqb_refl.
Qed.




End SupConFinite.

(** ** Positive counts *)

Section PositiveCount.
Local Open Scope nat_scope.


End PositiveCount.


(** * Further properties of the code *)

(** ** Checkpoints of different stages *)

Section StagePaths.
Local Open Scope string_scope.
#[local] Arguments String.append !_ _ / : simpl nomatch.

(** [str(i)] determines [i]. *)
Lemma py_str_inj (i j : Z) : py_str i = py_str j -> i = j.
Proof.
  unfold py_str. intros Heq. apply DecimalZ.to_int_inj.
  assert (Hparse : forall z, NilZero.int_of_string (NilZero.string_of_int (Z.to_int z))
                             = Some (Z.to_int z)).
  { intros z. apply NilZero.isi; destruct z; simpl; try discriminate;
      intros [= E]; by apply Unsigned.to_uint_nonnil in E. }
  pose proof (Hparse i) as Hi. rewrite Heq, Hparse in Hi. congruence.
Qed.


Lemma no_underscore_uint (d : Decimal.uint) : no_underscore (NilEmpty.string_of_uint d).
Proof. induction d; simpl; (exact I || (split; [discriminate | assumption])). Qed.

Lemma py_str_no_underscore (i : Z) : no_underscore (py_str i).
Proof.
  unfold py_str, NilZero.string_of_int, NilZero.string_of_uint.
  destruct (Z.to_int i) as [d|d]; destruct d; simpl;
    repeat split; try discriminate; apply no_underscore_uint.
Qed.

(** Two strings without underscores, each followed by an underscore, are
    cut at the same place. *)
Lemma split_at_underscore (a b x y : string) :
  no_underscore a -> no_underscore b ->
  a ++ String "_" x = b ++ String "_" y -> a = b /\ x = y.
Proof.
  revert b. induction a as [|c a IH]; intros [|c' b] Ha Hb Heq; simpl in *.
  - injection Heq as ->. done.
  - injection Heq as <- _. by destruct Hb.
  - injection Heq as -> _. by destruct Ha.
  - injection Heq as -> Heq. destruct Ha as [_ Ha], Hb as [_ Hb].
    destruct (IH b Ha Hb Heq) as [-> ->]. done.
Qed.

(** The path of a checkpoint determines its stage and its suffix. *)
Lemma stage_path_inj (args : Args) (i j : Z) (x y : string) :
  os_path_join (model_path args) [stage_stem args i ++ String "_" x]
  = os_path_join (model_path args) [stage_stem args j ++ String "_" y] ->
  i = j /\ x = y.
Proof.
  assert (Hre : forall k z, stage_stem args k ++ String "_" z
                   = (ccd_model args ++ "_stage_") ++ (py_str k ++ String "_" z)).
  { intros k z. unfold stage_stem. by rewrite !string_app_assoc. }
  unfold os_path_join. cbn [fold_left]. rewrite !Hre.
  destruct (join_step_stem (model_path args) (ccd_model args ++ "_stage_")
              ltac:(apply string_app_nonempty_r; discriminate)) as [q Hq].
  rewrite !Hq.
  intros Heq%string_app_inj_l.
  apply split_at_underscore in Heq as [Hs ->]; try apply py_str_no_underscore.
  split; [by apply py_str_inj | reflexivity].
Qed.

End StagePaths.

Section StageFrame.
Context `{Collab}.

Lemma other_stage_paths (args : Args) (i j : Z) (p : string) :
  i <> j ->
  p ∈ [latest_model_path args j; latest_proj_head_path args j;
       best_model_path args j; best_proj_head_path args j] ->
  p ∉ [latest_model_path args i; latest_proj_head_path args i;
       best_model_path args i; best_proj_head_path args i].
Proof.
  intros Hij Hj Hi. set_unfold.
  unfold latest_model_path, latest_proj_head_path, best_model_path, best_proj_head_path,
    latest_model_name, latest_proj_head_name, best_model_name, best_proj_head_name in *.
  destruct_or! Hj; destruct_or! Hi; try done; subst p;
    match goal with
    | E : os_path_join _ [stage_stem _ _ ++ String "_" ?x]%string
          = os_path_join _ [stage_stem _ _ ++ String "_" ?y]%string |- _ =>
        apply stage_path_inj in E as [E _]; congruence
    end.
Qed.

(** X1.  [fit] at stage [i] changes the disk at the four checkpoint paths
    of stage [i] only; in particular it leaves the checkpoints of every
    other stage of the same run as they are. *)
Theorem X1_fit_disk_frame (self : PromptCCD_Model) (train_loader : TrainLoader)
    (val_loader : dataset) (fs : gmap string blob) :
  let args := self_args self in
  let i := self_stage_i self in
  let st := (fit self train_loader val_loader fs).1 in
  (forall p,
     p ∉ [latest_model_path args i; latest_proj_head_path args i;
          best_model_path args i; best_proj_head_path args i] ->
     st_fs st !! p = fs !! p)
  /\ (forall j p,
        j <> i ->
        p ∈ [latest_model_path args j; latest_proj_head_path args j;
             best_model_path args j; best_proj_head_path args j] ->
        st_fs st !! p = fs !! p).
Proof.
  intros args i st.
  destruct (fit_gate_inv args i train_loader val_loader self fs eq_refl eq_refl)
    as [hi Hinv].
  assert (Hframe : forall p,
            p ∉ [latest_model_path args i; latest_proj_head_path args i;
                 best_model_path args i; best_proj_head_path args i] ->
            st_fs st !! p = fs !! p).
  { intros p Hp. destruct (gi_fs _ _ _ _ _ Hinv p) as [[Heq _]|(e & b & Hin & _)].
    - exact Heq.
    - exfalso. apply Hp. exact (proj1 (gi_saves _ _ _ _ _ Hinv e p b Hin)). }
  split; [exact Hframe|].
  intros j p Hji Hp. apply Hframe. apply (other_stage_paths args i j); [congruence | exact Hp].
Qed.

End StageFrame.

(** X1, witness: a best checkpoint of stage 0 on the disk survives the run
    of stage 1. *)
Lemma X1_fit_disk_frame_witness :
  let fs : gmap string blob := {[ best_model_path demo_args 0 := BModel 7%nat ]} in
  let st := (fit (demo_self demo_args 1) demo_loader [1 # 10; 5 # 100]%Q fs).1 in
  st_fs st !! best_model_path demo_args 0 = Some (BModel 7%nat).
Proof.
  intros fs st.
  pose proof (X1_fit_disk_frame (demo_self demo_args 1) demo_loader [1 # 10; 5 # 100]%Q fs)
    as HX.
  cbv zeta in HX. destruct HX as [_ HX].
  unfold st. rewrite (HX 0 (best_model_path demo_args 0)).
  - apply lookup_singleton_eq.
  - discriminate.
  - cbn [self_args demo_self]. apply list_elem_of_further, list_elem_of_further,
      list_elem_of_here.
Defined.

(** ** The content of the best checkpoint *)

Section BestContent.
Context `{Collab}.
Variables (args : Args) (stage_i : Z).

Lemma gate_step_best_content (v : CkptView) (g : Gate) :
  (0 <= cv_best v)%Q ->
  best_content args stage_i v -> best_content args stage_i (gate_step args stage_i v g).
Proof.
  intros Hnn Hv. unfold best_content in *.
  destruct (stage_paths_distinct args stage_i) as (D1 & D2 & D3 & D4 & D5 & D6).
  unfold gate_step. destruct (Qlt_le_dec (cv_best v) (g_acc g)) as [Hlt|Hle].
  - intros _. cbn [cv_best cv_events cv_fs].
    exists (g_epoch g), (g_model g), (g_head g).
    repeat split; try (set_unfold; tauto).
    + rewrite lookup_insert_ne by congruence. apply lookup_insert_eq.
    + apply lookup_insert_eq.
  - cbn [cv_best cv_events cv_fs]. intros Hpos.
    destruct (Hv Hpos) as (e & m & h & H1 & H2 & H3 & H4 & H5 & H6 & H7).
    exists e, m, h. repeat split; try (set_unfold; tauto).
    + by rewrite !lookup_insert_ne by congruence.
    + by rewrite !lookup_insert_ne by congruence.
Qed.

Lemma gate_run_best_content (gs : list Gate) (v : CkptView) :
  (0 <= cv_best v)%Q ->
  best_content args stage_i v ->
  best_content args stage_i (fold_left (gate_step args stage_i) gs v).
Proof.
  revert v. induction gs as [|g gs IH]; intros v Hnn Hv; simpl; [exact Hv|].
  apply IH; [|by apply gate_step_best_content].
  eapply Qle_trans; [exact Hnn | apply gate_step_best_mono].
Qed.

Lemma fit_best_content (self : PromptCCD_Model) (train_loader : TrainLoader)
    (val_loader : dataset) (fs : gmap string blob) :
  self_args self = args -> self_stage_i self = stage_i ->
  best_content args stage_i (ckpt_view (fit self train_loader val_loader fs).1).
Proof.
  intros Hargs Hstage. unfold fit. rewrite Hargs, Hstage, trainer_bind_eq.
  destruct (fit_range_ckpt args stage_i train_loader val_loader
              (Z.to_nat (epochs args)) 0 (fit_init self fs)) as (gs & _ & Hv).
  unfold py_range.
  assert (Hinit : best_content args stage_i
                    (fold_left (gate_step args stage_i) gs (ckpt_view (fit_init self fs)))).
  { apply gate_run_best_content; [apply Qle_refl|].
    intros Hpos. by apply Qlt_irrefl in Hpos. }
  destruct (fit_loop _ _ _ _ _ _) as [st [[]|x]]; cbn [fst] in *.
  - rewrite trainer_bind_eq. unfold get.
    change (best_content args stage_i (ckpt_view st)). by rewrite Hv.
  - by rewrite Hv.
Qed.

End BestContent.

Section BestRoundTrip.
Context `{Collab}.

(** X2.  If some evaluation gate of the stage returned an accuracy above 0,
    then after [fit] the two best files hold the backbone and the
    projection head that were saved at one gate, whose accuracy is the
    largest of all gates; and [__init__] of stage [i + 1] restores exactly
    this pair (for [n_stage] not zero). *)
Theorem X2_best_checkpoint_round_trip (self : PromptCCD_Model)
    (train_loader : TrainLoader) (val_loader : dataset) (fs : gmap string blob) :
  let args := self_args self in
  let i := self_stage_i self in
  let st := (fit self train_loader val_loader fs).1 in
  n_stage args <> 0 ->
  (exists e a, EvEval e a ∈ st_trace st /\ (0 < a)%Q) ->
  exists e m h K,
    EvEval e (st_best st) ∈ st_trace st
    /\ (forall e' a', EvEval e' a' ∈ st_trace st -> (a' <= st_best st)%Q)
    /\ EvSave e (latest_model_path args i) (BModel m) ∈ st_trace st
    /\ EvSave e (latest_proj_head_path args i) (BHead h) ∈ st_trace st
    /\ st_fs st !! best_model_path args i = Some (BModel m)
    /\ st_fs st !! best_proj_head_path args i = Some (BHead h)
    /\ compute_K args (i + 1) = Ok K
    /\ forall prev,
         PromptCCD_Model_init args (Some prev) (i + 1) (st_fs st)
         = Ok {| self_args := args; self_stage_i := i + 1; self_model := m;
                 self_projection_head := h; self_gmm_prompt := GMMPrompt args K |}.
Proof.
  intros args i st Hn (e0 & a0 & Hin0 & Hpos0).
  destruct (fit_gate_inv args i train_loader val_loader self fs eq_refl eq_refl)
    as [hi Hinv].
  pose proof (fit_best_content args i self train_loader val_loader fs eq_refl eq_refl)
    as Hbest.
  fold st in Hinv, Hbest.
  assert (Hpos : (0 < cv_best (ckpt_view st))%Q).
  { eapply Qlt_le_trans; [exact Hpos0|].
    apply (gi_upper _ _ _ _ _ Hinv e0 a0). by apply eval_in_view. }
  destruct (Hbest Hpos) as (e & m & h & H1 & H2 & H3 & _ & _ & H6 & H7).
  destruct (compute_K args (i + 1)) as [K|x] eqn:HK.
  2:{ rewrite compute_K_eq in HK by exact Hn. discriminate. }
  exists e, m, h, K. split; [by apply eval_in_view|]. split.
  { intros e' a' Hin'. apply (gi_upper _ _ _ _ _ Hinv e' a'). by apply eval_in_view. }
  split; [by apply save_in_view|]. split; [by apply save_in_view|].
  split; [exact H6|]. split; [exact H7|]. split; [reflexivity|].
  intros prev. unfold PromptCCD_Model_init, torch_load.
  destruct (restore_paths args i) as [-> ->].
  change (st_fs st) with (cv_fs (ckpt_view st)). rewrite H6, H7.
  cbn [mbind result_bind load_model_state load_head_state]. rewrite HK. reflexivity.
Qed.

End BestRoundTrip.

(** X2, witness: in the sample run the gates return 0.1, 0.05, 0.3, 0.2 and
    0.4, and stage 2 is restored from the best files of stage 1. *)
Lemma X2_best_checkpoint_round_trip_witness :
  let st := (fit (demo_self demo_args 1) demo_loader
               [1 # 10; 5 # 100; 3 # 10; 2 # 10; 4 # 10]%Q ∅).1 in
  n_stage demo_args <> 0
  /\ (exists e a, EvEval e a ∈ st_trace st /\ (0 < a)%Q)
  /\ exists m h K,
       st_fs st !! best_model_path demo_args 1 = Some (BModel m)
       /\ PromptCCD_Model_init demo_args (Some (5%nat, 5%nat)) 2 (st_fs st)
          = Ok {| self_args := demo_args; self_stage_i := 2; self_model := m;
                  self_projection_head := h; self_gmm_prompt := GMMPrompt demo_args K |}.
Proof.
  intros st.
  pose proof (X2_best_checkpoint_round_trip (demo_self demo_args 1) demo_loader
                [1 # 10; 5 # 100; 3 # 10; 2 # 10; 4 # 10]%Q ∅) as HX.
  cbv zeta in HX. cbn [self_args self_stage_i demo_self] in HX. fold st in HX.
  assert (Hn : n_stage demo_args <> 0) by discriminate.
  assert (Hgate : exists e a, EvEval e a ∈ st_trace st /\ (0 < a)%Q).
  { exists 0, (1 # 10)%Q. split; [|reflexivity]. unfold st. rewrite demo_run_trace.
    apply list_elem_of_further, list_elem_of_here. }
  split; [exact Hn|]. split; [exact Hgate|].
  destruct (HX Hn Hgate) as (e & m & h & K & _ & _ & _ & _ & Hm & _ & _ & Hinit).
  exists m, h, K. split; [exact Hm | apply Hinit].
Defined.

(** ** The ends of the epoch loop *)

Section LoopEnds.
Context `{Collab}.
Variables (args : Args) (stage_i : Z) (train_loader : TrainLoader) (val_loader : dataset).

Lemma for_each_app {A} (l1 l2 : list A) (body : A -> Trainer unit) (st : FitState) :
  for_each (l1 ++ l2) body st
  = match for_each l1 body st with
    | (st', Ok _) => for_each l2 body st'
    | (st', Raise x) => (st', Raise x)
    end.
Proof.
  revert st. induction l1 as [|a l1 IH]; intros st; simpl; [reflexivity|].
  rewrite !trainer_bind_eq. destruct (body a st) as [st' [[]|x]]; [apply IH | reflexivity].
Qed.

(** The evaluation gate leaves the parameters alone and stores them in the
    two latest files. *)
Lemma eval_gate_latest (epoch : Z) (st : FitState) :
  let st' := (eval_gate args stage_i epoch val_loader st).1 in
  st_model st' = st_model st /\ st_head st' = st_head st
  /\ st_fs st' !! latest_model_path args stage_i = Some (BModel (st_model st))
  /\ st_fs st' !! latest_proj_head_path args stage_i = Some (BHead (st_head st)).
Proof.
  destruct (stage_paths_distinct args stage_i) as (D1 & D2 & D3 & D4 & D5 & D6).
  unfold eval_gate. rewrite !trainer_bind_eq. unfold get. simpl.
  destruct (Qlt_le_dec (st_best st) _); simpl; repeat split.
  - rewrite !lookup_insert_ne by congruence. apply lookup_insert_eq.
  - rewrite !lookup_insert_ne by congruence. apply lookup_insert_eq.
  - rewrite !lookup_insert_ne by congruence. apply lookup_insert_eq.
  - apply lookup_insert_eq.
Qed.

(** An epoch that is a gate and does not raise ends with the parameters in
    the two latest files. *)
Lemma fit_epoch_latest (epoch : Z) (st st' : FitState) :
  fit_epoch args stage_i train_loader val_loader epoch st = (st', Ok tt) ->
  epoch `mod` eval_every_n_epoch args = 0 ->
  st_fs st' !! latest_model_path args stage_i = Some (BModel (st_model st'))
  /\ st_fs st' !! latest_proj_head_path args stage_i = Some (BHead (st_head st')).
Proof.
  unfold fit_epoch. rewrite trainer_bind_eq.
  destruct (refit_gate args stage_i epoch train_loader st) as [st1 [[]|x]]; [|discriminate].
  rewrite trainer_bind_eq.
  destruct (for_each _ _ st1) as [st2 [[]|x]]; [|discriminate].
  rewrite !trainer_bind_eq. unfold modify, lift, py_mod. cbn iota beta.
  destruct (eval_every_n_epoch args =? 0); [discriminate|].
  rewrite trainer_bind_eq. intros Hrun Hmod. rewrite Hmod in Hrun. cbn [Z.eqb] in Hrun.
  match type of Hrun with eval_gate _ _ _ _ ?s = _ =>
    pose proof (eval_gate_latest epoch s) as Hl end.
  rewrite Hrun in Hl. cbn [fst] in Hl. destruct Hl as (Hm & Hh & Hfm & Hfh).
  rewrite Hm, Hh. split; assumption.
Qed.

End LoopEnds.

Section FitEnds.
Context `{Collab}.

(** X3.  When [fit] returns and its last epoch is an evaluation gate (as in
    every run with [eval_every_n_epoch = 1]), the two latest files of the
    stage hold exactly the backbone and the projection head that [fit]
    returns. *)
Theorem X3_latest_checkpoint_is_returned (self : PromptCCD_Model)
    (train_loader : TrainLoader) (val_loader : dataset) (fs : gmap string blob)
    (st : FitState) (m : backbone) (h : head) :
  let args := self_args self in
  let i := self_stage_i self in
  0 < epochs args ->
  (epochs args - 1) `mod` eval_every_n_epoch args = 0 ->
  fit self train_loader val_loader fs = (st, Ok (m, h)) ->
  st_fs st !! latest_model_path args i = Some (BModel m)
  /\ st_fs st !! latest_proj_head_path args i = Some (BHead h).
Proof.
  intros args i Hep Hmod. unfold fit. fold args i. rewrite trainer_bind_eq.
  unfold fit_loop, py_range.
  destruct (Z.to_nat (epochs args)) as [|k] eqn:Hk; [lia|].
  rewrite seq_S, map_app, for_each_app. cbn [map for_each Nat.add].
  destruct (for_each _ _ (fit_init self fs)) as [st1 [[]|x]]; [|discriminate].
  rewrite trainer_bind_eq.
  destruct (fit_epoch args i train_loader val_loader (Z.of_nat k) st1)
    as [st2 [[]|x]] eqn:Hlast; [|discriminate].
  unfold mret, trainer_ret. rewrite trainer_bind_eq. unfold get. intros [= <- <- <-].
  apply (fit_epoch_latest args i train_loader val_loader (Z.of_nat k) st1 st2 Hlast).
  replace (Z.of_nat k) with (epochs args - 1) by lia. exact Hmod.
Qed.

(** X4.  With [epochs <= 0] the epoch loop has no iteration: [fit] returns the
    parameters it was constructed with, and changes neither the disk nor the
    mixture prompt. *)
Theorem X4_fit_no_epochs (self : PromptCCD_Model) (train_loader : TrainLoader)
    (val_loader : dataset) (fs : gmap string blob) :
  epochs (self_args self) <= 0 ->
  fit self train_loader val_loader fs
  = (fit_init self fs, Ok (self_model self, self_projection_head self)).
Proof.
  intros Hep. unfold fit, fit_loop, py_range.
  replace (Z.to_nat (epochs (self_args self))) with 0%nat by lia. reflexivity.
Qed.

(** X5.  With [fit_gmm_every_n_epoch = 0] and at least one epoch, [fit]
    raises [ZeroDivisionError] at the refit gate of epoch 0, before any
    batch is processed and before anything is written. *)
Theorem X5_fit_refit_period_zero (self : PromptCCD_Model) (train_loader : TrainLoader)
    (val_loader : dataset) (fs : gmap string blob) :
  0 < epochs (self_args self) ->
  fit_gmm_every_n_epoch (self_args self) = 0 ->
  fit self train_loader val_loader fs = (fit_init self fs, Raise ZeroDivisionError).
Proof.
  intros Hep Hz. unfold fit, fit_loop, py_range.
  destruct (Z.to_nat (epochs (self_args self))) as [|k] eqn:Hk; [lia|].
  cbn [seq map for_each]. rewrite !trainer_bind_eq.
  unfold fit_epoch. rewrite trainer_bind_eq.
  unfold refit_gate, py_mod. rewrite trainer_bind_eq. unfold lift. rewrite Hz. reflexivity.
Qed.

End FitEnds.

Lemma demo_run_result :
  (fit (demo_self demo_args 1) demo_loader [1 # 10; 5 # 100; 3 # 10; 2 # 10; 4 # 10]%Q ∅).2
  = Ok (0%nat, 0%nat).
Proof. vm_compute. reflexivity. Qed.

Lemma demo_run_pair :
  fit (demo_self demo_args 1) demo_loader [1 # 10; 5 # 100; 3 # 10; 2 # 10; 4 # 10]%Q ∅
  = ((fit (demo_self demo_args 1) demo_loader
        [1 # 10; 5 # 100; 3 # 10; 2 # 10; 4 # 10]%Q ∅).1, Ok (0%nat, 0%nat)).
Proof. rewrite <- demo_run_result. apply surjective_pairing. Qed.

(** X3, witness: the sample run evaluates in every epoch, and its latest
    files hold the pair it returns. *)
Lemma X3_latest_checkpoint_is_returned_witness :
  let st := (fit (demo_self demo_args 1) demo_loader
               [1 # 10; 5 # 100; 3 # 10; 2 # 10; 4 # 10]%Q ∅).1 in
  0 < epochs demo_args /\ (epochs demo_args - 1) `mod` eval_every_n_epoch demo_args = 0
  /\ st_fs st !! latest_model_path demo_args 1 = Some (BModel 0%nat)
  /\ st_fs st !! latest_proj_head_path demo_args 1 = Some (BHead 0%nat).
Proof.
  intros st. split; [reflexivity|]. split; [reflexivity|].
  exact (X3_latest_checkpoint_is_returned (demo_self demo_args 1) demo_loader
           [1 # 10; 5 # 100; 3 # 10; 2 # 10; 4 # 10]%Q ∅ st 0%nat 0%nat
           eq_refl eq_refl demo_run_pair).
Defined.

(** X4, witness: the sample configuration with no epoch. *)
Lemma X4_fit_no_epochs_witness :
  epochs (demo_args_with 0 2 1) <= 0
  /\ fit (demo_self (demo_args_with 0 2 1) 1) demo_batch_loader [] ∅
     = (fit_init (demo_self (demo_args_with 0 2 1) 1) ∅, Ok (0%nat, 0%nat)).
Proof.
  split; [discriminate|].
  apply (X4_fit_no_epochs (demo_self (demo_args_with 0 2 1) 1) demo_batch_loader [] ∅).
  discriminate.
Defined.

(** X5, witness: the sample configuration with a refit period of 0. *)
Lemma X5_fit_refit_period_zero_witness :
  0 < epochs (demo_args_with 5 0 1)
  /\ fit (demo_self (demo_args_with 5 0 1) 1) demo_batch_loader [] ∅
     = (fit_init (demo_self (demo_args_with 5 0 1) 1) ∅, Raise ZeroDivisionError).
Proof.
  split; [reflexivity|].
  apply (X5_fit_refit_period_zero (demo_self (demo_args_with 5 0 1) 1) demo_batch_loader [] ∅);
    reflexivity.
Defined.

Section EvalPeriodZero.
Context `{Collab}.
Variables (args : Args) (stage_i : Z) (train_loader : TrainLoader) (val_loader : dataset).

Lemma train_batches_epoch (epoch : Z) (bs : list Batch) (st : FitState) (P : Event -> Prop) :
  (forall m h g o, P (EvBatch epoch m h g o)) ->
  Forall P (st_trace st) ->
  let st' := (for_each bs (train_batch args stage_i epoch) st).1 in
  Forall P (st_trace st') /\ st_fs st' = st_fs st.
Proof.
  intros HP Hall.
  apply (for_each_preserves (train_batch args stage_i epoch)
           (fun s => Forall P (st_trace s) /\ st_fs s = st_fs st)); [|by split].
  intros b s [Hs Hf]. pose proof (train_batch_spec args stage_i epoch b s) as Hb.
  destruct (train_batch args stage_i epoch b s) as [s' [[]|x]]; cbn [fst].
  - destruct Hb as (o & _ & _ & Hf' & _ & _ & Ht). split; [|congruence].
    rewrite Ht. apply Forall_app. split; [exact Hs|]. apply Forall_singleton. apply HP.
  - destruct Hb as [-> _]. by split.
Qed.

Lemma for_each_all_ok {A} (body : A -> Trainer unit) (l : list A) (st : FitState) :
  (forall a, a ∈ l -> forall s, exists s', body a s = (s', Ok tt)) ->
  (for_each l body st).2 = Ok tt.
Proof.
  revert st. induction l as [|b bs IH]; intros s Hok; [reflexivity|].
  simpl. rewrite trainer_bind_eq.
  destruct (Hok b ltac:(by left) s) as [s' ->]. apply IH.
  intros b' Hb'. apply Hok. by right.
Qed.

(** Without an evaluation period an epoch always raises, having written
    nothing. *)
Lemma fit_epoch_eval_period_zero (epoch : Z) (st : FitState) (P : Event -> Prop) :
  eval_every_n_epoch args = 0 ->
  P (EvGmmFit epoch) -> (forall m h g o, P (EvBatch epoch m h g o)) ->
  Forall P (st_trace st) ->
  exists st' x,
    fit_epoch args stage_i train_loader val_loader epoch st = (st', Raise x)
    /\ st_fs st' = st_fs st /\ Forall P (st_trace st')
    /\ ((forall b, b ∈ tl_contrast train_loader epoch ->
           forall s, exists s', train_batch args stage_i epoch b s = (s', Ok tt)) ->
        fit_gmm_every_n_epoch args <> 0 -> x = ZeroDivisionError).
Proof.
  intros Hz Pg Pb Hall. unfold fit_epoch. rewrite trainer_bind_eq.
  pose proof (refit_gate_spec args stage_i train_loader epoch st) as H1.
  assert (Hr1 : fit_gmm_every_n_epoch args <> 0 ->
                (refit_gate args stage_i epoch train_loader st).2 = Ok tt).
  { intros Hn. unfold refit_gate, py_mod. rewrite trainer_bind_eq. unfold lift.
    destruct (Z.eqb_spec (fit_gmm_every_n_epoch args) 0); [contradiction|].
    destruct (_ =? 0); reflexivity. }
  destruct (refit_gate args stage_i epoch train_loader st) as [st1 r1].
  destruct H1 as (_ & Hf1 & _ & _ & _ & Ht1).
  assert (Hall1 : Forall P (st_trace st1)).
  { destruct Ht1 as [-> | [-> _]]; [exact Hall|]. apply Forall_app. split; [exact Hall|].
    by apply Forall_singleton. }
  destruct r1 as [[]|x].
  2:{ exists st1, x. repeat split; try assumption. intros _ Hn.
      specialize (Hr1 Hn). discriminate. }
  rewrite trainer_bind_eq.
  pose proof (train_batches_epoch epoch (tl_contrast train_loader epoch) st1 P Pb Hall1)
    as [Hall2 Hf2].
  assert (Hr2 : (forall b, b ∈ tl_contrast train_loader epoch ->
                   forall s, exists s', train_batch args stage_i epoch b s = (s', Ok tt)) ->
                (for_each (tl_contrast train_loader epoch)
                   (train_batch args stage_i epoch) st1).2 = Ok tt).
  { apply for_each_all_ok. }
  destruct (for_each _ _ st1) as [st2 r2]. cbn [fst snd] in *.
  destruct r2 as [[]|x].
  2:{ exists st2, x. repeat split; try assumption; [congruence|]. intros Hok _.
      specialize (Hr2 Hok). discriminate. }
  rewrite !trainer_bind_eq. unfold modify, lift, py_mod. cbn iota beta.
  rewrite Hz. cbn [Z.eqb]. eexists _, _. split; [reflexivity|]. cbn.
  repeat split; try assumption. congruence.
Qed.

End EvalPeriodZero.

Section FitEvalPeriodZero.
Context `{Collab}.

(** X6.  With [eval_every_n_epoch = 0] and at least one epoch, [fit] never
    returns: it raises within epoch 0, no evaluation is run and no file is
    written.  If the refit period is not zero and the batches of epoch 0 do
    not raise, the exception is the [ZeroDivisionError] of line 132, raised
    after the whole first epoch has been trained. *)
Theorem X6_fit_eval_period_zero (self : PromptCCD_Model) (train_loader : TrainLoader)
    (val_loader : dataset) (fs : gmap string blob) :
  let args := self_args self in
  let i := self_stage_i self in
  0 < epochs args ->
  eval_every_n_epoch args = 0 ->
  exists st x,
    fit self train_loader val_loader fs = (st, Raise x)
    /\ st_fs st = fs
    /\ (forall ev, ev ∈ st_trace st -> event_epoch ev = 0 /\ is_ckpt_event ev = false)
    /\ (fit_gmm_every_n_epoch args <> 0 ->
        (forall b, b ∈ tl_contrast train_loader 0 ->
           forall s, exists s', train_batch args i 0 b s = (s', Ok tt)) ->
        x = ZeroDivisionError).
Proof.
  intros args i Hep Hz. unfold fit, fit_loop, py_range. fold args i.
  destruct (Z.to_nat (epochs args)) as [|k] eqn:Hk; [lia|].
  cbn [seq map for_each]. change (Z.of_nat 0) with 0. rewrite !trainer_bind_eq.
  destruct (fit_epoch_eval_period_zero args i train_loader val_loader 0 (fit_init self fs)
              (fun ev => event_epoch ev = 0 /\ is_ckpt_event ev = false) Hz
              ltac:(by split) ltac:(by split) ltac:(by constructor))
    as (st & x & -> & Hfs & Hall & Hx).
  exists st, x. split; [reflexivity|]. split; [exact Hfs|]. split.
  - intros ev Hin. by apply (proj1 (Forall_forall _ _) Hall).
  - intros Hn Hok. by apply Hx.
Qed.

End FitEvalPeriodZero.

(** X6, witness: the sample configuration with an evaluation period of 0,
    on a training set without batches. *)
Lemma X6_fit_eval_period_zero_witness :
  0 < epochs (demo_args_with 5 2 0) /\ eval_every_n_epoch (demo_args_with 5 2 0) = 0
  /\ exists st,
       fit (demo_self (demo_args_with 5 2 0) 1) demo_loader [] ∅
       = (st, Raise ZeroDivisionError)
       /\ st_fs st = ∅.
Proof.
  split; [reflexivity|]. split; [reflexivity|].
  destruct (X6_fit_eval_period_zero (demo_self (demo_args_with 5 2 0) 1) demo_loader [] ∅
              eq_refl eq_refl) as (st & x & Hfit & Hfs & _ & Hx).
  exists st. rewrite Hfit. split; [|exact Hfs]. f_equal. f_equal. apply Hx.
  - discriminate.
  - intros b Hb. by apply elem_of_nil in Hb.
Defined.

(** ** The schedule of a run that returns *)

Section Schedule.
Context `{Collab}.
Variables (args : Args) (stage_i : Z) (train_loader : TrainLoader) (val_loader : dataset).

Lemma for_each_range_ok (body : Z -> Trainer unit) (Inv : Z -> FitState -> Prop) :
  (forall e st st', 0 <= e -> Inv e st -> body e st = (st', Ok tt) -> Inv (e + 1) st') ->
  forall (n a : nat) (st st' : FitState),
    Inv (Z.of_nat a) st ->
    for_each (map Z.of_nat (seq a n)) body st = (st', Ok tt) ->
    Inv (Z.of_nat (a + n)) st'.
Proof.
  intros Hstep n. induction n as [|n IH]; intros a st st' HI; simpl.
  - cbv [mret trainer_ret]. intros [= <-]. by rewrite Nat.add_0_r.
  - rewrite trainer_bind_eq.
    destruct (body (Z.of_nat a) st) as [st1 [[]|x]] eqn:Hb; [|discriminate].
    intros Hrest. replace (a + S n)%nat with (S a + n)%nat by lia.
    apply (IH (S a) st1 st'); [|exact Hrest].
    replace (Z.of_nat (S a)) with (Z.of_nat a + 1) by lia.
    by apply (Hstep _ st); [lia| |].
Qed.

Lemma train_batches_ok (epoch : Z) (bs : list Batch) (st st' : FitState) :
  for_each bs (train_batch args stage_i epoch) st = (st', Ok tt) ->
  exists evs,
    st_trace st' = st_trace st ++ evs
    /\ length evs = length bs
    /\ Forall (fun ev => event_epoch ev = epoch /\ is_batch_event ev = true) evs.
Proof.
  revert st. induction bs as [|b bs IH]; intros st; simpl.
  - cbv [mret trainer_ret]. intros [= <-]. exists []. by rewrite app_nil_r.
  - rewrite trainer_bind_eq.
    pose proof (train_batch_spec args stage_i epoch b st) as Hb.
    destruct (train_batch args stage_i epoch b st) as [st1 [[]|x]]; [|discriminate].
    destruct Hb as (o & _ & _ & _ & _ & _ & Ht). intros Hrest.
    destruct (IH st1 Hrest) as (evs & Ht' & Hlen & Hall).
    eexists (_ :: evs). split; [by rewrite Ht', Ht, <- app_assoc|].
    split; [simpl; by rewrite Hlen|]. constructor; [by split | exact Hall].
Qed.

Lemma eval_gate_trace (epoch : Z) (st : FitState) :
  exists a evs,
    st_trace (eval_gate args stage_i epoch val_loader st).1
    = st_trace st ++ EvEval epoch a :: evs
    /\ Forall (fun ev => exists p b, ev = EvSave epoch p b) evs.
Proof.
  unfold eval_gate. rewrite !trainer_bind_eq. unfold get. simpl.
  destruct (Qlt_le_dec (st_best st) _); simpl; rewrite <- ?app_assoc; simpl;
    eexists _, _; (split; [reflexivity|]); repeat constructor; eauto.
Qed.

(** What one epoch that does not raise adds to the trace: the refit event
    if the epoch is a multiple of the refit period, one batch event for
    every batch of the loader, and the events of the evaluation gate if the
    epoch is a multiple of the evaluation period. *)
Lemma fit_epoch_ok (epoch : Z) (st st' : FitState) :
  fit_epoch args stage_i train_loader val_loader epoch st = (st', Ok tt) ->
  fit_gmm_every_n_epoch args <> 0 /\ eval_every_n_epoch args <> 0
  /\ exists gevs bevs eevs,
       st_trace st' = st_trace st ++ gevs ++ bevs ++ eevs
       /\ gevs = (if epoch `mod` fit_gmm_every_n_epoch args =? 0
                  then [EvGmmFit epoch] else [])
       /\ length bevs = length (tl_contrast train_loader epoch)
       /\ Forall (fun ev => event_epoch ev = epoch /\ is_batch_event ev = true) bevs
       /\ (if epoch `mod` eval_every_n_epoch args =? 0
           then exists a evs, eevs = EvEval epoch a :: evs
                  /\ Forall (fun ev => exists p b, ev = EvSave epoch p b) evs
           else eevs = []).
Proof.
  unfold fit_epoch. rewrite trainer_bind_eq.
  unfold refit_gate, py_mod. rewrite trainer_bind_eq. unfold lift.
  destruct (Z.eqb_spec (fit_gmm_every_n_epoch args) 0) as [E|E]; [discriminate|].
  set (gevs := if epoch `mod` fit_gmm_every_n_epoch args =? 0
               then [EvGmmFit epoch] else []).
  match goal with |- context [(if ?c then ?t else ?e) ?s] =>
    assert (Hg : exists st1, (if c then t else e) s = (st1, Ok tt)
                             /\ st_trace st1 = st_trace st ++ gevs)
  end.
  { unfold gevs. destruct (_ =? 0).
    - eexists. split; [reflexivity|]. reflexivity.
    - eexists. split; [reflexivity|]. simpl. by rewrite app_nil_r. }
  destruct Hg as (st1 & -> & Ht1). rewrite trainer_bind_eq.
  destruct (for_each _ _ st1) as [st2 [[]|x]] eqn:Hbs; [|discriminate].
  apply train_batches_ok in Hbs as (bevs & Ht2 & Hlen & Hall).
  rewrite !trainer_bind_eq. unfold modify. cbn iota beta.
  destruct (Z.eqb_spec (eval_every_n_epoch args) 0) as [E'|E']; [discriminate|].
  rewrite trainer_bind_eq. intros Hrun. split; [exact E|]. split; [exact E'|].
  exists gevs, bevs.
  destruct (epoch `mod` eval_every_n_epoch args =? 0).
  - match type of Hrun with eval_gate _ _ _ _ ?s = _ =>
      destruct (eval_gate_trace epoch s) as (a & evs & Ht3 & Hs) end.
    rewrite Hrun in Ht3. cbn [fst st_trace] in Ht3.
    exists (EvEval epoch a :: evs). split; [by rewrite Ht3, Ht2, Ht1, <- !app_assoc|].
    split; [reflexivity|]. split; [exact Hlen|]. split; [exact Hall|]. eauto.
  - cbv [mret trainer_ret] in Hrun. injection Hrun as <-. cbn [st_trace].
    exists []. split; [by rewrite Ht2, Ht1, app_nil_r, <- !app_assoc|].
    split; [reflexivity|]. split; [exact Hlen|]. split; [exact Hall|]. reflexivity.
Qed.

Lemma filter_all {A : Type} (p : A -> bool) (l : list A) :
  Forall (fun x => p x = true) l -> List.filter p l = l.
Proof. induction 1 as [|x l Hx _ IH]; simpl; [reflexivity | by rewrite Hx, IH]. Qed.

Lemma filter_none {A : Type} (p : A -> bool) (l : list A) :
  Forall (fun x => p x = false) l -> List.filter p l = [].
Proof. induction 1 as [|x l Hx _ IH]; simpl; [reflexivity | by rewrite Hx, IH]. Qed.

(** The events that one epoch that does not raise adds to the trace. *)
Lemma fit_epoch_new_events (epoch : Z) (st st' : FitState) :
  fit_epoch args stage_i train_loader val_loader epoch st = (st', Ok tt) ->
  fit_gmm_every_n_epoch args <> 0 /\ eval_every_n_epoch args <> 0
  /\ exists new,
       st_trace st' = st_trace st ++ new
       /\ Forall (fun ev => event_epoch ev = epoch) new
       /\ (EvGmmFit epoch ∈ new <-> epoch `mod` fit_gmm_every_n_epoch args = 0)
       /\ ((exists a, EvEval epoch a ∈ new) <-> epoch `mod` eval_every_n_epoch args = 0)
       /\ length (batch_events_of epoch new) = length (tl_contrast train_loader epoch).
Proof.
  intros Hrun. apply fit_epoch_ok in Hrun
    as (Hn & Hk & gevs & bevs & eevs & Ht & Hg & Hlen & Hb & He).
  split; [exact Hn|]. split; [exact Hk|].
  exists (gevs ++ bevs ++ eevs). split; [exact Ht|].
  assert (Hgb : Forall (fun ev => event_epoch ev = epoch /\ is_batch_event ev = false) gevs).
  { rewrite Hg. destruct (_ =? 0); repeat constructor. }
  assert (Heb : Forall (fun ev => event_epoch ev = epoch /\ is_batch_event ev = false) eevs).
  { destruct (epoch `mod` eval_every_n_epoch args =? 0).
    - destruct He as (a & evs & -> & Hs). constructor; [by split|].
      eapply Forall_impl; [exact Hs|]. by intros ev (p & b & ->).
    - rewrite He. constructor. }
  split; [|split; [|split]].
  - rewrite !Forall_app. repeat split; (eapply Forall_impl; [eassumption|]);
      by intros ev [? _].
  - rewrite !elem_of_app. split.
    + intros [Hin|[Hin|Hin]].
      * rewrite Hg in Hin. destruct (Z.eqb_spec (epoch `mod` fit_gmm_every_n_epoch args) 0);
          [assumption | by apply elem_of_nil in Hin].
      * by apply (proj1 (Forall_forall _ _) Hb) in Hin as [_ ?].
      * destruct (epoch `mod` eval_every_n_epoch args =? 0).
        -- destruct He as (a & evs & -> & Hs).
           apply elem_of_cons in Hin as [?|Hin]; [discriminate|].
           by apply (proj1 (Forall_forall _ _) Hs) in Hin as (p & b & ?).
        -- rewrite He in Hin. by apply elem_of_nil in Hin.
    + intros Hmod. left. rewrite Hg, Hmod. cbn [Z.eqb]. by left.
  - split.
    + intros [a Hin]. rewrite !elem_of_app in Hin. destruct Hin as [Hin|[Hin|Hin]].
      * rewrite Hg in Hin. destruct (_ =? 0).
        -- apply elem_of_cons in Hin as [?|Hin]; [discriminate | by apply elem_of_nil in Hin].
        -- by apply elem_of_nil in Hin.
      * by apply (proj1 (Forall_forall _ _) Hb) in Hin as [_ ?].
      * destruct (Z.eqb_spec (epoch `mod` eval_every_n_epoch args) 0); [assumption|].
        rewrite He in Hin. by apply elem_of_nil in Hin.
    + intros Hmod. rewrite Hmod in He. cbn [Z.eqb] in He.
      destruct He as (a & evs & -> & _). exists a. rewrite !elem_of_app. right. right.
      by left.
  - unfold batch_events_of. rewrite !List.filter_app, !length_app.
    rewrite (filter_none _ gevs), (filter_all _ bevs), (filter_none _ eevs); simpl.
    + lia.
    + eapply Forall_impl; [exact Heb|]. by intros ev [_ ->].
    + eapply Forall_impl; [exact Hb|]. intros ev [-> ->]. by rewrite Z.eqb_refl.
    + eapply Forall_impl; [exact Hgb|]. by intros ev [_ ->].
Qed.


Lemma batch_events_of_other (e : Z) (tr : list Event) :
  (forall ev, ev ∈ tr -> event_epoch ev <> e) -> batch_events_of e tr = [].
Proof.
  intros Hne. apply filter_none, Forall_forall. intros ev Hin.
  destruct (Z.eqb_spec (event_epoch ev) e) as [E|_]; [by apply Hne in E|].
  apply andb_false_r.
Qed.

Lemma fit_epoch_schedule (E : Z) (st st' : FitState) :
  0 <= E -> schedule_upto args train_loader E (st_trace st) ->
  fit_epoch args stage_i train_loader val_loader E st = (st', Ok tt) ->
  schedule_upto args train_loader (E + 1) (st_trace st').
Proof.
  intros HE [Hold Hsched] Hrun.
  apply fit_epoch_new_events in Hrun as (_ & _ & new & -> & Hnew & Hg & He & Hb).
  pose proof (proj1 (Forall_forall _ _) Hnew) as Hnew'.
  split.
  - intros ev [Hin|Hin]%elem_of_app; [apply Hold in Hin; lia|].
    rewrite (Hnew' ev Hin). lia.
  - intros e Hrange. destruct (Z.eq_dec e E) as [->|Hne].
    + split; [|split].
      * rewrite elem_of_app, Hg. split; [|tauto].
        intros [Hin|Hin]; [|exact Hin]. apply Hold in Hin. simpl in Hin. lia.
      * rewrite <- He. split.
        -- intros [a [Hin|Hin]%elem_of_app]; [|eauto]. apply Hold in Hin. simpl in Hin. lia.
        -- intros [a Hin]. exists a. apply elem_of_app. by right.
      * unfold batch_events_of in *. rewrite List.filter_app, length_app, Hb.
        fold (batch_events_of E (st_trace st)).
        rewrite batch_events_of_other; [reflexivity|].
        intros ev Hin%Hold. lia.
    + destruct (Hsched e ltac:(lia)) as (Hg' & He' & Hb'). split; [|split].
      * rewrite elem_of_app, <- Hg'. split; [|tauto].
        intros [Hin|Hin]; [exact Hin|]. apply Hnew' in Hin. simpl in Hin. lia.
      * rewrite <- He'. split.
        -- intros [a [Hin|Hin]%elem_of_app]; [eauto|]. apply Hnew' in Hin. simpl in Hin. lia.
        -- intros [a Hin]. exists a. apply elem_of_app. by left.
      * unfold batch_events_of in *. rewrite List.filter_app, length_app, Hb'.
        fold (batch_events_of e new).
        rewrite (batch_events_of_other e new); [simpl; lia|].
        intros ev Hin%Hnew'. lia.
Qed.

End Schedule.

Section FitSchedule.
Context `{Collab}.

(** X7.  In a run of [fit] that returns, both periods are not zero (for at
    least one epoch), every event belongs to an epoch of [range(epochs)],
    and in each of these epochs the mixture is refit exactly when the epoch
    is a multiple of [fit_gmm_every_n_epoch], every batch of the contrastive
    loader is processed once, and the model is evaluated (and the latest
    checkpoint written) exactly when the epoch is a multiple of
    [eval_every_n_epoch]; the pair returned is the one trained last. *)
Theorem X7_schedule_of_a_run (self : PromptCCD_Model) (train_loader : TrainLoader)
    (val_loader : dataset) (fs : gmap string blob) (st : FitState)
    (m : backbone) (h : head) :
  let args := self_args self in
  let i := self_stage_i self in
  fit self train_loader val_loader fs = (st, Ok (m, h)) ->
  m = st_model st /\ h = st_head st
  /\ (0 < epochs args ->
      fit_gmm_every_n_epoch args <> 0 /\ eval_every_n_epoch args <> 0)
  /\ (forall ev, ev ∈ st_trace st -> 0 <= event_epoch ev < epochs args)
  /\ forall e, 0 <= e < epochs args ->
       (EvGmmFit e ∈ st_trace st <-> e `mod` fit_gmm_every_n_epoch args = 0)
       /\ ((exists a, EvEval e a ∈ st_trace st) <-> e `mod` eval_every_n_epoch args = 0)
       /\ length (batch_events_of e (st_trace st)) = length (tl_contrast train_loader e).
Proof.
  intros args i. unfold fit. fold args i. rewrite trainer_bind_eq.
  unfold fit_loop, py_range.
  destruct (for_each _ _ (fit_init self fs)) as [st1 [[]|x]] eqn:Hloop; [|discriminate].
  rewrite trainer_bind_eq. unfold get. cbv [mret trainer_ret]. intros [= <- <- <-].
  split; [reflexivity|]. split; [reflexivity|]. split.
  - intros Hep. destruct (Z.to_nat (epochs args)) as [|k] eqn:Hk; [lia|].
    cbn [seq map for_each] in Hloop. rewrite trainer_bind_eq in Hloop.
    destruct (fit_epoch args i train_loader val_loader (Z.of_nat 0) (fit_init self fs))
      as [s [[]|x]] eqn:He; [|discriminate].
    apply fit_epoch_ok in He as (Hn & Hk' & _). by split.
  - pose proof (for_each_range_ok (fit_epoch args i train_loader val_loader)
                  (fun E s => schedule_upto args train_loader E (st_trace s))
                  ltac:(intros E s s' HE Hs Hrun;
                        exact (fit_epoch_schedule args i train_loader val_loader
                                 E s s' HE Hs Hrun))
                  (Z.to_nat (epochs args)) 0%nat (fit_init self fs) st1) as Hsched.
    destruct Hsched as [Hall Hsched]; [|exact Hloop|].
    + split; [intros ev Hin; by apply elem_of_nil in Hin | intros e He; simpl in He; lia].
    + simpl Nat.add in *. split.
      * intros ev Hin. specialize (Hall ev Hin). lia.
      * intros e He. apply Hsched. lia.
Qed.

End FitSchedule.

(** X7, witness: epoch 3 of the sample run is evaluated and has no refit. *)
Lemma X7_schedule_of_a_run_witness :
  let st := (fit (demo_self demo_args 1) demo_loader
               [1 # 10; 5 # 100; 3 # 10; 2 # 10; 4 # 10]%Q ∅).1 in
  (exists a, EvEval 3 a ∈ st_trace st) /\ EvGmmFit 3 ∉ st_trace st.
Proof.
  intros st.
  destruct (X7_schedule_of_a_run (demo_self demo_args 1) demo_loader
              [1 # 10; 5 # 100; 3 # 10; 2 # 10; 4 # 10]%Q ∅ st 0%nat 0%nat demo_run_pair)
    as (_ & _ & _ & _ & Hsched).
  destruct (Hsched 3 ltac:(split; [discriminate | reflexivity])) as (Hg & He & _).
  split.
  - apply He. reflexivity.
  - intros Hin. apply Hg in Hin. discriminate Hin.
Defined.

(** ** Outcomes of the stage lifecycle manager *)

Section InitOutcomes.
Context `{Collab}.


End InitOutcomes.


(** ** Bounds of the component count *)

Section ComponentBounds.

(** X9.  For [n_stage > 0], [labelled_data <= classes] and a stage index
    between 0 and [n_stage], the component count without halving lies
    between [labelled_data] and [classes] and does not decrease from one
    stage to the next.  At the last stage it is
    [classes - (classes - labelled_data) % n_stage]: the mixture reaches
    [classes] components only if [n_stage] divides
    [classes - labelled_data]. *)
Theorem X9_component_count_bounds (args : Args) (stage_i : Z) :
  0 < n_stage args -> labelled_data args <= classes args ->
  set_k_half args = false ->
  0 <= stage_i <= n_stage args ->
  exists K,
    compute_K args stage_i = Ok K
    /\ labelled_data args <= K <= classes args
    /\ (forall j K', stage_i <= j -> compute_K args j = Ok K' -> K <= K')
    /\ compute_K args (n_stage args)
       = Ok (classes args - (classes args - labelled_data args) `mod` n_stage args).
Proof.
  intros Hn Hle Hhalf Hi.
  assert (Hform : forall j, compute_K args j
            = Ok (labelled_data args
                  + j * ((classes args - labelled_data args) / n_stage args))).
  { intros j. unfold compute_K, py_floordiv.
    destruct (Z.eqb_spec (n_stage args) 0); [lia|]. cbn [mbind result_bind].
    by rewrite Hhalf. }
  set (d := classes args - labelled_data args) in *.
  set (n := n_stage args) in *.
  assert (Hq : 0 <= d / n) by (apply Z.div_pos; lia).
  pose proof (Z.div_mod d n ltac:(lia)) as Hdm.
  pose proof (Z.mod_pos_bound d n Hn) as Hmod.
  eexists. split; [apply Hform|]. split; [|split].
  - split; [nia|].
    assert (stage_i * (d / n) <= n * (d / n)) by nia. lia.
  - intros j K' Hj HK'. rewrite Hform in HK'. injection HK' as <-. nia.
  - rewrite Hform. f_equal. lia.
Qed.

End ComponentBounds.

(** X9, witness: with three stages and 50 of 100 classes labelled, the
    last stage has 98 components. *)
Lemma X9_component_count_bounds_witness :
  0 < n_stage demo_args_3 /\ labelled_data demo_args_3 <= classes demo_args_3
  /\ compute_K demo_args_3 3 = Ok 98.
Proof.
  split; [reflexivity|]. split; [discriminate|].
  destruct (X9_component_count_bounds demo_args_3 3 eq_refl ltac:(discriminate) eq_refl
              ltac:(split; discriminate)) as (K & _ & _ & _ & Hlast).
  exact Hlast.
Defined.

(** ** Outcomes of the InfoNCE pair constructor *)

Section InfoNCEOutcomes.
Local Open Scope nat_scope.


Lemma concat_replicate_nil {A : Type} (v : nat) : concat (replicate v (@nil A)) = [].
Proof. induction v as [|v IH]; simpl; [reflexivity | exact IH]. Qed.


Lemma info_nce_pairs_empty {A : Type} (v : nat) :
  v <> 0 -> info_nce_pairs v (@nil (list A)) = Raise RuntimeError.
Proof.
  intros Hv. unfold info_nce_pairs.
  destruct (Nat.eqb_spec v 0) as [|_]; [contradiction|].
  cbn [negb check mbind result_bind]. unfold arange_half.
  change (seq 0 ((length (@nil (list A)) + 1) / 2)) with (@nil nat).
  rewrite concat_replicate_nil. reflexivity.
Qed.

(** The label matrix of line 263 has as many rows as there are labels; when
    this is not the number of rows of the similarity matrix, the mask of
    line 271 does not fit the similarity matrix at line 273. *)
Lemma info_nce_pairs_mismatch {A : Type} (v : nat) (sim : list (list A)) :
  v * ((length sim + 1) / 2) <> 0 ->
  v * ((length sim + 1) / 2) <> length sim ->
  info_nce_pairs v sim = Raise IndexError.
Proof.
  intros HL Hne. unfold info_nce_pairs, arange_half.
  destruct (Nat.eqb_spec v 0) as [->|_]; [by simpl in HL|].
  cbn [negb check mbind result_bind].
  set (lab := concat (replicate v (seq 0 ((length sim + 1) / 2)))).
  assert (Hlab : length lab = v * ((length sim + 1) / 2)).
  { unfold lab. rewrite (length_concat_uniform ((length sim + 1) / 2)).
    - by rewrite length_replicate.
    - apply Forall_forall. intros r Hr%elem_of_replicate. destruct Hr as [-> _].
      apply length_seq. }
  set (L := length lab) in *.
  rewrite length_map. fold L.
  rewrite (map_tabulate (fun li => map (fun lj => lj =? li) lab) lab 0). fold L.
  rewrite (map_ext (fun i => map (fun lj => lj =? nth i lab 0) lab)
                   (fun i => map (fun j => nth j lab 0 =? nth i lab 0) (seq 0 L)))
    by (intros i; apply (map_tabulate (fun lj => lj =? nth i lab 0) lab 0)).
  rewrite mat_not_eye.
  set (idx := seq 0 L).
  assert (Hidx : idx <> []).
  { unfold idx. destruct L; [lia | simpl; discriminate]. }
  rewrite (mat_bool_index_rows (fun i j => negb (i =? j))
             (fun i j => nth j lab 0 =? nth i lab 0) (fun _ => idx) idx).
  cbn [mbind result_bind].
  assert (HL' : length idx = L) by apply length_seq.
  rewrite <- HL' at 1.
  rewrite (view_rows_map (L - 1)) by
    (try exact Hidx; intros i Hi%in_seq; rewrite length_map; apply off_diagonal_length; lia).
  cbn [mbind result_bind].
  unfold mat_bool_index, same_shape. rewrite !length_map, HL'.
  destruct (Nat.eqb_spec L (length sim)) as [E|_]; [lia | reflexivity].
Qed.


Lemma info_nce_logits_two_views (features : Mat) (args : Args) (N : nat) :
  1 <= N -> length features = 2 * N -> n_views args = 2 ->
  info_nce_logits features args
  = Ok (map (fun i =>
               map (fun x => (x / temperature args)%R)
                 (info_nce_row N
                    (fun i j => dot (l2_normalize (nth i features []))
                                    (l2_normalize (nth j features []))) i))
            (seq 0 (2 * N)),
        replicate (2 * N) 0%Z).
Proof.
  intros HN Hlen Hviews. unfold info_nce_logits.
  rewrite Hviews, cosine_similarities_tabulate, Hlen, info_nce_pairs_tabulate by lia.
  cbn [mbind result_bind]. by rewrite map_map, length_map, length_seq.
Qed.


End InfoNCEOutcomes.


(** ** The contrastive loss of a batch *)

Section ContrastiveLoss.
Local Open Scope R_scope.

Lemma mapM_result_Ok {A B : Type} (f : A -> result B) (g : A -> B) (l : list A) :
  (forall x, x ∈ l -> f x = Ok (g x)) -> mapM f l = Ok (map g l).
Proof.
  induction l as [|x l IH]; intros Hf; [reflexivity|].
  cbn [mapM map]. rewrite (Hf x) by (by left). cbn [mbind result_bind].
  rewrite IH by (intros y Hy; apply Hf; by right). reflexivity.
Qed.

Lemma zip_replicate_r {A B : Type} (l : list A) (b : B) :
  zip l (replicate (length l) b) = map (fun a => (a, b)) l.
Proof. induction l as [|a l IH]; simpl; [reflexivity | by rewrite IH]. Qed.

Lemma Rsum_exp_nonneg (l : list R) : 0 <= Rsum (map exp l).
Proof.
  apply Rsum_nonneg, Forall_forall. intros y (x & -> & _)%list_elem_of_fmap.
  left. apply exp_pos.
Qed.

(** The cross entropy of one row against target 0. *)
Lemma cross_entropy_row_first (x : R) (rest : list R) :
  cross_entropy_row (x :: rest) 0%Z = Ok (ln (exp x + Rsum (map exp rest)) - x)
  /\ 0 <= ln (exp x + Rsum (map exp rest)) - x
  /\ (rest = [] -> ln (exp x + Rsum (map exp rest)) - x = 0).
Proof.
  split; [reflexivity|]. split.
  - pose proof (Rsum_exp_nonneg rest) as Hs. pose proof (exp_pos x) as Hx.
    assert (x <= ln (exp x + Rsum (map exp rest))); [|lra].
    rewrite <- (ln_exp x) at 1.
    destruct (Req_dec (Rsum (map exp rest)) 0) as [->|Hne].
    + rewrite Rplus_0_r. lra.
    + left. apply ln_increasing; lra.
  - intros ->. simpl. rewrite Rplus_0_r, ln_exp. lra.
Qed.

Lemma Rsum_zero (l : list R) : Forall (fun y => y = 0) l -> Rsum l = 0.
Proof. induction 1 as [|y l -> _ IH]; simpl; [reflexivity | rewrite IH; lra]. Qed.

(** On rows that are not empty the cross entropy against the targets 0 is
    a real number that is not negative; it is 0 when every row has one
    entry only. *)
Lemma cross_entropy_zero_targets (logits : Mat) :
  logits <> [] -> Forall (fun r => r <> []) logits ->
  exists c,
    cross_entropy logits (replicate (length logits) 0%Z) = Ok (Some c)
    /\ 0 <= c
    /\ (Forall (fun r => length r = 1%nat) logits -> c = 0).
Proof.
  intros Hne Hrows.
  set (g := fun r : list R =>
              match r with
              | [] => 0
              | x :: rest => ln (exp x + Rsum (map exp rest)) - x
              end).
  assert (Hmap : mapM (fun p : list R * Z => cross_entropy_row p.1 p.2)
                   (zip logits (replicate (length logits) 0%Z))
                 = Ok (map g logits)).
  { rewrite zip_replicate_r.
    rewrite (mapM_result_Ok _ (fun p : list R * Z => g p.1)).
    - by rewrite map_map.
    - intros [r t] (r' & [= -> ->] & Hr')%list_elem_of_fmap. simpl.
      pose proof (proj1 (Forall_forall _ _) Hrows r' Hr') as Hr.
      destruct r' as [|x rest]; [contradiction|]. reflexivity. }
  assert (Hg : Forall (fun y => 0 <= y) (map g logits)).
  { apply Forall_forall. intros y (r & -> & Hr)%list_elem_of_fmap.
    pose proof (proj1 (Forall_forall _ _) Hrows r Hr) as Hr'.
    destruct r as [|x rest]; [contradiction|]. apply cross_entropy_row_first. }
  assert (Hlen : INR (length (map g logits)) <> 0).
  { rewrite length_map. apply not_0_INR. by destruct logits. }
  exists (Rsum (map g logits) / INR (length (map g logits))). split; [|split].
  - unfold cross_entropy. rewrite length_replicate, Nat.eqb_refl.
    cbn [check mbind result_bind]. rewrite Hmap. cbn [mbind result_bind].
    unfold xmean, xdiv. destruct (Req_dec_T _ 0) as [E|_]; [contradiction | reflexivity].
  - apply Rmult_le_pos; [by apply Rsum_nonneg|].
    left. apply Rinv_0_lt_compat.
    destruct (Rle_lt_or_eq_dec 0 _ (pos_INR (length (map g logits)))) as [Hlt|E];
      [exact Hlt | congruence].
  - intros Hone. rewrite Rsum_zero; [lra|].
    apply Forall_forall. intros y (r & -> & Hr)%list_elem_of_fmap.
    pose proof (proj1 (Forall_forall _ _) Hone r Hr) as Hr'.
    destruct r as [|x [|x' rest]]; try discriminate.
    by apply cross_entropy_row_first.
Qed.

(** X11.  For a positive, even number [2N] of rows, two views and a
    temperature that is not zero, the contrastive loss of lines 104-105 is a
    real number that is not negative.  With a single sample ([N = 1]) every
    row of logits holds its positive only, and the loss is exactly 0,
    whatever the features are. *)
Theorem X11_contrastive_loss (features : Mat) (args : Args) (N : nat) :
  (1 <= N)%nat -> length features = (2 * N)%nat -> n_views args = 2%nat ->
  temperature args <> 0 ->
  exists logits labels c,
    info_nce_logits features args = Ok (logits, labels)
    /\ cross_entropy logits labels = Ok (Some c)
    /\ 0 <= c
    /\ (N = 1%nat -> c = 0).
Proof.
  intros HN Hlen Hviews _.
  pose proof (info_nce_logits_two_views features args N HN Hlen Hviews) as Hnce.
  set (sim := fun i j : nat => dot (l2_normalize (nth i features []))
                                   (l2_normalize (nth j features []))) in *.
  set (logits := map (fun i => map (fun x => x / temperature args)
                                (info_nce_row N sim i)) (seq 0 (2 * N))) in *.
  assert (Hl : length logits = (2 * N)%nat) by (unfold logits; by rewrite length_map, length_seq).
  assert (Hrow : forall r, r ∈ logits -> length r = (2 * N - 1)%nat).
  { intros r (i & -> & Hi%elem_of_seq)%list_elem_of_fmap.
    rewrite length_map. apply info_nce_row_length; lia. }
  destruct (cross_entropy_zero_targets logits) as (c & Hce & Hc & Hzero).
  - intros E. rewrite E in Hl. simpl in Hl. lia.
  - apply Forall_forall. intros r Hr E. apply Hrow in Hr. rewrite E in Hr. simpl in Hr. lia.
  - exists logits, (replicate (2 * N) 0%Z), c. split; [exact Hnce|].
    rewrite <- Hl. split; [exact Hce|]. split; [exact Hc|].
    intros ->. apply Hzero, Forall_forall. intros r Hr. by rewrite (Hrow r Hr).
Qed.

End ContrastiveLoss.

(** X11, witness: one sample in two views. *)
Lemma X11_contrastive_loss_witness :
  let features : Mat := [[1; 0]; [0; 1]]%R in
  (1 <= 1)%nat /\ length features = (2 * 1)%nat /\ n_views demo_args = 2%nat
  /\ temperature demo_args <> 0%R
  /\ exists logits labels,
       info_nce_logits features demo_args = Ok (logits, labels)
       /\ cross_entropy logits labels = Ok (Some 0%R).
Proof.
  intros features.
  assert (HT : temperature demo_args <> 0%R) by (cbn [temperature demo_args]; lra).
  split; [lia|]. split; [reflexivity|]. split; [reflexivity|]. split; [exact HT|].
  destruct (X11_contrastive_loss features demo_args 1 ltac:(lia) eq_refl eq_refl HT)
    as (logits & labels & c & Hnce & Hce & _ & Hzero).
  exists logits, labels. split; [exact Hnce|]. by rewrite Hce, (Hzero eq_refl).
Defined.

(** ** Batches without unlabelled or without labelled samples *)

Section OneSidedBatches.
Context `{Collab}.

Lemma select_by_none {A : Type} (m : list bool) (l : list A) :
  Forall (fun b => b = false) m -> select_by m l = [].
Proof.
  intros Hm. revert l. induction Hm as [|b m -> _ IH]; intros [|x l]; simpl; auto.
Qed.

Lemma select_by_all {A : Type} (m : list bool) (l : list A) :
  Forall (fun b => b = true) m -> length m = length l -> select_by m l = l.
Proof.
  intros Hm. revert l. induction Hm as [|b m -> _ IH]; intros [|x l] Hlen;
    simpl in *; try discriminate; [reflexivity|]. f_equal. apply IH. lia.
Qed.

Lemma chunk2_halves {A : Type} (t : list A) (B : nat) :
  length t = (2 * B)%nat ->
  chunk2 t = Ok (take B t, drop B t)
  /\ length (take B t) = B /\ length (drop B t) = B.
Proof.
  intros Hlen. unfold chunk2. rewrite Hlen.
  destruct (Nat.eqb_spec (2 * B) 1) as [E|_]; [lia|].
  replace ((2 * B + 1) / 2)%nat with B by (apply Nat.div_unique with 1%nat; lia).
  split; [reflexivity|]. rewrite length_take, length_drop. lia.
Qed.

Lemma info_nce_logits_empty (args : Args) :
  info_nce_logits [] args = Raise RuntimeError.
Proof.
  unfold info_nce_logits. change (cosine_similarities []) with (@nil (list R)).
  destruct (Nat.eq_dec (n_views args) 0%nat) as [->|Hv]; [reflexivity|].
  by rewrite info_nce_pairs_empty.
Qed.


(** X13.  On a stage whose supervised weight is above 0, a batch in which
    no sample is labelled passes the contrastive part and then fails in the
    supervised contrastive kernel: the kernel is called on a tensor of
    shape [[0, 2, D]], and the row maximum of line 230 over an empty
    dimension raises [IndexError]. *)
Theorem X13_fully_unlabelled_batch (args : Args) (stage_i epoch : Z) (model : backbone)
    (proj : head) (g : gmm) (res : option ctx) (batch : Batch) (imgs : list image)
    (w : R) :
  let res' :=
    if fit_gmm_every_n_epoch args <=? epoch
    then Some (gmm_predict g (model_forward model imgs stage_i None))
    else res in
  let features := head_forward proj (model_forward model imgs stage_i res') in
  cat_images (images batch) = Ok imgs ->
  (1 <= length (mask_lab batch))%nat ->
  length features = (2 * length (mask_lab batch))%nat ->
  length (class_labels batch) = length (mask_lab batch) ->
  Forall (fun b => b = false) (mask_lab batch) ->
  n_views args = 2%nat -> temperature args <> 0%R ->
  py_index (sup_con_weight args) stage_i = Ok w -> (0 < w)%R ->
  batch_forward args stage_i epoch model proj g res batch = Raise IndexError.
Proof.
  intros res' features Himgs HB Hlen Hlab Hall Hviews Htemp Hw Hpos.
  set (B := length (mask_lab batch)) in *.
  set (feats := map l2_normalize features).
  assert (Hlen' : length feats = (2 * B)%nat) by (unfold feats; by rewrite length_map).
  destruct (chunk2_halves feats B Hlen') as (Hchunk & H1 & H2).
  assert (Hcon : select_con_feats args feats (mask_lab batch) = Ok feats).
  { unfold select_con_feats. destruct (contrast_unlabel_only args); [|reflexivity].
    rewrite Hchunk. cbn [mbind result_bind]. unfold bool_index.
    rewrite !length_map, H1, H2. fold B. rewrite Nat.eqb_refl. cbn [mbind result_bind].
    rewrite !select_by_all;
      rewrite ?length_map; fold B; rewrite ?H1, ?H2; try reflexivity;
      try (apply Forall_fmap; eapply Forall_impl; [exact Hall|]; by intros b ->).
    by rewrite take_drop. }
  destruct (cross_entropy_zero_targets
              (map (fun i => map (fun x => (x / temperature args)%R)
                       (info_nce_row B
                          (fun i j => dot (l2_normalize (nth i feats []))
                                          (l2_normalize (nth j feats []))) i))
                   (seq 0 (2 * B)))) as (c & Hce & _).
  { destruct B; [lia|]. simpl. discriminate. }
  { apply Forall_forall. intros r (i & -> & Hi%elem_of_seq)%list_elem_of_fmap E.
    apply (f_equal length) in E. rewrite length_map, info_nce_row_length in E by lia.
    simpl in E. lia. }
  rewrite length_map, length_seq in Hce.
  unfold batch_forward. rewrite Himgs. cbn [mbind result_bind].
  fold res'. fold features. fold feats. rewrite Hcon. cbn [mbind result_bind].
  rewrite (info_nce_logits_two_views feats args B HB Hlen' Hviews).
  cbn [mbind result_bind]. rewrite Hce. cbn [mbind result_bind].
  rewrite Hw. cbn [mbind result_bind].
  destruct (Rlt_dec 0 w) as [_|Hn]; [|contradiction].
  unfold sup_con_branch. rewrite Hchunk. cbn [mbind result_bind]. unfold bool_index.
  rewrite H1, H2, Hlab. fold B. rewrite Nat.eqb_refl. cbn [mbind result_bind].
  rewrite !select_by_none by exact Hall. reflexivity.
Qed.

End OneSidedBatches.


(** X13, witness: the unlabelled sample batch at stage 1, whose supervised
    weight is 0.35. *)
Lemma X13_fully_unlabelled_batch_witness :
  Forall (fun b => b = false) (mask_lab demo_batch)
  /\ py_index (sup_con_weight demo_args) 1 = Ok (35 / 100)%R
  /\ batch_forward demo_args 1 0 0%nat 0%nat 50 None demo_batch = Raise IndexError.
Proof.
  assert (Hall : Forall (fun b => b = false) (mask_lab demo_batch)) by (repeat constructor).
  split; [exact Hall|]. split; [reflexivity|].
  apply (@X13_fully_unlabelled_batch demo_collab demo_args 1 0 0%nat 0%nat 50 None
           demo_batch [1; 2; 3; 4] (35 / 100)%R eq_refl).
  - simpl. lia.
  - reflexivity.
  - reflexivity.
  - exact Hall.
  - reflexivity.
  - cbn [temperature demo_args]. lra.
  - reflexivity.
  - lra.
Defined.

(** ** Labels that only tell samples apart *)

Section LabelPatterns.
Variables (temperature : R) (contrast_mode : string) (base_temperature : R).

Lemma label_mask_relabel (f : Z -> Z) (labels : list Z) :
  (forall a b, f a = f b -> a = b) ->
  label_mask (map f labels) = label_mask labels.
Proof.
  intros Hinj. unfold label_mask. rewrite map_map. apply map_ext. intros li.
  rewrite map_map. apply map_ext. intros lj.
  destruct (Z.eqb_spec (f li) (f lj)) as [E|E], (Z.eqb_spec li lj) as [E'|E'];
    try reflexivity.
  - by apply Hinj in E.
  - by subst.
Qed.

Lemma label_mask_distinct (labels : list Z) :
  List.NoDup labels -> label_mask labels = eye_mask (length labels).
Proof.
  intros Hnd. unfold label_mask, eye_mask.
  rewrite (map_tabulate _ labels 0). apply map_ext_in. intros i Hi%in_seq.
  rewrite (map_tabulate _ labels 0). apply map_ext_in. intros j Hj%in_seq.
  destruct (Z.eqb_spec (nth i labels 0) (nth j labels 0)) as [E|E],
           (Nat.eqb_spec i j) as [E'|E']; try reflexivity.
  - exfalso. apply E'. apply (proj1 (List.NoDup_nth labels 0) Hnd); [lia | lia | exact E].
  - by subst.
Qed.

(** X14.  The kernel looks at the labels only through their equalities:
    renaming the classes by an injective map does not change its result,
    and on labels that are pairwise distinct it is the unsupervised (SimCLR)
    loss, the one computed when neither labels nor a mask is given. *)
Theorem X14_labels_by_equality (features : Tensor) (labels : list Z) :
  (forall f : Z -> Z,
     (forall a b, f a = f b -> a = b) ->
     SupConLoss_forward temperature contrast_mode base_temperature features
       (Some (map f labels)) None
     = SupConLoss_forward temperature contrast_mode base_temperature features
         (Some labels) None)
  /\ (List.NoDup labels -> length labels = nth 0 (shape features) 0%nat ->
      SupConLoss_forward temperature contrast_mode base_temperature features
        (Some labels) None
      = SupConLoss_forward temperature contrast_mode base_temperature features None None).
Proof.
  split.
  - intros f Hinj. unfold SupConLoss_forward, sample_mask.
    by rewrite length_map, (label_mask_relabel f labels Hinj).
  - intros Hnd Hlen. unfold SupConLoss_forward, sample_mask.
    by rewrite Hlen, Nat.eqb_refl, (label_mask_distinct labels Hnd), Hlen.
Qed.

End LabelPatterns.

(** X14, witness: two samples of two classes. *)
Lemma X14_labels_by_equality_witness :
  let features := {| shape := [2; 2; 1]%nat; data := [1; 0; 0; 1]%R |} in
  List.NoDup [0; 1]
  /\ SupConLoss_forward default_temperature "all" default_temperature features
       (Some [0; 1]) None
     = SupConLoss_forward default_temperature "all" default_temperature features None None.
Proof.
  intros features.
  assert (Hnd : List.NoDup [0; 1]).
  { constructor; [simpl; intros [E|[]]; discriminate E|].
    constructor; [simpl; tauto | constructor]. }
  split; [exact Hnd|].
  exact (proj2 (X14_labels_by_equality default_temperature "all" default_temperature
                  features [0; 1]) Hnd eq_refl).
Defined.

(** ** Normalised features *)

Section Normalised.
Local Open Scope R_scope.

#[local] Abbreviation eps := (/ 10 ^ 12)%R.

Lemma eps_pos : 0 < eps.
Proof. apply Rinv_0_lt_compat, pow_lt. lra. Qed.

Lemma eps_le_1 : eps <= 1.
Proof.
  assert (Hle : / 10 ^ 12 <= / 1) by (apply Rinv_le_contravar; [lra | apply pow_R1_Rle; lra]).
  by rewrite Rinv_1 in Hle.
Qed.

Lemma Rsum_squares_nonneg (v : list R) : 0 <= Rsum (map (fun x => x * x) v).
Proof.
  apply Rsum_nonneg, Forall_forall. intros y (x & -> & _)%list_elem_of_fmap. nra.
Qed.

Lemma l2_normalize_eq (v : list R) :
  l2_normalize v = map (fun x => x / Rmax (l2_norm v) eps) v.
Proof. reflexivity. Qed.

Lemma Rsum_squares_scaled (v : list R) (n : R) :
  n <> 0 ->
  Rsum (map (fun x => x * x) (map (fun x => x / n) v))
  = Rsum (map (fun x => x * x) v) / (n * n).
Proof.
  intros Hn. induction v as [|x v IH]; simpl; [field; exact Hn|].
  rewrite IH. field. exact Hn.
Qed.

Lemma Rsum_squares_zero (v : list R) :
  Rsum (map (fun x => x * x) v) = 0 -> Forall (fun x => x = 0) v.
Proof.
  induction v as [|x v IH]; simpl; intros Hs; [constructor|].
  pose proof (Rsum_squares_nonneg v) as Hv.
  assert (x * x = 0) by nra. assert (Rsum (map (fun x => x * x) v) = 0) by nra.
  constructor; [nra | by apply IH].
Qed.

(** A row whose norm is at least [1e-12] is normalised to norm 1. *)
Lemma l2_normalize_unit (v : list R) :
  eps <= l2_norm v -> l2_norm (l2_normalize v) = 1.
Proof.
  intros Hn. pose proof eps_pos as He.
  rewrite l2_normalize_eq, Rmax_left by exact Hn.
  unfold l2_norm at 1. rewrite Rsum_squares_scaled by lra.
  unfold l2_norm. rewrite sqrt_sqrt by apply Rsum_squares_nonneg.
  replace (Rsum (map (fun x => x * x) v) / Rsum (map (fun x => x * x) v)) with 1.
  - apply sqrt_1.
  - field. intros E. unfold l2_norm in Hn. rewrite E, sqrt_0 in Hn. lra.
Qed.

(** A row of zeros stays as it is. *)
Lemma l2_normalize_zero (v : list R) : l2_norm v = 0 -> l2_normalize v = v.
Proof.
  intros Hn. apply sqrt_eq_0 in Hn; [|apply Rsum_squares_nonneg].
  apply Rsum_squares_zero in Hn. rewrite l2_normalize_eq.
  etrans; [|apply List.map_id]. apply map_ext_in.
  intros x Hx%list_elem_of_In. rewrite (proj1 (Forall_forall _ _) Hn x Hx).
  unfold Rdiv. apply Rmult_0_l.
Qed.

Lemma l2_normalize_idempotent (v : list R) :
  l2_norm v = 0 \/ eps <= l2_norm v ->
  l2_normalize (l2_normalize v) = l2_normalize v.
Proof.
  intros [H0|Hn].
  - rewrite (l2_normalize_zero v H0). by apply l2_normalize_zero.
  - rewrite (l2_normalize_eq (l2_normalize v)), (l2_normalize_unit v Hn).
    rewrite Rmax_left by apply eps_le_1.
    etrans; [|apply List.map_id]. apply map_ext. intros x. field.
Qed.

Lemma dot_self (v : list R) : dot v v = Rsum (map (fun x => x * x) v).
Proof.
  unfold dot. induction v as [|x v IH]; simpl; [reflexivity | by rewrite IH].
Qed.

(** X15.  The features of line 93 are normalised again at line 266.  When
    every row that the projection head returns has norm 0 or a norm of at
    least [1e-12], the second normalisation changes nothing: the similarity
    matrix is the matrix of the dot products of the features of line 93,
    and [info_nce_logits] gives the same result on the features as on the
    output of the projection head.  A row of norm at least [1e-12] has norm
    1 after line 93, so its similarity to itself is 1. *)
Theorem X15_normalised_once (features : Mat) (args : Args) :
  Forall (fun r => l2_norm r = 0 \/ eps <= l2_norm r) features ->
  let normed := map l2_normalize features in
  cosine_similarities normed = matmul_T normed normed
  /\ info_nce_logits normed args = info_nce_logits features args
  /\ forall r, r ∈ features -> eps <= l2_norm r ->
       l2_norm (l2_normalize r) = 1 /\ dot (l2_normalize r) (l2_normalize r) = 1.
Proof.
  intros Hall normed.
  assert (Hid : map l2_normalize normed = normed).
  { unfold normed. rewrite map_map. apply map_ext_in. intros r Hr%list_elem_of_In.
    apply l2_normalize_idempotent. by apply (proj1 (Forall_forall _ _) Hall). }
  assert (Hcos : cosine_similarities normed = matmul_T normed normed).
  { unfold cosine_similarities. by rewrite Hid. }
  split; [exact Hcos|]. split.
  - unfold info_nce_logits. by rewrite Hcos.
  - intros r _ Hn. pose proof (l2_normalize_unit r Hn) as Hu. split; [exact Hu|].
    rewrite dot_self. unfold l2_norm in Hu.
    rewrite <- (sqrt_sqrt (Rsum _)) by apply Rsum_squares_nonneg. rewrite Hu. lra.
Qed.

End Normalised.

(** X15, witness: a unit row and a row of zeros. *)
Lemma X15_normalised_once_witness :
  let features : Mat := [[1]; [0]]%R in
  Forall (fun r => l2_norm r = 0%R \/ (/ 10 ^ 12 <= l2_norm r)%R) features
  /\ info_nce_logits (map l2_normalize features) demo_args
     = info_nce_logits features demo_args.
Proof.
  intros features.
  assert (Hall : Forall (fun r => l2_norm r = 0%R \/ (/ 10 ^ 12 <= l2_norm r)%R) features).
  { constructor; [right|constructor; [left|constructor]].
    - unfold l2_norm. simpl. replace (1 * 1 + 0)%R with 1%R by lra.
      rewrite sqrt_1. apply eps_le_1.
    - unfold l2_norm. simpl. replace (0 * 0 + 0)%R with 0%R by lra. apply sqrt_0. }
  split; [exact Hall|].
  exact (proj1 (proj2 (X15_normalised_once features demo_args Hall))).
Defined.

(** ** The sign of the supervised contrastive loss *)

Section SupConSign.
Local Open Scope nat_scope.

Lemma Rsum_nonpos (l : list R) : Forall (fun y => y <= 0)%R l -> (Rsum l <= 0)%R.
Proof. induction 1 as [|y l Hy _ IH]; simpl; lra. Qed.

Lemma mapM_option_Forall {A B : Type} (f : A -> option B) (P : B -> Prop) (l : list A) :
  Forall (fun x => exists y, f x = Some y /\ P y) l ->
  exists k, mapM f l = Some k /\ Forall P k /\ length k = length l.
Proof.
  induction 1 as [|x l (y & Hy & Py) _ (k & Hk & Pk & Hlen)].
  - exists []. by repeat split.
  - exists (y :: k). cbn [mapM]. rewrite Hy, Hk. repeat split; [by constructor|].
    simpl. by rewrite Hlen.
Qed.

(** The mean log-probability of the positives of an anchor is not above 0:
    every positive is one of the terms of the sum under the logarithm. *)
Lemma mean_log_prob_pos_row_nonpos (logits trow : list R) (i : nat) :
  let lmask := <[i := 0%R]> (replicate (length trow) 1%R) in
  let pmask := zip_with Rmult trow lmask in
  length logits = length trow ->
  Forall (fun y => 0 <= y)%R trow ->
  (0 < Rsum (zip_with Rmult (map exp logits) lmask))%R ->
  (1 <= Rsum pmask)%R ->
  exists v, mean_log_prob_pos_row logits lmask pmask = Some v /\ (v <= 0)%R.
Proof.
  intros lmask pmask Hlen Hnn Hexp Hpos. unfold mean_log_prob_pos_row, xlog, xdiv.
  destruct (Rlt_dec 0 _) as [_|Hn]; [|contradiction]. cbn [mbind option_bind].
  destruct (Req_dec_T (Rsum pmask) 0) as [E|_]; [lra|].
  eexists. split; [reflexivity|].
  set (S := Rsum (zip_with Rmult (map exp logits) lmask)) in *.
  assert (Hnum : (Rsum (zip_with Rmult pmask (map (fun x => (x - ln S)%R) logits)) <= 0)%R).
  { apply Rsum_nonpos, Forall_lookup. intros k z Hk.
    apply lookup_zip_with_Some in Hk as (p & d & -> & Hp & Hd).
    rewrite list_lookup_fmap in Hd.
    destruct (logits !! k) as [l|] eqn:Hl; [|discriminate]. injection Hd as <-.
    unfold pmask in Hp.
    apply lookup_zip_with_Some in Hp as (t & m & -> & Ht & Hm).
    pose proof (Forall_lookup_1 _ _ _ _ Hnn Ht) as Htpos. cbv beta in Htpos.
    destruct (decide (i = k)) as [->|Hik].
    - unfold lmask in Hm.
      rewrite list_lookup_insert_eq in Hm
        by (rewrite length_replicate; by eapply lookup_lt_Some).
      injection Hm as <-. lra.
    - unfold lmask in Hm. rewrite list_lookup_insert_ne in Hm by done.
      apply lookup_replicate in Hm as [-> _].
      assert (Hle : (exp l <= S)%R).
      { unfold S, lmask. rewrite <- Hlen, <- (length_map exp logits).
        apply (masked_sum_lower (map exp logits) i k).
        - apply Forall_fmap, Forall_forall. intros y _. simpl. left. apply exp_pos.
        - by rewrite list_lookup_fmap, Hl.
        - congruence. }
      assert (l <= ln S)%R.
      { rewrite <- (ln_exp l). destruct Hle as [Hlt|<-]; [|lra].
        left. apply ln_increasing; [apply exp_pos | exact Hlt]. }
      nra. }
  unfold Rdiv. assert (0 < / Rsum pmask)%R by (apply Rinv_0_lt_compat; lra). nra.
Qed.

(** The kernel on labels, in mode ["all"], with at least two views, a batch
    that is not empty and temperatures of one sign: the loss is a real
    number that is not negative. *)
Lemma forward_labels_nonneg (temperature base_temperature : R) (features : Tensor)
    (labels : list Z) (B V D : nat) :
  shape features = [B; V; D] -> length labels = B -> 1 <= B -> 2 <= V ->
  temperature <> 0%R -> base_temperature <> 0%R ->
  (0 <= temperature / base_temperature)%R ->
  exists loss,
    SupConLoss_forward temperature "all" base_temperature features (Some labels) None
    = Ok (Some loss)
    /\ (0 <= loss)%R.
Proof.
  intros Hshape <- HB HV HT HbT Hratio. set (B := length labels) in *.
  unfold SupConLoss_forward, view_last_dim, sample_mask.
  rewrite Hshape. cbn [length nth Nat.leb Nat.ltb check mbind result_bind].
  fold B. rewrite Nat.eqb_refl. cbn [mbind result_bind].
  destruct (Nat.eqb_spec V 0) as [|_]; [lia|]. cbn [check negb mbind result_bind].
  change (String.eqb "all" "one") with false. change (String.eqb "all" "all") with true.
  cbn iota. cbn [mbind result_bind].
  destruct (Nat.eqb_spec B 0) as [|_]; [lia|]. cbn [check negb mbind result_bind].
  unfold B at 2 3. rewrite same_shape_label_mask. cbn [check mbind result_bind].
  destruct (Req_dec_T temperature 0) as [|_]; [contradiction|].
  destruct (Req_dec_T base_temperature 0) as [|_]; [contradiction|].
  cbn [fmap option_fmap option_map mbind option_bind result_bind].
  set (contrast := flat_map _ (seq 0 V)).
  assert (Hc : length contrast = V * B).
  { unfold contrast. rewrite (length_flat_map_uniform _ _ B), length_seq; [reflexivity|].
    intros v. by rewrite length_map, length_seq. }
  set (lg := map (fun row => map (fun x => (x - row_max row)%R) row) _).
  assert (Hlg : length lg = V * B /\ Forall (fun r => length r = V * B) lg).
  { unfold lg, matmul_T. rewrite !length_map. split; [exact Hc|].
    apply Forall_forall. intros r Hr.
    apply list_elem_of_fmap in Hr as (r1 & -> & Hr1).
    apply list_elem_of_fmap in Hr1 as (r2 & -> & Hr2).
    apply list_elem_of_fmap in Hr2 as (u & -> & _).
    by rewrite !length_map. }
  destruct Hlg as [Hlg1 Hlg2].
  set (items := zip (zip lg _) _).
  destruct (mapM_option_Forall (fun p => mean_log_prob_pos_row p.1.1 p.1.2 p.2)
              (fun v => (v <= 0)%R) items) as (rows & Hrows & Hneg & Hrl).
  { apply Forall_lookup. intros k [[lrow lmrow] pmrow] Hk. simpl.
    unfold items in Hk.
    apply lookup_zip_with_Some in Hk as (p & pm' & [= <- <-] & Hp & Hpm).
    apply lookup_zip_with_Some in Hp as (l' & lm' & [= <- <-] & Hl & Hlm).
    assert (Hk : k < V * B) by (apply lookup_lt_Some in Hl; lia).
    destruct (tiled_label_row labels V k ltac:(fold B; lia) HV Hk)
      as (trow & Ht & Htlen & Hnn & Hone).
    pose proof (positive_count_ge_1 labels V k pmrow HV Hpm) as Hge.
    pose proof (logits_mask_lookup _ _ _ Ht) as Hlm'.
    pose proof (positive_mask_lookup _ _ _ _ _ Ht) as Hpm'. unfold Mat in *.
    rewrite Hlm' in Hlm. injection Hlm as <-.
    rewrite Hpm' in Hpm. injection Hpm as <-.
    pose proof (Forall_lookup_1 _ _ _ _ Hlg2 Hl) as Hllen. cbv beta in Hllen.
    destruct (other_view_spec B V k ltac:(lia) HV Hk) as (Ho1 & Ho2 & _).
    apply (mean_log_prob_pos_row_nonpos lrow trow k);
      [by rewrite Hllen, Htlen | exact Hnn | | exact Hge].
    destruct (lookup_lt_is_Some_2 lrow (other_view B k)
                ltac:(rewrite Hllen; exact Ho1)) as [x Hx].
    eapply Rlt_le_trans; [apply (exp_pos x)|].
    replace (length trow) with (length (map exp lrow))
      by (by rewrite length_map, Hllen, Htlen).
    apply (masked_sum_lower (map exp lrow) k (other_view B k)).
    - apply Forall_fmap, Forall_forall. intros y _. simpl. left. apply exp_pos.
    - by rewrite list_lookup_fmap, Hx.
    - exact Ho2. }
  rewrite Hrows. cbn [fmap option_fmap option_map mbind option_bind].
  assert (Hrl' : length rows = V * B).
  { rewrite Hrl. unfold items.
    rewrite !length_zip_with_l_eq; [exact Hlg1 | |].
    - unfold logits_mask_of. rewrite length_imap, mat_repeat_length.
      unfold label_mask. rewrite length_map. fold B. lia.
    - rewrite length_zip_with_l_eq.
      + rewrite positive_mask_length. unfold label_mask. rewrite length_map. fold B. lia.
      + unfold logits_mask_of. rewrite length_imap, mat_repeat_length.
        unfold label_mask. rewrite length_map. fold B. lia. }
  set (scaled := map (fun m => (- (temperature / base_temperature) * m)%R) rows).
  assert (Hlen : INR (length scaled) <> 0%R).
  { unfold scaled. rewrite length_map, Hrl'. apply not_0_INR. nia. }
  exists (Rsum scaled / INR (length scaled))%R. split.
  - unfold xmean, xdiv. destruct (Req_dec_T _ 0) as [E|_]; [contradiction | reflexivity].
  - apply Rmult_le_pos.
    + apply Rsum_nonneg, Forall_forall. intros y (m & -> & Hm)%list_elem_of_fmap.
      pose proof (proj1 (Forall_forall _ _) Hneg m Hm) as Hm'. cbv beta in Hm'. nra.
    + left. apply Rinv_0_lt_compat.
      destruct (Rle_lt_or_eq_dec 0 _ (pos_INR (length scaled))) as [Hlt|E];
        [exact Hlt | congruence].
Qed.

End SupConSign.

Section BatchLossSign.
Context `{Collab}.

(** With two views, [info_nce_logits] returns on a positive even number of
    rows only. *)
Lemma info_nce_logits_returns (features logits : Mat) (labels : list Z) (args : Args) :
  info_nce_logits features args = Ok (logits, labels) -> n_views args = 2%nat ->
  exists N, (1 <= N)%nat /\ length features = (2 * N)%nat.
Proof.
  intros Hnce Hviews.
  destruct (Nat.eq_dec (length features) 0%nat) as [E|Hn].
  { destruct features; [|discriminate]. by rewrite info_nce_logits_empty in Hnce. }
  destruct (Nat.eq_dec (2 * ((length features + 1) / 2))%nat (length features)) as [E|Hne].
  - exists ((length features + 1) / 2)%nat. split; lia.
  - exfalso. unfold info_nce_logits in Hnce. rewrite Hviews in Hnce.
    assert (Hsim : length (cosine_similarities features) = length features).
    { unfold cosine_similarities, matmul_T. by rewrite !length_map. }
    rewrite info_nce_pairs_mismatch in Hnce; rewrite ?Hsim; [discriminate | | exact Hne].
    pose proof (Nat.div_mod_eq (length features + 1) 2).
    pose proof (Nat.mod_upper_bound (length features + 1) 2 ltac:(lia)). lia.
Qed.

(** When the supervised branch of lines 109-112 returns, its loss is a real
    number that is not negative. *)
Lemma sup_con_branch_nonneg (features : Mat) (class_labels : list Z) (mask : list bool)
    (sup : xreal) :
  sup_con_branch features class_labels mask = Ok sup ->
  exists s, sup = Some s /\ (0 <= s)%R.
Proof.
  intros Hs. apply sup_con_branch_inv in Hs as (Hlen & Hlab & Hk). cbv zeta in *.
  set (N := length mask) in *.
  set (f1 := select_by mask (take N features)) in *.
  set (f2 := select_by mask (drop N features)) in *.
  set (lab := select_by mask class_labels) in *.
  assert (Hl : length lab = length f1).
  { unfold lab, f1. rewrite !select_by_length; [reflexivity| |].
    - rewrite length_take. fold N. lia.
    - by rewrite Hlab. }
  assert (HT : default_temperature <> 0%R) by (unfold default_temperature; lra).
  destruct (Nat.eq_dec (length f1) 0%nat) as [E|Hne].
  - exfalso. destruct f1; [|discriminate]. destruct lab; [|discriminate].
    discriminate Hk.
  - destruct (forward_labels_nonneg default_temperature default_temperature
                (stack_views (feat_dim features) f1 f2) lab
                (length f1) 2%nat (feat_dim features) eq_refl Hl ltac:(lia) ltac:(lia) HT HT)
      as (loss & Hloss & Hpos).
    { unfold Rdiv. rewrite Rinv_r by exact HT. lra. }
    change default_contrast_mode with "all"%string in Hk.
    rewrite Hloss in Hk. injection Hk as <-. eauto.
Qed.

(** X16.  When a batch step does not raise, with two views, a temperature
    that is not zero and a supervised weight between 0 and 1, the
    contrastive loss, the supervised contrastive loss and the total loss of
    line 117 are real numbers that are not negative. *)
Theorem X16_batch_losses_nonneg (args : Args) (stage_i epoch : Z) (model : backbone)
    (proj : head) (g : gmm) (res : option ctx) (batch : Batch) (o : BatchOut) (w : R) :
  batch_forward args stage_i epoch model proj g res batch = Ok o ->
  n_views args = 2%nat -> temperature args <> 0%R ->
  py_index (sup_con_weight args) stage_i = Ok w -> (0 <= w <= 1)%R ->
  exists c s,
    bo_contrastive_loss o = Some c /\ bo_sup_con_loss o = Some s
    /\ bo_loss o = Some ((1 - w) * c + w * s)%R
    /\ (0 <= c)%R /\ (0 <= s)%R /\ (0 <= (1 - w) * c + w * s)%R.
Proof.
  intros Hb Hviews _ Hw Hrange.
  apply batch_forward_inv in Hb
    as (logits & labels & w' & _ & _ & _ & _ & _ & Hnce & Hce & Hw' & Hsup & Hloss).
  rewrite Hw in Hw'. injection Hw' as <-.
  destruct (info_nce_logits_returns _ _ _ _ Hnce Hviews) as (N & HN & Hlen).
  rewrite (info_nce_logits_two_views _ args N HN Hlen Hviews) in Hnce.
  injection Hnce as <- <-.
  match type of Hce with cross_entropy ?lg _ = _ =>
    destruct (cross_entropy_zero_targets lg) as (c & Hce' & Hc & _) end.
  { destruct N; [lia|]. simpl. discriminate. }
  { apply Forall_forall. intros r (i & -> & _)%list_elem_of_fmap E. discriminate E. }
  rewrite length_map, length_seq, Hce in Hce'. injection Hce' as Hc'.
  assert (Hs : exists s, bo_sup_con_loss o = Some s /\ (0 <= s)%R).
  { destruct (Rlt_dec 0 w) as [_|_].
    - by apply sup_con_branch_nonneg in Hsup.
    - injection Hsup as <-. exists 0%R. split; [reflexivity | lra]. }
  destruct Hs as (s & Hs & Hspos).
  exists c, s. rewrite Hloss, Hc', Hs. repeat split; try assumption; nra.
Qed.

End BatchLossSign.

(** X16, witness: the sample batch at stage 0. *)
Lemma X16_batch_losses_nonneg_witness :
  exists o c,
    batch_forward demo_args 0 0 0%nat 0%nat 50 None demo_batch = Ok o
    /\ bo_contrastive_loss o = Some c /\ (0 <= c)%R.
Proof.
  destruct (demo_batch_forward 50) as (o & Hb & _).
  destruct (@X16_batch_losses_nonneg demo_collab demo_args 0 0 0%nat 0%nat 50 None
              demo_batch o 0%R Hb
              eq_refl ltac:(cbn [temperature demo_args]; lra) eq_refl ltac:(lra))
    as (c & s & Hc & _ & _ & Hpos & _).
  exists o, c. split; [exact Hb|]. split; [exact Hc | exact Hpos].
Defined.

(** ** The selection of the parameters to finetune *)

Section FinetuneSelection.
Variable py_int : string -> result Z.

Lemma mapM_result_inv {A B : Type} (f : A -> result B) (l : list A) (l' : list B) :
  mapM f l = Ok l' ->
  length l' = length l
  /\ forall k x, l !! k = Some x -> exists y, l' !! k = Some y /\ f x = Ok y.
Proof.
  revert l'. induction l as [|a l IH]; intros l'; cbn [mapM].
  - intros [= <-]. split; [reflexivity|]. intros k x Hk. by rewrite lookup_nil in Hk.
  - intros Hm. apply result_bind_Ok in Hm as (y & Hy & Hm).
    apply result_bind_Ok in Hm as (ys & Hys & Hm). injection Hm as <-.
    destruct (IH ys Hys) as [Hlen Hlook]. split; [simpl; by rewrite Hlen|].
    intros [|k] x Hk; simpl in Hk.
    + injection Hk as <-. exists y. by split.
    + by apply Hlook.
Qed.

(** The first parameter at which the loop of lines 329-333 raises decides
    the exception. *)
Lemma mapM_result_raise {A B : Type} (f : A -> result B) (l1 l2 : list A) (a : A)
    (x : exn) :
  (forall b, b ∈ l1 -> exists y, f b = Ok y) -> f a = Raise x ->
  mapM f (l1 ++ a :: l2) = Raise x.
Proof.
  intros Hok Ha. induction l1 as [|b l1 IH]; cbn [mapM app].
  - by rewrite Ha.
  - destruct (Hok b ltac:(by left)) as [y ->]. cbn [mbind result_bind].
    rewrite IH; [reflexivity|]. intros c Hc. apply Hok. by right.
Qed.

(** X17.  When the selection of lines 324-333 returns, it has kept the
    names and the order of the parameters.  A parameter whose name
    contains ['block'] has a second dot-separated component that [int]
    accepts; if this block number is at least [grad_from_block] the
    parameter is trainable, also when [freeze] lists a prefix of its name.
    Every other parameter is frozen if [freeze] lists a prefix of its name
    and keeps its [requires_grad] otherwise.  A name that contains
    ['block'] and no dot makes the selection raise [IndexError], when no
    earlier name contains ['block']. *)
Theorem X17_finetune_selection (freeze : list string) (grad_from_block : Z)
    (params : list (string * bool)) :
  (forall params',
     finetune_selection py_int freeze grad_from_block params = Ok params' ->
     map fst params' = map fst params
     /\ forall k name g,
          params !! k = Some (name, g) ->
          let frozen := if py_startswith name freeze then false else g in
          exists g',
            params' !! k = Some (name, g')
            /\ (py_contains "block" name = false -> g' = frozen)
            /\ (py_contains "block" name = true ->
                exists s block_num,
                  py_split "."%char name !! 1%nat = Some s
                  /\ py_int s = Ok block_num
                  /\ g' = if grad_from_block <=? block_num then true else frozen))
  /\ (forall before after name g,
        params = before ++ (name, g) :: after ->
        (forall p, p ∈ before -> py_contains "block" p.1 = false) ->
        py_contains "block" name = true -> length (py_split "."%char name) = 1%nat ->
        finetune_selection py_int freeze grad_from_block params = Raise IndexError).
Proof.
  split.
  - intros params' Hsel. unfold finetune_selection in Hsel.
    apply mapM_result_inv in Hsel as [Hlen Hlook]. split.
    + apply list_eq. intros k. rewrite !list_lookup_fmap.
      destruct (params !! k) as [[name g]|] eqn:Hk.
      * destruct (Hlook k (name, if py_startswith name freeze then false else g))
          as ([name' g'] & -> & Hy).
        { unfold freeze_pass. by rewrite list_lookup_fmap, Hk. }
        unfold unfreeze_param in Hy. cbn [fst snd] in Hy.
        destruct (py_contains "block" name); [|by injection Hy as <- <-].
        apply result_bind_Ok in Hy as (s & _ & Hy).
        apply result_bind_Ok in Hy as (n & _ & Hy). by injection Hy as <- <-.
      * apply lookup_ge_None in Hk. unfold freeze_pass in Hlen.
        rewrite length_map in Hlen. rewrite (proj2 (lookup_ge_None params' k)) by lia.
        reflexivity.
    + intros k name g Hk frozen.
      destruct (Hlook k (name, frozen)) as ([name' g'] & Hk' & Hy).
      { unfold freeze_pass. by rewrite list_lookup_fmap, Hk. }
      unfold unfreeze_param in Hy. cbn [fst snd] in Hy.
      destruct (py_contains "block" name) eqn:Hb.
      * apply result_bind_Ok in Hy as (s & Hs & Hy).
        apply result_bind_Ok in Hy as (n & Hn & Hy). injection Hy as <- <-.
        exists (if grad_from_block <=? n then true else frozen).
        split; [exact Hk'|]. split; [discriminate|]. intros _. exists s, n.
        split; [|by split].
        unfold py_index in Hs. cbv zeta in Hs. change (0 <=? 1) with true in Hs.
        cbv iota in Hs. change (Z.to_nat 1) with 1%nat in Hs.
        destruct (_ && _); [|discriminate].
        destruct (py_split "." name !! 1%nat) as [s'|]; [congruence | discriminate].
      * injection Hy as <- <-. exists frozen. split; [exact Hk'|]. split; [done | discriminate].
  - intros before after name g -> Hbefore Hb Hlen. unfold finetune_selection, freeze_pass.
    rewrite map_app. cbn [map fst snd].
    apply mapM_result_raise.
    + intros p (q & -> & Hq)%list_elem_of_fmap. cbn [fst snd]. unfold unfreeze_param.
      cbn [fst snd]. rewrite (Hbefore q Hq). eauto.
    + unfold unfreeze_param. cbn [fst snd]. rewrite Hb. unfold py_index. rewrite Hlen.
      reflexivity.
Qed.

End FinetuneSelection.

(** X17, witness: with [freeze = ['blocks', 'cls_token']] and
    [grad_from_block = 11], block 11 is trainable, block 10 and the class
    token are frozen, and the final norm is left trainable. *)
Lemma X17_finetune_selection_witness :
  finetune_selection demo_int ["blocks"; "cls_token"]%string 11 demo_params
  = Ok [("cls_token", false); ("blocks.10.attn.qkv.weight", false);
        ("blocks.11.attn.qkv.weight", true); ("norm.weight", true)]%string
  /\ map fst demo_params
     = ["cls_token"; "blocks.10.attn.qkv.weight"; "blocks.11.attn.qkv.weight";
        "norm.weight"]%string.
Proof.
  assert (Hsel : finetune_selection demo_int ["blocks"; "cls_token"]%string 11 demo_params
                 = Ok [("cls_token", false); ("blocks.10.attn.qkv.weight", false);
                       ("blocks.11.attn.qkv.weight", true); ("norm.weight", true)]%string)
    by (vm_compute; reflexivity).
  split; [exact Hsel|].
  destruct (X17_finetune_selection demo_int ["blocks"; "cls_token"]%string 11 demo_params)
    as [HX _].
  destruct (HX _ Hsel) as [Hnames _]. rewrite <- Hnames. reflexivity.
Defined.
